(** * birthday_bot: the AI greeting pipeline of [bot.py]

    A shallow embedding of the GigaChat token cache, the retried
    completion and image requests, the greeting pipeline, the two
    scheduled dispatch loops and the command handlers of [bot.py] with
    the files they read and write, with the properties of the
    specification stated over it.

    Conventions of the embedding.
    - A Python [str] is the list of its code points; [bytes] is a list of
      bytes.  Python truthiness ([if x:]) is written out.
    - An [async] function is a computation in a state-and-trace monad: it
      reads and updates the module-level token cache and the clock, and
      emits the events it causes (HTTP requests, sleeps, Telegram calls,
      prints).
    - The outside world is an oracle [Env]: what the [n]-th interaction
      with the outside is answered, and how long the answer takes.  The
      Telegram application object [app] is a separate argument, as in the
      source.
    - [try/except Exception] is written out at each place the source has
      one: an operation that may raise returns an [Outcome]. *)

From Stdlib Require Import List ZArith NArith QArith Qminmax Bool Lia Lqa Arith.
From Stdlib.Strings Require Import Ascii Byte String.
From Stdlib Require Import DecimalString Permutation Sorted.
Import ListNotations.

Local Open Scope Z_scope.

(* ================================================================== *)
(** ** Python strings *)

Module Py.

Definition str := list N.
Definition bytes := list byte.

(** Decoding of the UTF-8 literals of the source text. *)
Fixpoint utf8_decode (bs : list N) : str :=
  match bs with
  | [] => []
  | b :: rest =>
    if (b <? 128)%N then b :: utf8_decode rest
    else if (b <? 224)%N then
      match rest with
      | c1 :: r => ((b - 192) * 64 + (c1 - 128))%N :: utf8_decode r
      | _ => []
      end
    else if (b <? 240)%N then
      match rest with
      | c1 :: c2 :: r =>
        ((b - 224) * 4096 + (c1 - 128) * 64 + (c2 - 128))%N :: utf8_decode r
      | _ => []
      end
    else
      match rest with
      | c1 :: c2 :: c3 :: r =>
        ((b - 240) * 262144 + (c1 - 128) * 4096 + (c2 - 128) * 64 + (c3 - 128))%N
          :: utf8_decode r
      | _ => []
      end
  end.

Definition lit (s : String.string) : str :=
  utf8_decode (map N_of_ascii (String.list_ascii_of_string s)).
Arguments lit s%_string.

Definition quote : str := [34%N].
Definition newline : str := [10%N].

Fixpoint eqb (a b : str) : bool :=
  match a, b with
  | [], [] => true
  | x :: a', y :: b' => (x =? y)%N && eqb a' b'
  | _, _ => false
  end.

(** [s.startswith(p)] *)
Fixpoint startswith (p s : str) : bool :=
  match p, s with
  | [], _ => true
  | x :: p', y :: s' => (x =? y)%N && startswith p' s'
  | _ :: _, [] => false
  end.

(** Lowest index, counted from [i], at which [sub] occurs in [s]. *)
Fixpoint find_at (sub s : str) (i : nat) : option nat :=
  if startswith sub s then Some i
  else match s with
       | [] => None
       | _ :: s' => find_at sub s' (S i)
       end.

(** [sub in s] *)
Definition contains (sub s : str) : bool :=
  match find_at sub s 0 with Some _ => true | None => false end.

(** Python's adjustment of a slice bound: a negative bound counts from the
    end, and the result is clamped to [0 .. len]. *)
Definition clamp (len i : Z) : Z :=
  let j := if i <? 0 then i + len else i in
  Z.max 0 (Z.min len j).

(** [s.find(sub, start)]: the lowest index at or after [start], or [-1]. *)
Definition find (sub s : str) (start : Z) : Z :=
  let len := Z.of_nat (List.length s) in
  if len <? start then -1
  else
    let st := Z.to_nat (clamp len start) in
    match find_at sub (skipn st s) st with
    | Some i => Z.of_nat i
    | None => -1
    end.

(** [s[start:stop]] *)
Definition slice (s : str) (start stop : Z) : str :=
  let len := Z.of_nat (List.length s) in
  let a := clamp len start in
  let b := clamp len stop in
  firstn (Z.to_nat (b - a)) (skipn (Z.to_nat a) s).

(** [str(n)] for an [int]. *)
Definition of_Z (n : Z) : str :=
  map N_of_ascii (String.list_ascii_of_string (DecimalString.NilZero.string_of_int (Z.to_int n))).

(** [sep.join(lines)] *)
Fixpoint join (sep : str) (lines : list str) : str :=
  match lines with
  | [] => []
  | [l] => l
  | l :: rest => l ++ sep ++ join sep rest
  end.

(** Truthiness of a value that is [None] or a [str]. *)
Definition truthy (v : option str) : bool :=
  match v with
  | Some (_ :: _) => true
  | _ => false
  end.

(** Truthiness of a value that is [None] or [bytes]. *)
Definition truthy_bytes (v : option bytes) : bool :=
  match v with
  | Some (_ :: _) => true
  | _ => false
  end.

(** Truthiness of a value that is [None] or a number. *)
Definition truthy_num (v : option Q) : bool :=
  match v with
  | Some q => negb (Qeq_bool q 0)
  | None => false
  end.

(** The methods of [str] whose result depends on the Unicode character
    database are taken as they are: any functions. *)
Record StrMethods := {
  strip : str -> str;
  upper : str -> str;
  lower : str -> str
}.

End Py.

Definition Qltb (x y : Q) : bool := negb (Qle_bool y x).

(* ================================================================== *)
(** ** Data *)

(** One entry of a user's list, [{"day": .., "month": .., "name": ..}]. *)
Record Birthday := {
  day : Z;
  month : Z;
  name : Py.str
}.

Inductive Month :=
| January | February | March | April | May | June
| July | August | September | October | November | December.

(** [datetime.now().month] *)
Definition month_number (m : Month) : Z :=
  match m with
  | January => 1 | February => 2 | March => 3 | April => 4
  | May => 5 | June => 6 | July => 7 | August => 8
  | September => 9 | October => 10 | November => 11 | December => 12
  end.

(** What [datetime.now()] gives of the date. *)
Record Today := {
  today_day : Z;
  today_month : Month
}.

(** *** Answers of the outside world *)

(** The payload of a completion response: it cannot be read at all, or it
    is read but [resp.json()] or the path [choices[0].message.content]
    raises, or the content is there (a string, as the provider types
    it). *)
Inductive Body :=
| BodyUnreadable
| BodyMalformed
| BodyContent (content : Py.str).

Inductive CompletionReply :=
| CompletionTimeout
| CompletionError
| CompletionResponse (status : Z) (body : Body).

(** [payload = None]: [img_resp.read()] raises. *)
Inductive DownloadReply :=
| DownloadTimeout
| DownloadError
| DownloadResponse (status : Z) (payload : option Py.bytes).

(** The JSON object of the OAuth answer; a field is [None] when the key
    is missing. *)
Record OAuthBody := {
  access_token : option Py.str;
  expires_at : option Z
}.

(** [body = None]: [resp.json()] raises. *)
Inductive OAuthReply :=
| OAuthError
| OAuthResponse (status : Z) (body : option OAuthBody).

(** The environment of one run.  The answers and the latencies are
    indexed by the number of interactions that came before. *)
Record Env := {
  GIGACHAT_AUTH : option Py.str;
  sessions : list (Z * Py.str);
  stored_birthdays : nat -> Py.str -> list Birthday;
  calendar : Q -> Today;
  latency : nat -> Q;
  oauth_reply : nat -> OAuthReply;
  completion_reply : nat -> CompletionReply;
  download_reply : nat -> DownloadReply;
  methods : Py.StrMethods
}.

(** The Telegram application: whether its [n]-th call returns ([true])
    or raises. *)
Record App := {
  transport_ok : nat -> bool
}.

(** *** Events *)

Inductive Model := GigaChat | GigaChatMax.

(** The [print] calls of the source. *)
Inductive LogMsg :=
| LogOAuthError (status : Z)
| LogOAuthException
| LogApiError (status : Z)
| LogTimeout (attempt : nat)
| LogRequestError (attempt : nat)
| LogImageApiError (status : Z)
| LogImageResponse (content : Py.str)
| LogDownloading (file_id : Py.str)
| LogDownloadError (status : Z)
| LogNoImageTag
| LogImageTimeout (attempt : nat)
| LogImageError (attempt : nat)
| LogPause (seconds : Z) (card : nat)
| LogSendTextError (chat_id : Z)
| LogSendCardError (chat_id : Z)
| LogSendError (chat_id : Z).

(** [EvTokenResult], [EvCardCall] and [EvCardResult] are call markers:
    they are no effect of the program, they make the return of
    [get_gigachat_token] and the entry and the return of
    [generate_birthday_card] visible in the trace. *)
Inductive Event :=
| EvOAuth
| EvCompletion (model : Model) (bearer : Py.str) (messages : list (Py.str * Py.str))
| EvDownload (file_id bearer : Py.str)
| EvSleep (seconds : Z)
| EvSendMessage (chat_id : Z) (text : Py.str) (markdown delivered : bool)
| EvSendPhoto (chat_id : Z) (photo : Py.bytes) (caption : Py.str) (delivered : bool)
| EvPrint (msg : LogMsg)
| EvTokenResult (result : option Py.str)
| EvCardCall (name gender : Py.str)
| EvCardResult (card : option Py.bytes).

Record Stamped := {
  at_time : Q;
  at_tick : nat;
  what : Event
}.

(** *** State *)

(** [gigachat_token_cache = {"token": None, "expires": None}] *)
Record TokenCache := {
  token : option Py.str;
  expires : option Q
}.

Record State := {
  gigachat_token_cache : TokenCache;
  clock : Q;
  tick : nat
}.

Definition initial_state (t : Q) : State :=
  {| gigachat_token_cache := {| token := None; expires := None |};
     clock := t; tick := 0 |}.

(* ================================================================== *)
(** ** The monad of [async] functions *)

Definition M (A : Type) : Type := State -> A * State * list Stamped.

Definition ret {A} (a : A) : M A := fun s => (a, s, []).

Definition bind {A B} (m : M A) (k : A -> M B) : M B :=
  fun s =>
    let '(a, s1, e1) := m s in
    let '(b, s2, e2) := k a s1 in
    (b, s2, e1 ++ e2).

Declare Scope m_scope.
Delimit Scope m_scope with m.
Bind Scope m_scope with M.
Notation "x <- m ;; k" := (bind m (fun x => k))
  (at level 61, m at next level, right associativity) : m_scope.
Notation "m ;; k" := (bind m (fun _ => k))
  (at level 61, right associativity) : m_scope.
Local Open Scope m_scope.

Definition result {A} (r : A * State * list Stamped) : A := fst (fst r).
Definition final {A} (r : A * State * list Stamped) : State := snd (fst r).
Definition events {A} (r : A * State * list Stamped) : list Stamped := snd r.

Arguments result {A} !r /.
Arguments final {A} !r /.
Arguments events {A} !r /.

Definition emit (e : Event) : M unit :=
  fun s => (tt, s, [{| at_time := clock s; at_tick := tick s; what := e |}]).

Definition print (msg : LogMsg) : M unit := emit (EvPrint msg).

(** [datetime.now().timestamp()] *)
Definition now : M Q := fun s => (clock s, s, []).

Definition get_cache : M TokenCache := fun s => (gigachat_token_cache s, s, []).

Definition set_token (v : option Py.str) : M unit :=
  fun s => (tt, {| gigachat_token_cache :=
                     {| token := v; expires := expires (gigachat_token_cache s) |};
                   clock := clock s; tick := tick s |}, []).

Definition set_expires (v : option Q) : M unit :=
  fun s => (tt, {| gigachat_token_cache :=
                     {| token := token (gigachat_token_cache s); expires := v |};
                   clock := clock s; tick := tick s |}, []).

Definition current_tick : M nat := fun s => (tick s, s, []).

(** A request leaves: it gets the next index of the environment. *)
Definition issue : M nat :=
  fun s => (tick s, {| gigachat_token_cache := gigachat_token_cache s;
                       clock := clock s; tick := S (tick s) |}, []).

Definition elapse (d : Q) : M unit :=
  fun s => (tt, {| gigachat_token_cache := gigachat_token_cache s;
                   clock := clock s + d; tick := tick s |}, []).

(** [await asyncio.sleep(seconds)] *)
Definition sleep (seconds : Z) : M unit :=
  emit (EvSleep seconds) ;; elapse (inject_Z seconds).

(** What a [try] block ends with. *)
Inductive Outcome := Returned | Raised.

(** What one pass through the body of a [for] loop ends with: the end of
    the body or a [continue], or a [return] of the function. *)
Inductive Flow (R : Type) :=
| Continue
| Return (r : R).
Arguments Continue {R}.
Arguments Return {R} r.

(** [for x in items: body], with no [return] in the body. *)
Fixpoint for_each {A} (items : list A) (body : A -> M unit) : M unit :=
  match items with
  | [] => ret tt
  | x :: rest => body x ;; for_each rest body
  end.

(** [for i in indices: body] followed by [rest], in a function that
    returns an [R]. *)
Fixpoint for_range {R} (indices : list nat) (body : nat -> M (Flow R))
    (rest : M R) : M R :=
  match indices with
  | [] => rest
  | i :: indices' =>
    f <- body i ;;
    match f with
    | Return r => ret r
    | Continue => for_range indices' body rest
    end
  end.

(* ================================================================== *)
(** ** The program *)

(** [IMAGE_DELAY = 30] *)
Definition IMAGE_DELAY : Z := 30.

(** The marker of a generated image in the completion content. *)
Definition img_marker : Py.str := Py.lit "<img src=" ++ Py.quote.

(** Lines 240-243: the file identifier of a content that has the marker. *)
Definition extract_file_id (content : Py.str) : Py.str :=
  let start := Py.find img_marker content 0 + 10 in
  let end_ := Py.find Py.quote content start in
  Py.slice content start end_.

(** *** The texts sent *)

(** [f"🎂 *Сегодня день рождения: {name}*\n\n{greeting}"] *)
Definition greeting_text (name text : Py.str) : Py.str :=
  Py.lit "🎂 *Сегодня день рождения: " ++ name ++ Py.lit "*"
  ++ Py.newline ++ Py.newline ++ text.

(** [f"🎉 Сегодня день рождения:\n{name}\n\nНе забудь поздравить! 🎂"] *)
Definition fallback_text (name : Py.str) : Py.str :=
  Py.lit "🎉 Сегодня день рождения:" ++ Py.newline ++ name
  ++ Py.newline ++ Py.newline ++ Py.lit "Не забудь поздравить! 🎂".

(** [f"Открытка {i + 1} для {name}"] *)
Definition card_caption (i : nat) (name : Py.str) : Py.str :=
  Py.lit "Открытка " ++ Py.of_Z (Z.of_nat i + 1) ++ Py.lit " для " ++ name.

(** A coroutine stopped at its [await]: it has finished, or it waits for
    the answer to the request it has issued. *)
Inductive Pending (A : Type) :=
| Finished (a : A)
| Awaiting (request : nat).
Arguments Finished {A} a.
Arguments Awaiting {A} request.

Section Program.

Variable env : Env.

(** *** [get_gigachat_token] *)

(** Up to the [await] of the POST: the cache test, the test of the
    authorization key, the request. *)
Definition get_gigachat_token_begin : M (Pending (option Py.str)) :=
  c <- get_cache ;;
  t <- now ;;
  let refresh : M (Pending (option Py.str)) :=
    if negb (Py.truthy (GIGACHAT_AUTH env)) then ret (Finished None)
    else (emit EvOAuth ;; n <- issue ;; ret (Awaiting n)) in
  if Py.truthy (token c) && Py.truthy_num (expires c) then
    match expires c with
    | Some e => if Qltb t (e - 60)%Q then ret (Finished (token c)) else refresh
    | None => refresh
    end
  else refresh.

(** From the answer on. *)
Definition get_gigachat_token_resume (n : nat) : M (option Py.str) :=
  elapse (latency env n) ;;
  match oauth_reply env n with
  | OAuthError => print LogOAuthException ;; ret None
  | OAuthResponse status body =>
    if status =? 200 then
      match body with
      | None => print LogOAuthException ;; ret None
      | Some data =>
        match access_token data with
        | None => print LogOAuthException ;; ret None
        | Some tok =>
          set_token (Some tok) ;;
          match expires_at data with
          | None => print LogOAuthException ;; ret None
          | Some ms =>
            set_expires (Some (inject_Z ms / 1000)%Q) ;;
            ret (Some tok)
          end
        end
      end
    else (print (LogOAuthError status) ;; ret None)
  end.

Definition get_gigachat_token : M (option Py.str) :=
  p <- get_gigachat_token_begin ;;
  r <- match p with
       | Finished r => ret r
       | Awaiting n => get_gigachat_token_resume n
       end ;;
  emit (EvTokenResult r) ;;
  ret r.

(** *** [gigachat_request] *)

(** [session.post(f"{GIGACHAT_API_URL}/chat/completions", ...)] *)
Definition post_completion (model : Model) (bearer : Py.str)
    (messages : list (Py.str * Py.str)) : M CompletionReply :=
  emit (EvCompletion model bearer messages) ;;
  n <- issue ;;
  elapse (latency env n) ;;
  ret (completion_reply env n).

(** [session.get(f"{GIGACHAT_API_URL}/files/{file_id}/content", ...)] *)
Definition get_file (file_id bearer : Py.str) : M DownloadReply :=
  emit (EvDownload file_id bearer) ;;
  n <- issue ;;
  elapse (latency env n) ;;
  ret (download_reply env n).

(** The body of [for attempt in range(max_retries)]. *)
Definition gigachat_request_attempt (messages : list (Py.str * Py.str))
    (attempt : nat) : M (Flow (option Py.str)) :=
  tok <- get_gigachat_token ;;
  match tok with
  | Some ((_ :: _) as bearer) =>
    reply <- post_completion GigaChat bearer messages ;;
    match reply with
    | CompletionTimeout => print (LogTimeout (attempt + 1)) ;; ret Continue
    | CompletionError => print (LogRequestError (attempt + 1)) ;; ret Continue
    | CompletionResponse status body =>
      if status =? 200 then
        match body with
        | BodyContent content => ret (Return (Some content))
        | _ => print (LogRequestError (attempt + 1)) ;; ret Continue
        end
      else (print (LogApiError status) ;; ret Continue)
    end
  | _ => ret Continue
  end.

Definition gigachat_request (messages : list (Py.str * Py.str))
    (max_retries : nat) : M (option Py.str) :=
  for_range (seq 0 max_retries) (gigachat_request_attempt messages) (ret None).

(** *** [gigachat_generate_image] *)

Definition gigachat_generate_image_attempt (prompt : Py.str)
    (attempt : nat) : M (Flow (option Py.bytes)) :=
  tok <- get_gigachat_token ;;
  match tok with
  | Some ((_ :: _) as bearer) =>
    reply <- post_completion GigaChatMax bearer [(Py.lit "user", prompt)] ;;
    match reply with
    | CompletionTimeout => print (LogImageTimeout (attempt + 1)) ;; ret Continue
    | CompletionError => print (LogImageError (attempt + 1)) ;; ret Continue
    | CompletionResponse status body =>
      if negb (status =? 200) then
        match body with
        | BodyUnreadable => print (LogImageError (attempt + 1)) ;; ret Continue
        | _ => print (LogImageApiError status) ;; ret Continue
        end
      else
        match body with
        | BodyContent content =>
          print (LogImageResponse (Py.slice content 0 200)) ;;
          if Py.contains img_marker content then
            let file_id := extract_file_id content in
            print (LogDownloading file_id) ;;
            img_resp <- get_file file_id bearer ;;
            match img_resp with
            | DownloadTimeout => print (LogImageTimeout (attempt + 1)) ;; ret Continue
            | DownloadError => print (LogImageError (attempt + 1)) ;; ret Continue
            | DownloadResponse img_status payload =>
              if img_status =? 200 then
                match payload with
                | Some data => ret (Return (Some data))
                | None => print (LogImageError (attempt + 1)) ;; ret Continue
                end
              else (print (LogDownloadError img_status) ;; ret Continue)
            end
          else (print LogNoImageTag ;; ret Continue)
        | _ => print (LogImageError (attempt + 1)) ;; ret Continue
        end
    end
  | _ => ret Continue
  end.

Definition gigachat_generate_image (prompt : Py.str) (max_retries : nat)
    : M (option Py.bytes) :=
  for_range (seq 0 max_retries) (gigachat_generate_image_attempt prompt) (ret None).

(** *** The generators *)

Definition detect_gender_prompt (name : Py.str) : Py.str :=
  Py.lit "Определи пол человека по имени: " ++ Py.quote ++ name ++ Py.quote
  ++ Py.newline ++ Py.lit "Ответь только одной буквой: М или Ж".

Definition detect_gender (name : Py.str) : M Py.str :=
  response <- gigachat_request [(Py.lit "user", detect_gender_prompt name)] 2 ;;
  match response with
  | Some ((_ :: _) as text) =>
    let response := Py.upper (methods env) (Py.strip (methods env) text) in
    if Py.contains (Py.lit "М") response then ret (Py.lit "m")
    else if Py.contains (Py.lit "Ж") response then ret (Py.lit "f")
    else ret (Py.lit "f")
  | _ => ret (Py.lit "f")
  end.

Definition generate_greeting_prompt (name : Py.str) : Py.str :=
  Py.lit "Напиши поздравление с днём рождения для " ++ name ++ Py.lit ".

Требования:
1. Сначала короткий стих (4-6 строк) с хорошей рифмой
2. Затем 2-3 предложения тёплой прозы
3. Используй имя в поздравлении
4. Без банальностей
5. Искренне и душевно

Только текст поздравления, без пояснений.".

Definition generate_greeting (name : Py.str) : M (option Py.str) :=
  gigachat_request [(Py.lit "user", generate_greeting_prompt name)] 2.

Definition generate_birthday_card_prompt (name gender : Py.str) : Py.str :=
  let style :=
    if Py.eqb gender (Py.lit "f")
    then Py.lit "красивые цветы, нежные тона, праздничная атмосфера"
    else Py.lit "стильная мужская открытка, сдержанные тона, элегантный дизайн" in
  Py.lit "Нарисуй праздничную открытку с днём рождения.
Стиль: " ++ style ++ Py.newline
  ++ Py.lit "На открытке крупно напиши: " ++ Py.quote ++ name
  ++ Py.lit ", с днём рождения!" ++ Py.quote ++ Py.newline
  ++ Py.lit "Открытка должна быть яркой и праздничной.".

Definition generate_birthday_card (name gender : Py.str) : M (option Py.bytes) :=
  emit (EvCardCall name gender) ;;
  card <- gigachat_generate_image (generate_birthday_card_prompt name gender) 2 ;;
  emit (EvCardResult card) ;;
  ret card.

(** *** [generate_ai_greeting] *)

(** The dictionary that [generate_ai_greeting] returns. *)
Record Bundle := {
  greeting : option Py.str;
  cards : list (option Py.bytes);
  gender : Py.str
}.

(** [if i > 0: print(...); await asyncio.sleep(IMAGE_DELAY)] *)
Definition pause_before (i : nat) : M unit :=
  if (0 <? i)%nat
  then (print (LogPause IMAGE_DELAY (i + 1)) ;; sleep IMAGE_DELAY)
  else ret tt.

(** [for i in range(2)], over the indices that are left; [acc] is the
    list [cards] so far. *)
Fixpoint generate_ai_greeting_cards (name gender_ : Py.str) (indices : list nat)
    (acc : list (option Py.bytes)) : M (list (option Py.bytes)) :=
  match indices with
  | [] => ret acc
  | i :: rest =>
    pause_before i ;;
    card <- generate_birthday_card name gender_ ;;
    generate_ai_greeting_cards name gender_ rest (acc ++ [card])
  end.

Definition generate_ai_greeting (name : Py.str) : M Bundle :=
  gender_ <- detect_gender name ;;
  greeting_ <- generate_greeting name ;;
  cards_ <- generate_ai_greeting_cards name gender_ (seq 0 2) [] ;;
  ret {| greeting := greeting_; cards := cards_; gender := gender_ |}.

(** *** Storage and calendar *)

(** [load_birthdays(code)]: the list in the user's file at this moment. *)
Definition load_birthdays (code : Py.str) : M (list Birthday) :=
  fun s => (stored_birthdays env (tick s) code, s, []).

Definition get_birthdays_this_month (birthdays : list Birthday) : M (list Birthday) :=
  t <- now ;;
  let current_month := month_number (today_month (calendar env t)) in
  ret (filter (fun b => month b =? current_month) birthdays).

Definition get_birthdays_today (birthdays : list Birthday) : M (list Birthday) :=
  t <- now ;;
  let today := calendar env t in
  ret (filter (fun b => (day b =? today_day today)
                        && (month b =? month_number (today_month today)))
              birthdays).

(** *** Telegram *)

Variable app : App.

(** [app.bot.send_message(...)]: the call returns or raises. *)
Definition send_message (chat_id : Z) (text : Py.str) (markdown : bool) : M Outcome :=
  n <- current_tick ;;
  let ok := transport_ok app n in
  emit (EvSendMessage chat_id text markdown ok) ;;
  issue ;;
  elapse (latency env n) ;;
  ret (if ok then Returned else Raised).

(** [app.bot.send_photo(...)] *)
Definition send_photo (chat_id : Z) (photo : Py.bytes) (caption : Py.str) : M Outcome :=
  n <- current_tick ;;
  let ok := transport_ok app n in
  emit (EvSendPhoto chat_id photo caption ok) ;;
  issue ;;
  elapse (latency env n) ;;
  ret (if ok then Returned else Raised).

(** [try: ... except Exception as e: print(...)] around one call. *)
Definition logged (call : M Outcome) (msg : LogMsg) : M unit :=
  r <- call ;;
  match r with
  | Returned => ret tt
  | Raised => print msg
  end.

(** *** [daily_birthday_check] *)

(** Lines 633-645: the body of [for i in range(2)]. *)
Definition daily_birthday_check_card (chat_id : Z) (name gender_ : Py.str)
    (i : nat) : M unit :=
  pause_before i ;;
  card_data <- generate_birthday_card name gender_ ;;
  match card_data with
  | Some ((_ :: _) as data) =>
    logged (send_photo chat_id data (card_caption i name))
           (LogSendCardError chat_id)
  | _ => ret tt
  end.

(** Lines 615-653: the body of [for birthday in today_bdays]. *)
Definition daily_birthday_check_subject (chat_id : Z) (birthday : Birthday) : M unit :=
  let name := name birthday in
  gender_ <- detect_gender name ;;
  greeting_ <- generate_greeting name ;;
  match greeting_ with
  | Some ((_ :: _) as text) =>
    logged (send_message chat_id (greeting_text name text) true)
           (LogSendTextError chat_id) ;;
    for_each (seq 0 2) (daily_birthday_check_card chat_id name gender_)
  | _ =>
    logged (send_message chat_id (fallback_text name) false)
           (LogSendError chat_id)
  end.

(** Lines 610-653: the body of [for chat_id, code in sessions.items()]. *)
Definition daily_birthday_check_recipient (session : Z * Py.str) : M unit :=
  let '(chat_id, code) := session in
  birthdays <- load_birthdays code ;;
  today_bdays <- get_birthdays_today birthdays ;;
  for_each today_bdays (daily_birthday_check_subject chat_id).

Definition daily_birthday_check : M unit :=
  for_each (sessions env) daily_birthday_check_recipient.

(** *** [monthly_reminder] *)

(** [month_names[current_month]] *)
Definition month_names (m : Month) : Py.str :=
  match m with
  | January => Py.lit "Январь" | February => Py.lit "Февраль"
  | March => Py.lit "Март" | April => Py.lit "Апрель"
  | May => Py.lit "Май" | June => Py.lit "Июнь"
  | July => Py.lit "Июль" | August => Py.lit "Август"
  | September => Py.lit "Сентябрь" | October => Py.lit "Октябрь"
  | November => Py.lit "Ноябрь" | December => Py.lit "Декабрь"
  end.

(** [month_bdays.sort(key=lambda x: x["day"])]: a stable sort. *)
Fixpoint insert_by_day (b : Birthday) (sorted : list Birthday) : list Birthday :=
  match sorted with
  | [] => [b]
  | y :: rest => if day b <=? day y then b :: sorted else y :: insert_by_day b rest
  end.

Definition sort_by_day (l : list Birthday) : list Birthday :=
  fold_right insert_by_day [] l.

Definition monthly_reminder_text (current_month : Month)
    (month_bdays : list Birthday) : Py.str :=
  match month_bdays with
  | _ :: _ =>
    let lines :=
      (Py.lit "📅 " ++ month_names current_month ++ Py.lit " — дни рождения:"
       ++ Py.newline)
      :: map (fun b => Py.lit "  • " ++ Py.of_Z (day b) ++ Py.lit " — " ++ name b)
             (sort_by_day month_bdays) in
    Py.join Py.newline lines
  | [] =>
    Py.lit "📅 В " ++ Py.lower (methods env) (month_names current_month)
    ++ Py.lit "е нет дней рождения."
  end.

(** Lines 665-680: the body of [for chat_id, code in sessions.items()]. *)
Definition monthly_reminder_recipient (current_month : Month)
    (session : Z * Py.str) : M unit :=
  let '(chat_id, code) := session in
  birthdays <- load_birthdays code ;;
  month_bdays <- get_birthdays_this_month birthdays ;;
  logged (send_message chat_id (monthly_reminder_text current_month month_bdays) false)
         (LogSendError chat_id).

Definition monthly_reminder : M unit :=
  t <- now ;;
  let current_month := today_month (calendar env t) in
  for_each (sessions env) (monthly_reminder_recipient current_month).

(** *** Callers of [get_gigachat_token] that overlap

    The event loop runs a coroutine up to its next [await] and then picks
    another one: [asyncio.gather] of several calls of
    [get_gigachat_token], under a schedule that names the caller to run
    next. *)

Inductive Caller :=
| NotStarted
| Waiting (request : nat)
| Done (r : option Py.str).

Definition step_caller (c : Caller) : M Caller :=
  match c with
  | NotStarted =>
    p <- get_gigachat_token_begin ;;
    ret (match p with Finished r => Done r | Awaiting n => Waiting n end)
  | Waiting n => r <- get_gigachat_token_resume n ;; ret (Done r)
  | Done r => ret (Done r)
  end.

Fixpoint set_nth {A} (i : nat) (x : A) (l : list A) : list A :=
  match l, i with
  | [], _ => []
  | _ :: l', O => x :: l'
  | y :: l', S i' => y :: set_nth i' x l'
  end.

Fixpoint gather (callers : list Caller) (schedule : list nat) : M (list Caller) :=
  match schedule with
  | [] => ret callers
  | i :: rest =>
    match nth_error callers i with
    | Some c => c' <- step_caller c ;; gather (set_nth i c' callers) rest
    | None => gather callers rest
    end
  end.

(** Callers one after the other. *)
Fixpoint in_turn (n : nat) : M (list (option Py.str)) :=
  match n with
  | O => ret []
  | S n' => r <- get_gigachat_token ;; rs <- in_turn n' ;; ret (r :: rs)
  end.

End Program.

(* ================================================================== *)
(** ** Reading a trace *)

Definition is_oauth (e : Event) : bool :=
  match e with EvOAuth => true | _ => false end.

Definition is_completion (e : Event) : bool :=
  match e with EvCompletion _ _ _ => true | _ => false end.

Definition is_image_request (e : Event) : bool :=
  match e with EvCompletion GigaChatMax _ _ => true | _ => false end.

Definition is_download (e : Event) : bool :=
  match e with EvDownload _ _ => true | _ => false end.

Definition is_sleep (e : Event) : bool :=
  match e with EvSleep _ => true | _ => false end.

Definition is_send_message (e : Event) : bool :=
  match e with EvSendMessage _ _ _ _ => true | _ => false end.

Definition is_send_photo (e : Event) : bool :=
  match e with EvSendPhoto _ _ _ _ => true | _ => false end.

Definition is_token_result (e : Event) : bool :=
  match e with EvTokenResult _ => true | _ => false end.

Definition is_card_call (e : Event) : bool :=
  match e with EvCardCall _ _ => true | _ => false end.

Definition is_card_result (e : Event) : bool :=
  match e with EvCardResult _ => true | _ => false end.

(** The events of a trace that satisfy [p], in order. *)
Definition view (p : Event -> bool) (evs : list Stamped) : list Event :=
  filter p (map what evs).

Definition count (p : Event -> bool) (evs : list Stamped) : nat :=
  List.length (view p evs).

(** The cache holds a credential (a token and an expiry, both truthy)
    and the time [t] is more than 60 seconds before its expiry. *)
Definition credential_valid (c : TokenCache) (t : Q) : Prop :=
  exists tok e,
    token c = Some tok /\ tok <> [] /\
    expires c = Some e /\ ~ (e == 0)%Q /\ (t < e - 60)%Q.


(** The state and the event of a request that has left. *)
Definition issued (st : State) : State :=
  {| gigachat_token_cache := gigachat_token_cache st;
     clock := clock st; tick := S (tick st) |}.

Definition stamped (st : State) (e : Event) : Stamped :=
  {| at_time := clock st; at_tick := tick st; what := e |}.

(** The prints of the handlers around the Telegram calls. *)
Definition is_send_failure_print (e : Event) : bool :=
  match e with
  | EvPrint (LogSendTextError _) | EvPrint (LogSendCardError _)
  | EvPrint (LogSendError _) => true
  | _ => false
  end.

(** The other prints. *)
Definition is_print (e : Event) : bool :=
  match e with
  | EvPrint _ => negb (is_send_failure_print e)
  | _ => false
  end.


(** What [generate_birthday_card] can emit. *)
Definition card_event (e : Event) : bool :=
  is_oauth e || is_print e || is_token_result e || is_image_request e
  || is_download e || is_card_call e || is_card_result e.

Definition oauth_or_print (e : Event) : bool := is_oauth e || is_print e.

(** What [get_gigachat_token] can emit. *)
Definition token_event (e : Event) : bool :=
  is_oauth e || is_print e || is_token_result e.

(** What [gigachat_request] can emit. *)
Definition text_event (e : Event) : bool :=
  token_event e ||
  match e with EvCompletion GigaChat _ _ => true | _ => false end.

(** What [gigachat_generate_image] can emit. *)
Definition image_event (e : Event) : bool :=
  token_event e || is_image_request e || is_download e.

(** Every event of every run of [m] is of the class [q]. *)
Definition emits {A} (q : Event -> bool) (m : M A) : Prop :=
  forall st, Forall (fun s => q (what s) = true) (events (m st)).

(** The state when the answer to the request issued in [st] is there. *)
Definition answered (env : Env) (st : State) : State :=
  {| gigachat_token_cache := gigachat_token_cache st;
     clock := (clock st + latency env (tick st))%Q; tick := S (tick st) |}.

(** Every completion request of the trace carries the token that the call
    of [get_gigachat_token] just before it has returned: the event before
    the request is the return of that call, with this token.  [prev] is
    the event before the first one of [l]. *)
Fixpoint bearers_fetched (prev : option Event) (l : list Event) : bool :=
  match l with
  | [] => true
  | e :: l' =>
    match e with
    | EvCompletion _ bearer _ =>
      match prev with
      | Some (EvTokenResult (Some b)) => Py.eqb b bearer
      | _ => false
      end
    | _ => true
    end && bearers_fetched (Some e) l'
  end.

(** The content of an answer to a completion request: the answer has
    status 200 and a body with the content. *)
Definition completion_content (reply : CompletionReply) : option Py.str :=
  match reply with
  | CompletionResponse status (BodyContent content) =>
    if status =? 200 then Some content else None
  | _ => None
  end.

(** An answer to a completion request that makes the attempt fail: a
    timeout, another exception, a status that is not 200, a body without
    the content. *)
Definition completion_fails (reply : CompletionReply) : bool :=
  match completion_content reply with
  | Some _ => false
  | None => true
  end.

(** Every completion request of the trace was answered by a failure. *)
Definition all_fail (env : Env) (evs : list Stamped) : Prop :=
  forall s, In s evs -> is_completion (what s) = true ->
            completion_fails (completion_reply env (at_tick s)) = true.

(** What the loop over the attempts needs of one attempt: at most one
    completion request, one call of [get_gigachat_token], a trace that is
    [good], no [return] when the request fails, and [found] for what it
    returns. *)
Definition attempt_facts (env : Env) {R}
    (good : list Stamped -> Prop) (found : R -> list Stamped -> Prop)
    (r : Flow R * State * list Stamped) : Prop :=
  (count is_completion (events r) <= 1)%nat
  /\ count is_token_result (events r) = 1%nat
  /\ good (events r)
  /\ (all_fail env (events r) -> result r = Continue)
  /\ (forall c, result r = Return c -> found c (events r)).

(** The payload of an answer to a download: status 200 and bytes. *)
Definition download_payload (reply : DownloadReply) : option Py.bytes :=
  match reply with
  | DownloadResponse status (Some data) =>
    if status =? 200 then Some data else None
  | _ => None
  end.

Definition tokens_fetched (evs : list Stamped) : Prop :=
  bearers_fetched None (map what evs) = true.

(** [c] is the content of the answer to a completion request of the
    trace. *)
Definition answered_with (env : Env) (c : option Py.str)
    (evs : list Stamped) : Prop :=
  exists s content,
    c = Some content /\ In s evs /\ is_completion (what s) = true /\
    completion_content (completion_reply env (at_tick s)) = Some content.

(** The download [fid] with the token [bearer] follows a completion
    request of the trace, made with the same token, whose answer has a
    content with the marker and this file identifier. *)
Definition download_of (env : Env) (evs : list Stamped)
    (fid bearer : Py.str) : Prop :=
  exists s content messages,
    In s evs /\ what s = EvCompletion GigaChatMax bearer messages /\
    completion_content (completion_reply env (at_tick s)) = Some content /\
    Py.contains img_marker content = true /\
    fid = extract_file_id content.

(** Every download of the trace follows such a request. *)
Definition downloads_justified (env : Env) (evs : list Stamped) : Prop :=
  forall s fid bearer,
    In s evs -> what s = EvDownload fid bearer -> download_of env evs fid bearer.

(** [c] is the payload of a download of the trace, answered 200, that
    follows a completion request with the marker. *)
Definition downloaded (env : Env) (c : option Py.bytes)
    (evs : list Stamped) : Prop :=
  exists s fid bearer data,
    c = Some data /\ In s evs /\ what s = EvDownload fid bearer /\
    download_payload (download_reply env (at_tick s)) = Some data /\
    download_of env evs fid bearer.

(** What holds of the trace of an image request. *)
Definition image_good (env : Env) (evs : list Stamped) : Prop :=
  tokens_fetched evs /\ downloads_justified env evs.

(** [sub] occurs in [pre ++ sub ++ rest] after [pre], and not before. *)
Definition first_at (sub pre rest : Py.str) : Prop :=
  forall a b, pre ++ sub ++ rest = a ++ sub ++ b ->
              (List.length pre <= List.length a)%nat.

(** The state when a sleep that began in [st] is over. *)
Definition slept (seconds : Z) (st : State) : State :=
  {| gigachat_token_cache := gigachat_token_cache st;
     clock := (clock st + inject_Z seconds)%Q; tick := tick st |}.

(** What the delivery of the card number [i] leaves in the trace: nothing
    for a card that is [None] or empty, else the call of [send_photo],
    and the print of the handler when the call raises. *)
Definition delivery (chat_id : Z) (name : Py.str) (i : nat)
    (card : option Py.bytes) (ok : bool) : list Event :=
  match card with
  | Some ((_ :: _) as data) =>
    EvSendPhoto chat_id data (card_caption i name) ok
    :: (if ok then [] else [EvPrint (LogSendCardError chat_id)])
  | _ => []
  end.

(** What a call of [send_message] inside its [try] leaves in the trace. *)
Definition message_attempt (chat_id : Z) (text : Py.str) (markdown ok : bool)
    (msg : LogMsg) : list Event :=
  EvSendMessage chat_id text markdown ok :: (if ok then [] else [EvPrint msg]).








(** The chat of a call of [send_message]. *)
Definition chat_messaged (e : Event) : list Z :=
  match e with
  | EvSendMessage c _ _ _ => [c]
  | _ => []
  end.

(** The chats of the calls of [send_message] of a trace, in order. *)
Definition chats_messaged (evs : list Stamped) : list Z :=
  flat_map chat_messaged (map what evs).

(** The Telegram calls of a trace, in order: the chat and whether the
    call was delivered. *)
Definition deliveries (evs : list Stamped) : list (Z * bool) :=
  flat_map (fun s => match what s with
                     | EvSendMessage c _ _ ok | EvSendPhoto c _ _ ok => [(c, ok)]
                     | _ => []
                     end) evs.

(** A caller that has passed the cache test. *)
Definition started (c : Caller) : Prop :=
  match c with
  | NotStarted => False
  | _ => True
  end.

(** The moments of the image requests of a trace, in order. *)
Definition image_request_times (evs : list Stamped) : list Q :=
  map at_time (filter (fun s => is_image_request (what s)) evs).

(** Successive moments are at least [d] apart. *)
Fixpoint spaced (d : Q) (times : list Q) : bool :=
  match times with
  | t1 :: ((t2 :: _) as rest) => Qle_bool (t1 + d) t2 && spaced d rest
  | _ => true
  end.

(** The events of [evs] lie between the moments [lo] and [hi]. *)
Definition within (lo hi : Q) (evs : list Stamped) : Prop :=
  Forall (fun s => (lo <= at_time s)%Q /\ (at_time s <= hi)%Q) evs.

(** The clock does not go back during [m], and the events of [m] bear
    moments between its start and its end. *)
Definition timed {A} (m : M A) : Prop :=
  forall st,
    (clock st <= clock (final (m st)))%Q
    /\ within (clock st) (clock (final (m st))) (events (m st)).

(* ================================================================== *)
(** ** Scenarios *)

Module Scenario.

(** [str] methods for texts that are already stripped and in one case. *)
Definition as_is : Py.StrMethods :=
  {| Py.strip := fun s => s; Py.upper := fun s => s; Py.lower := fun s => s |}.

Definition tagged (file_id : Py.str) : Py.str :=
  Py.lit "Готово <img src=" ++ Py.quote ++ file_id ++ Py.quote
  ++ Py.lit " fuse=" ++ Py.quote ++ Py.lit "true" ++ Py.quote ++ Py.lit "/>".

(** A provider that answers every request at once: a token that expires
    at second 5000, a content with an image tag, one byte of image. *)
Definition provider : Env :=
  {| GIGACHAT_AUTH := Some (Py.lit "key");
     sessions := [];
     stored_birthdays := fun _ _ => [];
     calendar := fun _ => {| today_day := 3; today_month := November |};
     latency := fun _ => 0%Q;
     oauth_reply := fun _ =>
       OAuthResponse 200 (Some {| access_token := Some (Py.lit "T2");
                                  expires_at := Some 5000000 |});
     completion_reply := fun _ =>
       CompletionResponse 200 (BodyContent (tagged (Py.lit "file-1")));
     download_reply := fun _ => DownloadResponse 200 (Some [x89]);
     methods := as_is |}.

(** The same provider, answering every completion request with status
    [status] and a body without the content. *)
Definition refusing (status : Z) : Env :=
  {| GIGACHAT_AUTH := GIGACHAT_AUTH provider;
     sessions := sessions provider;
     stored_birthdays := stored_birthdays provider;
     calendar := calendar provider;
     latency := latency provider;
     oauth_reply := oauth_reply provider;
     completion_reply := fun _ => CompletionResponse status BodyMalformed;
     download_reply := download_reply provider;
     methods := methods provider |}.



(** The same provider, whose downloads succeed for the first card when
    [first] is set and for the second card when [second] is set, in a run
    of the pipeline from the initial state: the downloads of the first
    card are the interactions 4 and 6, those of the second card the
    interactions from 6 on, or from 8 on when the first card fails. *)
Definition serving (first second : bool) : Env :=
  let download (ok : bool) :=
    if ok then DownloadResponse 200 (Some [x89]) else DownloadResponse 404 None in
  {| GIGACHAT_AUTH := GIGACHAT_AUTH provider;
     sessions := sessions provider;
     stored_birthdays := stored_birthdays provider;
     calendar := calendar provider;
     latency := latency provider;
     oauth_reply := oauth_reply provider;
     completion_reply := completion_reply provider;
     download_reply := fun n =>
       if (n <=? 4)%nat then download first
       else if (n =? 6)%nat then download (if first then second else false)
       else download second;
     methods := methods provider |}.

Definition anna : Birthday :=
  {| day := 3; month := 11; name := Py.lit "Анна" |}.

(** A Telegram that delivers everything. *)
Definition reachable : App := {| transport_ok := fun _ => true |}.

(** A Telegram whose call number [n] raises. *)
Definition failing_at (n : nat) : App :=
  {| transport_ok := fun k => negb (k =? n)%nat |}.

(** Three recipients, each with Anna's birthday today. *)
Definition three_recipients : Env :=
  {| GIGACHAT_AUTH := GIGACHAT_AUTH provider;
     sessions := [(101, Py.lit "2"); (102, Py.lit "7"); (103, Py.lit "11")];
     stored_birthdays := fun _ _ => [anna];
     calendar := calendar provider;
     latency := latency provider;
     oauth_reply := oauth_reply provider;
     completion_reply := completion_reply provider;
     download_reply := download_reply provider;
     methods := methods provider |}.

Definition oleg : Birthday :=
  {| day := 3; month := 11; name := Py.lit "Олег" |}.

(** One recipient with two subjects due today. *)
Definition two_subjects : Env :=
  {| GIGACHAT_AUTH := GIGACHAT_AUTH provider;
     sessions := [(101, Py.lit "7")];
     stored_birthdays := fun _ _ => [anna; oleg];
     calendar := calendar provider;
     latency := latency provider;
     oauth_reply := oauth_reply provider;
     completion_reply := completion_reply provider;
     download_reply := download_reply provider;
     methods := methods provider |}.

(** At second 1000, with the token ["T1"] cached until [e]. *)
Definition cached_until (e : Q) : State :=
  {| gigachat_token_cache := {| token := Some (Py.lit "T1"); expires := Some e |};
     clock := 1000; tick := 0 |}.

End Scenario.


(* ================================================================== *)
(** ** More readings and scenarios *)


(** A call of Telegram. *)
Definition is_telegram (e : Event) : bool := is_send_message e || is_send_photo e.


(** Is [b] due at the date of the moment [t]? *)
Definition due_at (env : Env) (t : Q) (b : Birthday) : bool :=
  (day b =? today_day (calendar env t))
  && (month b =? month_number (today_month (calendar env t))).


Module Case.

(** The provider of [Scenario], with the OAuth endpoint answering
    [reply]. *)
Definition oauth_answers (reply : OAuthReply) : Env :=
  {| GIGACHAT_AUTH := GIGACHAT_AUTH Scenario.provider;
     sessions := sessions Scenario.provider;
     stored_birthdays := stored_birthdays Scenario.provider;
     calendar := calendar Scenario.provider;
     latency := latency Scenario.provider;
     oauth_reply := fun _ => reply;
     completion_reply := completion_reply Scenario.provider;
     download_reply := download_reply Scenario.provider;
     methods := methods Scenario.provider |}.

(** No authorization key in the environment. *)
Definition keyless : Env :=
  {| GIGACHAT_AUTH := None;
     sessions := sessions Scenario.provider;
     stored_birthdays := stored_birthdays Scenario.provider;
     calendar := calendar Scenario.provider;
     latency := latency Scenario.provider;
     oauth_reply := oauth_reply Scenario.provider;
     completion_reply := completion_reply Scenario.provider;
     download_reply := download_reply Scenario.provider;
     methods := methods Scenario.provider |}.

(** One recipient, whose only birthday is tomorrow. *)
Definition tomorrow : Env :=
  {| GIGACHAT_AUTH := GIGACHAT_AUTH Scenario.provider;
     sessions := [(101, Py.lit "7")];
     stored_birthdays := fun _ _ =>
       [{| day := 4; month := 11; name := Py.lit "Анна" |}];
     calendar := calendar Scenario.provider;
     latency := latency Scenario.provider;
     oauth_reply := oauth_reply Scenario.provider;
     completion_reply := completion_reply Scenario.provider;
     download_reply := download_reply Scenario.provider;
     methods := methods Scenario.provider |}.

End Case.


(* ================================================================== *)
(** ** The command handlers and the files

    The handlers of the chat commands, as functions of the arguments of
    the update and of the state they read and write: the module-level
    dictionary [sessions] and the files.  A file holds the value that
    [json.load] gives back.  What a handler tells the user is the list of
    its calls of [reply_text], in order; a handler writes before it
    replies, so what it writes does not depend on the fate of the
    reply. *)

Module Commands.

(** [USERS]: code -> name. *)
Definition USERS : list (Py.str * Py.str) :=
  [ (Py.lit "2", Py.lit "Надежда");
    (Py.lit "14", Py.lit "Нася");
    (Py.lit "7", Py.lit "Сережа");
    (Py.lit "11", Py.lit "Юра");
    (Py.lit "9", Py.lit "Марина Кирилловна");
    (Py.lit "18", Py.lit "Николай Николаевич");
    (Py.lit "28", Py.lit "Елена Викторовна");
    (Py.lit "25", Py.lit "Сергей Евгеньевич");
    (Py.lit "21", Py.lit "Александра") ].

(** [WAITING_CODE = 0] and [ConversationHandler.END = -1]. *)
Definition WAITING_CODE : Z := 0.
Definition END : Z := -1.

(** [d.get(key)] for a dictionary with [str] keys. *)
Fixpoint lookup {V} (key : Py.str) (d : list (Py.str * V)) : option V :=
  match d with
  | [] => None
  | (k, v) :: d' => if Py.eqb k key then Some v else lookup key d'
  end.

(** [d.get(key)] and [d[key] = value] for the dictionary [sessions], whose
    keys are the decimal writings of chat identifiers: a key keeps its
    place when its value is replaced, a new key goes to the end. *)
Fixpoint get (key : Z) (d : list (Z * Py.str)) : option Py.str :=
  match d with
  | [] => None
  | (k, v) :: d' => if k =? key then Some v else get key d'
  end.

Fixpoint set (key : Z) (value : Py.str) (d : list (Z * Py.str)) : list (Z * Py.str) :=
  match d with
  | [] => [(key, value)]
  | (k, v) :: d' =>
    if k =? key then (key, value) :: d' else (k, v) :: set key value d'
  end.

(** [l[i]] for an [int]: a negative index counts from the end; [None]
    stands for [IndexError]. *)
Definition index {X} (l : list X) (i : Z) : option X :=
  let len := Z.of_nat (List.length l) in
  if (0 <=? i) && (i <? len) then nth_error l (Z.to_nat i)
  else if (- len <=? i) && (i <? 0) then nth_error l (Z.to_nat (len + i))
  else None.

(** The files: [sessions.json] and the files of the directory [users],
    by path. *)
Record Disk := {
  sessions_json : option (list (Z * Py.str));
  files : Py.str -> option (list Birthday)
}.

(** The state of the bot: the dictionary [sessions] and the files. *)
Record Bot := {
  sessions : list (Z * Py.str);
  disk : Disk
}.

(** [os.path.join(USERS_DIR, f"user_{code}.json")] *)
Definition get_user_file (code : Py.str) : Py.str :=
  Py.lit "users/user_" ++ code ++ Py.lit ".json".

Definition load_birthdays (code : Py.str) (d : Disk) : list Birthday :=
  match files d (get_user_file code) with
  | Some birthdays => birthdays
  | None => []
  end.

Definition save_birthdays (code : Py.str) (birthdays : list Birthday) (d : Disk) : Disk :=
  {| sessions_json := sessions_json d;
     files := fun path =>
       if Py.eqb path (get_user_file code) then Some birthdays else files d path |}.

Definition load_sessions (d : Disk) : list (Z * Py.str) :=
  match sessions_json d with
  | Some s => s
  | None => []
  end.

Definition save_sessions (s : list (Z * Py.str)) (d : Disk) : Disk :=
  {| sessions_json := Some s; files := files d |}.

(** The state when the module has been imported:
    [sessions = load_sessions()]. *)
Definition started_on (d : Disk) : Bot :=
  {| sessions := load_sessions d; disk := d |}.

Definition get_code_by_chat_id (chat_id : Z) (bot : Bot) : option Py.str :=
  get chat_id (sessions bot).

(** [get_birthdays_this_month], with the date that its reading of the
    clock gives. *)
Definition get_birthdays_this_month (today : Today) (birthdays : list Birthday)
    : list Birthday :=
  filter (fun b => month b =? month_number (today_month today)) birthdays.

(** A call of [reply_text]. *)
Record Reply := {
  text : Py.str;
  markdown : bool;
  remove_keyboard : bool
}.

Definition plain (t : Py.str) : Reply :=
  {| text := t; markdown := false; remove_keyboard := false |}.

Definition not_authorized : Reply := plain (Py.lit "⚠️ Сначала авторизуйся: /start").

(** [s.split(sep)] for a separator of one character. *)
Fixpoint split (sep : N) (s : Py.str) : list Py.str :=
  match s with
  | [] => [[]]
  | c :: s' =>
    if (c =? sep)%N then [] :: split sep s'
    else match split sep s' with
         | part :: parts => (c :: part) :: parts
         | [] => [[c]]
         end
  end.

(** [f"{n:02d}"] *)
Definition format_02d (n : Z) : Py.str :=
  if (0 <=? n) && (n <? 10) then Py.lit "0" ++ Py.of_Z n else Py.of_Z n.

(** [f"{n:2d}"] *)
Definition format_2d (n : Z) : Py.str :=
  if (0 <=? n) && (n <? 10) then Py.lit " " ++ Py.of_Z n else Py.of_Z n.

(** [1 <= day <= 31 and 1 <= month <= 12] *)
Definition in_bounds (day month : Z) : bool :=
  (1 <=? day) && (day <=? 31) && (1 <=? month) && (month <=? 12).

(** The index of the first entry that satisfies [p]: the loop with
    [break] of [del_birthday]. *)
Fixpoint first_index {X} (p : X -> bool) (l : list X) : option nat :=
  match l with
  | [] => None
  | x :: l' =>
    if p x then Some O
    else match first_index p l' with
         | Some i => Some (S i)
         | None => None
         end
  end.

(** [l.pop(i)]: the element of index [i] and the list without it; [None]
    stands for [IndexError]. *)
Fixpoint pop {X} (i : nat) (l : list X) : option (X * list X) :=
  match l, i with
  | [], _ => None
  | x :: l', O => Some (x, l')
  | x :: l', S i' =>
    match pop i' l' with
    | Some (removed, rest) => Some (removed, x :: rest)
    | None => None
    end
  end.

(** [sorted(birthdays, key=lambda x: (x["month"], x["day"]))]: a stable
    sort, the keys compared as tuples. *)
Definition month_day_le (a b : Birthday) : bool :=
  (month a <? month b) || ((month a =? month b) && (day a <=? day b)).

Fixpoint insert_by_month_day (b : Birthday) (sorted : list Birthday) : list Birthday :=
  match sorted with
  | [] => [b]
  | y :: rest =>
    if month_day_le b y then b :: sorted else y :: insert_by_month_day b rest
  end.

Definition sorted_by_month_day (l : list Birthday) : list Birthday :=
  fold_right insert_by_month_day [] l.

(** The list [month_names] of [show_list]. *)
Definition month_names_list : list Py.str :=
  [ []; Py.lit "Январь"; Py.lit "Февраль"; Py.lit "Март"; Py.lit "Апрель";
    Py.lit "Май"; Py.lit "Июнь"; Py.lit "Июль"; Py.lit "Август";
    Py.lit "Сентябрь"; Py.lit "Октябрь"; Py.lit "Ноябрь"; Py.lit "Декабрь" ].

(** The list [month_names] of [show_month], read at a month of the
    calendar. *)
Definition month_names_in (m : Month) : Py.str :=
  match m with
  | January => Py.lit "январе" | February => Py.lit "феврале"
  | March => Py.lit "марте" | April => Py.lit "апреле"
  | May => Py.lit "мае" | June => Py.lit "июне"
  | July => Py.lit "июле" | August => Py.lit "августе"
  | September => Py.lit "сентябре" | October => Py.lit "октябре"
  | November => Py.lit "ноябре" | December => Py.lit "декабре"
  end.

(** The texts of the replies. *)
Definition start_text : Py.str :=
  Py.lit "🎂 Привет! Это бот напоминаний о днях рождения." ++ Py.newline ++ Py.newline
  ++ Py.lit "Введи свой секретный код для авторизации:".

Definition welcome_text (user_name : Py.str) (count : nat) : Py.str :=
  Py.lit "✅ Привет, " ++ user_name ++ Py.lit "!" ++ Py.newline ++ Py.newline
  ++ Py.lit "Ты авторизован. В списке " ++ Py.of_Z (Z.of_nat count)
  ++ Py.lit " дней рождения." ++ Py.newline ++ Py.newline
  ++ Py.lit "Команды:" ++ Py.newline
  ++ Py.lit "/month — ДР в этом месяце" ++ Py.newline
  ++ Py.lit "/list — весь список" ++ Py.newline
  ++ Py.lit "/add — добавить ДР" ++ Py.newline
  ++ Py.lit "/del — удалить ДР" ++ Py.newline
  ++ Py.lit "/help — помощь".

Definition wrong_code_text : Py.str := Py.lit "❌ Неверный код. Попробуй ещё раз:".

Definition add_usage_text : Py.str :=
  Py.lit "📝 Формат: /add Имя ДД.ММ" ++ Py.newline ++ Py.lit "Пример: /add Мама 15.03".

Definition bad_date_text : Py.str := Py.lit "❌ Неверный формат даты. Используй ДД.ММ".

Definition added_text (name : Py.str) (day month : Z) : Py.str :=
  Py.lit "✅ Добавлено: " ++ name ++ Py.lit " — "
  ++ format_02d day ++ Py.lit "." ++ format_02d month.

Definition del_usage_text : Py.str :=
  Py.lit "📝 Формат: /del Имя" ++ Py.newline ++ Py.lit "Пример: /del Мама".

Definition removed_text (removed : Birthday) : Py.str :=
  Py.lit "✅ Удалено: " ++ name removed ++ Py.lit " — "
  ++ format_02d (day removed) ++ Py.lit "." ++ format_02d (month removed).

Definition not_found_text (name : Py.str) : Py.str := Py.lit "❌ Не найдено: " ++ name.

Definition empty_list_text : Py.str := Py.lit "📭 Список пуст. Добавь ДР: /add Имя ДД.ММ".

Definition help_text : Py.str :=
  Py.lit "🎂 *Бот напоминаний о ДР*" ++ Py.newline ++ Py.newline
  ++ Py.lit "*Команды:*" ++ Py.newline
  ++ Py.lit "/start — авторизация" ++ Py.newline
  ++ Py.lit "/month — ДР в этом месяце" ++ Py.newline
  ++ Py.lit "/list — весь список" ++ Py.newline
  ++ Py.lit "/add Имя ДД.ММ — добавить" ++ Py.newline
  ++ Py.lit "/del Имя — удалить" ++ Py.newline
  ++ Py.lit "/help — справка" ++ Py.newline ++ Py.newline
  ++ Py.lit "*Автонапоминания:*" ++ Py.newline
  ++ Py.lit "• 1 числа — обзор месяца (8:00)" ++ Py.newline
  ++ Py.lit "• В день ДР — поздравление с AI (8:00)".

Definition admin_help_text : Py.str :=
  Py.newline ++ Py.newline ++ Py.lit "*Админ-команды:*" ++ Py.newline
  ++ Py.lit "/test — тест AI-поздравления".

(** [f"  • {b['day']} — {b['name']}"] *)
Definition month_line (b : Birthday) : Py.str :=
  Py.lit "  • " ++ Py.of_Z (day b) ++ Py.lit " — " ++ name b.

(** [f"  {b['day']:2d} — {b['name']}"] *)
Definition list_line (b : Birthday) : Py.str :=
  Py.lit "  " ++ format_2d (day b) ++ Py.lit " — " ++ name b.

(** [f"\n{month_names[current_month]}:"] *)
Definition list_header (month_name : Py.str) : Py.str :=
  Py.newline ++ month_name ++ Py.lit ":".

(** Lines 427-431: the loop of [show_list] from the value
    [current_month], giving the lines it appends; [None] when
    [month_names[current_month]] raises. *)
Fixpoint show_list_lines (current_month : Z) (sorted_bdays : list Birthday)
    : option (list Py.str) :=
  match sorted_bdays with
  | [] => Some []
  | b :: rest =>
    if month b =? current_month then
      match show_list_lines current_month rest with
      | Some lines => Some (list_line b :: lines)
      | None => None
      end
    else
      match index month_names_list (month b) with
      | Some month_name =>
        match show_list_lines (month b) rest with
        | Some lines => Some (list_header month_name :: list_line b :: lines)
        | None => None
        end
      | None => None
      end
  end.

(** The text that [show_list] sends for a list that is not empty. *)
Definition show_list_text (birthdays : list Birthday) : option Py.str :=
  match show_list_lines 0 (sorted_by_month_day birthdays) with
  | Some lines =>
    Some (Py.join Py.newline
            ((Py.lit "📋 Список дней рождения:" ++ Py.newline) :: lines))
  | None => None
  end.

(** The text that [show_month] sends: [current_month] is the month of
    line 393, [month_bdays] the result of [get_birthdays_this_month]. *)
Definition show_month_text (current_month : Month) (month_bdays : list Birthday)
    : Py.str :=
  match month_bdays with
  | _ :: _ =>
    Py.join Py.newline
      ((Py.lit "🎂 Дни рождения в " ++ month_names_in current_month ++ Py.lit ":"
        ++ Py.newline)
       :: map month_line (sort_by_day month_bdays))
  | [] =>
    Py.lit "📭 В " ++ month_names_in current_month ++ Py.lit " нет дней рождения."
  end.

Definition start (chat_id : Z) (bot : Bot) : Bot * list Reply * Z :=
  (bot, [plain start_text], WAITING_CODE).

Definition cancel (chat_id : Z) (bot : Bot) : Bot * list Reply * Z :=
  (bot,
   [{| text := Py.lit "Отменено."; markdown := false; remove_keyboard := true |}],
   END).

(** [show_month]: [now_] is the date read at line 393, [now'] the date
    read in [get_birthdays_this_month]. *)
Definition show_month (now_ now' : Today) (chat_id : Z) (bot : Bot)
    : Bot * list Reply :=
  match get_code_by_chat_id chat_id bot with
  | Some ((_ :: _) as code) =>
    let birthdays := load_birthdays code (disk bot) in
    let current_month := today_month now_ in
    let month_bdays := get_birthdays_this_month now' birthdays in
    (bot, [plain (show_month_text current_month month_bdays)])
  | _ => (bot, [not_authorized])
  end.

(** [show_list]: no reply when [month_names[current_month]] raises. *)
Definition show_list (chat_id : Z) (bot : Bot) : Bot * list Reply :=
  match get_code_by_chat_id chat_id bot with
  | Some ((_ :: _) as code) =>
    match load_birthdays code (disk bot) with
    | (_ :: _) as birthdays =>
      match show_list_text birthdays with
      | Some t => (bot, [plain t])
      | None => (bot, [])
      end
    | [] => (bot, [plain empty_list_text])
    end
  | _ => (bot, [not_authorized])
  end.

(** [help_command] *)
Definition help_command (chat_id : Z) (bot : Bot) : Bot * list Reply :=
  let admin :=
    match get_code_by_chat_id chat_id bot with
    | Some code => Py.eqb code (Py.lit "7")
    | None => false
    end in
  (bot,
   [{| text := if admin then help_text ++ admin_help_text else help_text;
       markdown := true; remove_keyboard := false |}]).

Section Handlers.

(** [str.strip], [str.lower] and [int], taken as they are; [int] gives
    [None] when it raises. *)
Variable py : Py.StrMethods.
Variable int_ : Py.str -> option Z.

(** [check_code]: the text of the message and the chat. *)
Definition check_code (message_text : Py.str) (chat_id : Z) (bot : Bot)
    : Bot * list Reply * Z :=
  let code := Py.strip py message_text in
  match lookup code USERS with
  | Some user_name =>
    let sessions' := set chat_id code (sessions bot) in
    let disk' := save_sessions sessions' (disk bot) in
    let birthdays := load_birthdays code disk' in
    ({| sessions := sessions'; disk := disk' |},
     [{| text := welcome_text user_name (List.length birthdays);
         markdown := false; remove_keyboard := true |}],
     END)
  | None => (bot, [plain wrong_code_text], WAITING_CODE)
  end.

(** Lines 457-463: [day, month = map(int, date_str.split('.'))] and the
    test of the bounds; [None] when the [try] block raises.  Unpacking
    raises unless there are two parts, and reading a third part raises
    whatever [int] makes of it. *)
Definition parse_date (date_str : Py.str) : option (Z * Z) :=
  match split 46 date_str with
  | [d; m] =>
    match int_ d, int_ m with
    | Some day, Some month =>
      if in_bounds day month then Some (day, month) else None
    | _, _ => None
    end
  | _ => None
  end.

(** [add_birthday]: [context.args] and the chat. *)
Definition add_birthday (args : list Py.str) (chat_id : Z) (bot : Bot)
    : Bot * list Reply :=
  match get_code_by_chat_id chat_id bot with
  | Some ((_ :: _) as code) =>
    if (List.length args <? 2)%nat then (bot, [plain add_usage_text])
    else
      let name := Py.join (Py.lit " ") (removelast args) in
      let date_str := last args [] in
      match parse_date date_str with
      | Some (day, month) =>
        let birthdays :=
          load_birthdays code (disk bot)
          ++ [{| day := day; month := month; name := name |}] in
        ({| sessions := sessions bot;
            disk := save_birthdays code birthdays (disk bot) |},
         [plain (added_text name day month)])
      | None => (bot, [plain bad_date_text])
      end
  | _ => (bot, [not_authorized])
  end.

(** [name in b["name"].lower()] *)
Definition matches (name' : Py.str) (b : Birthday) : bool :=
  Py.contains name' (Py.lower py (name b)).

(** [del_birthday]: [context.args] and the chat; no reply when
    [birthdays.pop(found)] raises. *)
Definition del_birthday (args : list Py.str) (chat_id : Z) (bot : Bot)
    : Bot * list Reply :=
  match get_code_by_chat_id chat_id bot with
  | Some ((_ :: _) as code) =>
    match args with
    | [] => (bot, [plain del_usage_text])
    | _ :: _ =>
      let name' := Py.lower py (Py.join (Py.lit " ") args) in
      let birthdays := load_birthdays code (disk bot) in
      match first_index (matches name') birthdays with
      | Some found =>
        match pop found birthdays with
        | Some (removed, birthdays') =>
          ({| sessions := sessions bot;
              disk := save_birthdays code birthdays' (disk bot) |},
           [plain (removed_text removed)])
        | None => (bot, [])
        end
      | None => (bot, [plain (not_found_text name')])
      end
    end
  | _ => (bot, [not_authorized])
  end.

(** A call of a handler with what it reads of the update. *)
Inductive Call :=
| Start
| CheckCode (message_text : Py.str)
| Cancel
| ShowMonth (now_ now' : Today)
| ShowList
| AddBirthday (args : list Py.str)
| DelBirthday (args : list Py.str)
| Help.

Definition handle (call : Call) (chat_id : Z) (bot : Bot) : Bot * list Reply :=
  match call with
  | Start => fst (start chat_id bot)
  | CheckCode message_text => fst (check_code message_text chat_id bot)
  | Cancel => fst (cancel chat_id bot)
  | ShowMonth now_ now' => show_month now_ now' chat_id bot
  | ShowList => show_list chat_id bot
  | AddBirthday args => add_birthday args chat_id bot
  | DelBirthday args => del_birthday args chat_id bot
  | Help => help_command chat_id bot
  end.

(** The handlers run one update after the other. *)
Fixpoint handle_all (updates : list (Call * Z)) (bot : Bot) : Bot :=
  match updates with
  | [] => bot
  | (call, chat_id) :: rest => handle_all rest (fst (handle call chat_id bot))
  end.

End Handlers.

(** Every code of a session is a code of [USERS]. *)
Definition known_codes (bot : Bot) : Prop :=
  forall chat_id code, In (chat_id, code) (sessions bot) -> lookup code USERS <> None.

(** Every entry of every file has its day in [1 .. 31] and its month in
    [1 .. 12]. *)
Definition dates_in_bounds (bot : Bot) : Prop :=
  forall path birthdays, files (disk bot) path = Some birthdays ->
    forall b, In b birthdays -> in_bounds (day b) (month b) = true.

(** What [load_sessions] reads is the dictionary [sessions]. *)
Definition saved (bot : Bot) : Prop :=
  load_sessions (disk bot) = sessions bot.

(** The [int] of the texts made of ASCII digits only. *)
Fixpoint digits (s : Py.str) (acc : Z) : option Z :=
  match s with
  | [] => Some acc
  | c :: s' =>
    if (48 <=? c)%N && (c <=? 57)%N
    then digits s' (10 * acc + Z.of_N (c - 48))
    else None
  end.

Definition int_of_digits (s : Py.str) : option Z :=
  match s with
  | [] => None
  | _ :: _ => digits s 0
  end.

(** The months of the calendar, as numbers. *)
Definition months : list Z := [1; 2; 3; 4; 5; 6; 7; 8; 9; 10; 11; 12].

(** The entries of the month [m], by day. *)
Definition of_month (birthdays : list Birthday) (m : Z) : list Birthday :=
  sort_by_day (filter (fun b => month b =? m) birthdays).

(** The lines that a reader of the list expects for the month [m]: when
    the month has entries, its name and then these entries by day. *)
Definition month_block (birthdays : list Birthday) (m : Z) : list Py.str :=
  match of_month birthdays m with
  | [] => []
  | entries =>
    list_header (nth (Z.to_nat m) month_names_list []) :: map list_line entries
  end.

(** The three together. *)
Definition well_formed (bot : Bot) : Prop :=
  saved bot /\ known_codes bot /\ dates_in_bounds bot.

(** No file at all. *)
Definition empty_disk : Disk :=
  {| sessions_json := None; files := fun _ => None |}.

End Commands.


(* ================================================================== *)
(** ** The scheduled loops after the handlers *)

(** The environment of a scheduled run that starts when the handlers
    have left the state [bot], no update being handled while it runs: the
    loops see the dictionary [sessions] and the files of [bot]; the
    provider, the clock and the calendar are those of [base]. *)
Definition scheduled_on (base : Env) (bot : Commands.Bot) : Env :=
  {| GIGACHAT_AUTH := GIGACHAT_AUTH base;
     sessions := Commands.sessions bot;
     stored_birthdays := fun _ code =>
       Commands.load_birthdays code (Commands.disk bot);
     calendar := calendar base;
     latency := latency base;
     oauth_reply := oauth_reply base;
     completion_reply := completion_reply base;
     download_reply := download_reply base;
     methods := methods base |}.

(** Is [b] due on the date [today]? *)
Definition due_on (today : Today) (b : Birthday) : bool :=
  (day b =? today_day today) && (month b =? month_number (today_month today)).


(* ================================================================== *)
(** ** [test_ai]

    The handler of [/test] replies to the chat of the update:
    [update.message.reply_text] is [send_message] to this chat and
    [reply_photo] is [send_photo] to it.  A reply that raises ends the
    [try] block it is in. *)

(** How a statement ends inside [test_ai]: it is done, or the call number
    [n] of Telegram has raised. *)
Inductive Try :=
| Ok
| Failed (n : nat).

Module TestAI.

(** The texts of the replies. *)
Definition admin_only_text : Py.str :=
  Py.lit "⚠️ Эта команда доступна только администратору.".

Definition empty_text : Py.str := Py.lit "📭 Список именинников пуст.".

Definition generating_text (name : Py.str) : Py.str :=
  Py.lit "🔄 Генерирую поздравление для: " ++ name ++ Py.newline
  ++ Py.lit "Подожди немного...".

Definition detecting_text : Py.str := Py.lit "1️⃣ Определяю пол...".

Definition gender_text (gender : Py.str) : Py.str :=
  Py.lit "Пол: "
  ++ (if Py.eqb gender (Py.lit "f") then Py.lit "👩 Женщина" else Py.lit "👨 Мужчина").

Definition greeting_step_text : Py.str := Py.lit "2️⃣ Генерирую поздравление...".

Definition greeting_text (name greeting : Py.str) : Py.str :=
  Py.lit "🎂 *Поздравление для " ++ name ++ Py.lit "*"
  ++ Py.newline ++ Py.newline ++ greeting.

Definition no_greeting_text (name : Py.str) : Py.str :=
  Py.lit "⚠️ Текст не сгенерирован." ++ Py.newline ++ Py.newline
  ++ Py.lit "🎉 " ++ name
  ++ Py.lit ", с днём рождения! Счастья, здоровья и всех благ! 🎂".

Definition cards_step_text : Py.str :=
  Py.lit "3️⃣ Генерирую открытки (это может занять время)...".

Definition pause_text : Py.str :=
  Py.lit "   ⏳ Пауза " ++ Py.of_Z IMAGE_DELAY
  ++ Py.lit " сек перед второй открыткой...".

Definition card_text (i : nat) : Py.str :=
  Py.lit "   🎨 Открытка " ++ Py.of_Z (Z.of_nat i + 1) ++ Py.lit "...".

Definition card_caption (i : nat) : Py.str :=
  Py.lit "Открытка " ++ Py.of_Z (Z.of_nat i + 1).

Definition no_card_text (i : nat) : Py.str :=
  Py.lit "   ❌ Открытка " ++ Py.of_Z (Z.of_nat i + 1) ++ Py.lit " не сгенерирована".

Definition card_error_text (i : nat) (e : Py.str) : Py.str :=
  Py.lit "   ❌ Ошибка открытки " ++ Py.of_Z (Z.of_nat i + 1) ++ Py.lit ": "
  ++ Py.slice e 0 100.

Definition no_cards_text : Py.str := Py.lit "⚠️ Открытки не удалось сгенерировать.".

Definition done_text : Py.str := Py.lit "✅ Тест завершён!".

Definition error_reply_text (e : Py.str) : Py.str :=
  Py.lit "❌ Ошибка: " ++ Py.slice e 0 200.

Section Handler.

Variable env : Env.
Variable app : App.

(** [str(e)] for the exception that the call number [n] of Telegram
    raises. *)
Variable error_text : nat -> Py.str.

Definition reply_text (chat_id : Z) (text : Py.str) (markdown : bool) : M Try :=
  n <- current_tick ;;
  r <- send_message env app chat_id text markdown ;;
  ret (match r with Returned => Ok | Raised => Failed n end).

Definition reply_photo (chat_id : Z) (photo : Py.bytes) (caption : Py.str) : M Try :=
  n <- current_tick ;;
  r <- send_photo env app chat_id photo caption ;;
  ret (match r with Returned => Ok | Raised => Failed n end).

(** Two statements in a row: the second runs when the first has not
    raised. *)
Definition and_then (m k : M Try) : M Try :=
  r <- m ;;
  match r with
  | Ok => k
  | Failed n => ret (Failed n)
  end.

(** Lines 557-567: the [try] block of one pass of [for i in range(2)],
    with the value of [cards_sent] after it. *)
Definition test_ai_card_try (chat_id : Z) (name gender_ : Py.str) (i : nat)
    (cards_sent : nat) : M (Try * nat) :=
  r <- reply_text chat_id (card_text i) false ;;
  match r with
  | Failed n => ret (Failed n, cards_sent)
  | Ok =>
    card_data <- generate_birthday_card env name gender_ ;;
    match card_data with
    | Some ((_ :: _) as data) =>
      r <- reply_photo chat_id data (card_caption i) ;;
      ret (r, match r with Ok => S cards_sent | Failed _ => cards_sent end)
    | _ =>
      r <- reply_text chat_id (no_card_text i) false ;;
      ret (r, cards_sent)
    end
  end.

(** Lines 554-569: one pass of [for i in range(2)]. *)
Definition test_ai_card (chat_id : Z) (name gender_ : Py.str) (i : nat)
    (cards_sent : nat) : M (Try * nat) :=
  p <- (if (0 <? i)%nat
        then and_then (reply_text chat_id pause_text false)
                      (sleep IMAGE_DELAY ;; ret Ok)
        else ret Ok) ;;
  match p with
  | Failed n => ret (Failed n, cards_sent)
  | Ok =>
    t <- test_ai_card_try chat_id name gender_ i cards_sent ;;
    match fst t with
    | Ok => ret t
    | Failed n =>
      r <- reply_text chat_id (card_error_text i (error_text n)) false ;;
      ret (r, snd t)
    end
  end.

(** [for i in range(2)], over the indices that are left. *)
Fixpoint test_ai_cards (chat_id : Z) (name gender_ : Py.str)
    (indices : list nat) (cards_sent : nat) : M (Try * nat) :=
  match indices with
  | [] => ret (Ok, cards_sent)
  | i :: rest =>
    t <- test_ai_card chat_id name gender_ i cards_sent ;;
    match fst t with
    | Ok => test_ai_cards chat_id name gender_ rest (snd t)
    | Failed n => ret t
    end
  end.

(** Lines 550-574: from the third step to the end of the [try] block. *)
Definition test_ai_cards_step (chat_id : Z) (name gender_ : Py.str) : M Try :=
  and_then (reply_text chat_id cards_step_text false)
    (t <- test_ai_cards chat_id name gender_ (seq 0 2) 0 ;;
     match fst t with
     | Failed n => ret (Failed n)
     | Ok =>
       and_then
         (if (snd t =? 0)%nat then reply_text chat_id no_cards_text false
          else ret Ok)
         (reply_text chat_id done_text false)
     end).

(** Lines 538-547: the reply with the greeting. *)
Definition test_ai_greeting_reply (chat_id : Z) (name : Py.str)
    (greeting_ : option Py.str) : M Try :=
  match greeting_ with
  | Some ((_ :: _) as text) => reply_text chat_id (greeting_text name text) true
  | _ => reply_text chat_id (no_greeting_text name) false
  end.

(** Lines 528-574: the [try] block. *)
Definition test_ai_try (chat_id : Z) (name : Py.str) : M Try :=
  and_then (reply_text chat_id detecting_text false)
    (gender_ <- detect_gender env name ;;
     and_then (reply_text chat_id (gender_text gender_) false)
       (and_then (reply_text chat_id greeting_step_text false)
          (greeting_ <- generate_greeting env name ;;
           and_then (test_ai_greeting_reply chat_id name greeting_)
             (test_ai_cards_step chat_id name gender_)))).

(** [test_ai]: [choice] is the index that [random.choice] draws. *)
Definition test_ai (choice : nat) (chat_id : Z) : M Try :=
  match Commands.get chat_id (sessions env) with
  | Some code =>
    if Py.eqb code (Py.lit "7") then
      birthdays <- load_birthdays env code ;;
      match birthdays with
      | [] => reply_text chat_id empty_text false
      | first :: _ =>
        let birthday := nth (choice mod List.length birthdays) birthdays first in
        let name := name birthday in
        and_then (reply_text chat_id (generating_text name) false)
          (r <- test_ai_try chat_id name ;;
           match r with
           | Ok => ret Ok
           | Failed n => reply_text chat_id (error_reply_text (error_text n)) false
           end)
      end
    else reply_text chat_id admin_only_text false
  | None => reply_text chat_id admin_only_text false
  end.

End Handler.

End TestAI.

(** A request to the provider. *)
Definition is_provider_request (e : Event) : bool :=
  is_oauth e || is_completion e || is_download e.

(** A reply with [parse_mode="Markdown"] that was not delivered. *)
Definition is_failed_markdown (e : Event) : bool :=
  match e with
  | EvSendMessage _ _ true false => true
  | _ => false
  end.


(** No reply with Markdown that was not delivered, and no entry of
    [generate_birthday_card]. *)
Definition no_failed_markdown (e : Event) : bool := negb (is_failed_markdown e).

Definition calm (e : Event) : bool :=
  negb (is_failed_markdown e) && negb (is_card_call e).

(** In a run of [m] in which a reply with Markdown is not delivered, no
    card is asked for. *)
Definition markdown_guards_cards {A} (m : M A) : Prop :=
  forall st, (0 < count is_failed_markdown (events (m st)))%nat ->
             count is_card_call (events (m st)) = 0%nat.

(** An entry of [generate_birthday_card] or a sleep. *)
Definition card_or_sleep (e : Event) : bool := is_card_call e || is_sleep e.




(* ================================================================== *)
(** ** Running a computation *)

Section Runs.

Context {A B : Type}.

Lemma result_bind (m : M A) (k : A -> M B) s :
  result (bind m k s) = result (k (result (m s)) (final (m s))).
Proof.
  unfold bind, result, final. destruct (m s) as [[a s1] e1]. simpl.
  destruct (k a s1) as [[b s2] e2]. reflexivity.
Qed.

Lemma final_bind (m : M A) (k : A -> M B) s :
  final (bind m k s) = final (k (result (m s)) (final (m s))).
Proof.
  unfold bind, result, final. destruct (m s) as [[a s1] e1]. simpl.
  destruct (k a s1) as [[b s2] e2]. reflexivity.
Qed.

Lemma events_bind (m : M A) (k : A -> M B) s :
  events (bind m k s) =
  events (m s) ++ events (k (result (m s)) (final (m s))).
Proof.
  unfold bind, result, final, events. destruct (m s) as [[a s1] e1]. simpl.
  destruct (k a s1) as [[b s2] e2]. reflexivity.
Qed.

End Runs.

Lemma run_ret {A} (a : A) s : ret a s = (a, s, []).
Proof. reflexivity. Qed.

Lemma run_emit e s : emit e s = (tt, s, [stamped s e]).
Proof. reflexivity. Qed.

Lemma run_print msg s : print msg s = (tt, s, [stamped s (EvPrint msg)]).
Proof. reflexivity. Qed.

Lemma run_sleep d s : sleep d s = (tt, slept d s, [stamped s (EvSleep d)]).
Proof. reflexivity. Qed.

Ltac run :=
  repeat (rewrite result_bind || rewrite final_bind || rewrite events_bind
          || rewrite run_ret || rewrite run_emit || rewrite run_print
          || rewrite run_sleep);
  simpl.

(* ================================================================== *)
(** ** [detect_gender] *)

(** C2. For every name, [detect_gender] returns ["m"] or ["f"]: ["m"] when
    the answer of the text request, stripped and uppercased, contains the
    letter М; ["f"] when it does not (whether it contains Ж or not); and
    ["f"] when the request gave nothing ([None] or the empty string). *)
Theorem detect_gender_m_or_f (env : Env) (name : Py.str) (st : State) :
  let response :=
    result (gigachat_request env [(Py.lit "user", detect_gender_prompt name)] 2 st) in
  let up text := Py.upper (methods env) (Py.strip (methods env) text) in
  result (detect_gender env name st) =
    match response with
    | Some ((_ :: _) as text) =>
      if Py.contains (Py.lit "М") (up text) then Py.lit "m"
      else if Py.contains (Py.lit "Ж") (up text) then Py.lit "f"
      else Py.lit "f"
    | _ => Py.lit "f"
    end
  /\ (result (detect_gender env name st) = Py.lit "m"
      \/ result (detect_gender env name st) = Py.lit "f").
Proof.
  intros response up. unfold detect_gender. rewrite result_bind.
  fold response.
  destruct response as [[|c text]|]; simpl.
  - repeat split; auto.
  - unfold up.
    destruct (Py.contains (Py.lit "М") _);
      [|destruct (Py.contains (Py.lit "Ж") _)];
      repeat split; auto.
  - repeat split; auto.
Qed.

(* ================================================================== *)
(** ** [get_gigachat_token] *)

Lemma Qltb_lt (x y : Q) : Qltb x y = true <-> (x < y)%Q.
Proof.
  unfold Qltb. rewrite negb_true_iff. split; intro H.
  - apply Qnot_le_lt. intro L. apply Qle_bool_iff in L. congruence.
  - destruct (Qle_bool y x) eqn:E; [|reflexivity].
    apply Qle_bool_iff in E. exfalso. exact (Qlt_not_le _ _ H E).
Qed.

Lemma truthy_num_Some (e : Q) : Py.truthy_num (Some e) = true <-> ~ (e == 0)%Q.
Proof.
  simpl. rewrite negb_true_iff. split; intro H.
  - intro E. apply Qeq_bool_iff in E. congruence.
  - destruct (Qeq_bool e 0) eqn:E; [|reflexivity].
    apply Qeq_bool_iff in E. contradiction.
Qed.

Lemma truthy_Some (tok : Py.str) : Py.truthy (Some tok) = true <-> tok <> [].
Proof. destruct tok; simpl; split; congruence. Qed.

Lemma begin_valid env st :
  credential_valid (gigachat_token_cache st) (clock st) ->
  get_gigachat_token_begin env st =
  (Finished (token (gigachat_token_cache st)), st, []).
Proof.
  intros (tok & e & Ht & Hn & He & Hz & Hlt).
  unfold get_gigachat_token_begin, bind, get_cache, now. simpl.
  rewrite Ht, He.
  apply truthy_Some in Hn. apply truthy_num_Some in Hz. apply Qltb_lt in Hlt.
  rewrite Hn, Hz, Hlt. reflexivity.
Qed.

Lemma begin_stale env st :
  ~ credential_valid (gigachat_token_cache st) (clock st) ->
  get_gigachat_token_begin env st =
  if negb (Py.truthy (GIGACHAT_AUTH env)) then (Finished None, st, [])
  else (Awaiting (tick st), issued st, [stamped st EvOAuth]).
Proof.
  intro Hnv.
  unfold get_gigachat_token_begin, bind, get_cache, now. simpl.
  assert (R : forall x : Pending (option Py.str) * State * list Stamped,
             (let '(b, s2, e2) := x in (b, s2, e2)) = x)
    by (intros [[? ?] ?]; reflexivity).
  destruct (Py.truthy (token (gigachat_token_cache st))
            && Py.truthy_num (expires (gigachat_token_cache st))) eqn:T.
  - apply andb_true_iff in T. destruct T as [T1 T2].
    destruct (expires (gigachat_token_cache st)) as [e|] eqn:He; [|discriminate].
    destruct (Qltb (clock st) (e - 60)) eqn:L.
    + exfalso. apply Hnv.
      destruct (token (gigachat_token_cache st)) as [tok|] eqn:Ht; [|discriminate].
      exists tok, e. repeat split; auto.
      * now apply truthy_Some.
      * now apply truthy_num_Some.
      * now apply Qltb_lt.
    + destruct (negb (Py.truthy (GIGACHAT_AUTH env))); reflexivity.
  - destruct (negb (Py.truthy (GIGACHAT_AUTH env))); reflexivity.
Qed.

Lemma resume_no_oauth env n st :
  count is_oauth (events (get_gigachat_token_resume env n st)) = 0%nat.
Proof.
  unfold get_gigachat_token_resume. run.
  destruct (oauth_reply env n) as [|status [data|]]; run; try reflexivity;
    destruct (status =? 200); run; try reflexivity.
  destruct (access_token data); run; try reflexivity.
  destruct (expires_at data); run; reflexivity.
Qed.

Lemma token_valid env st :
  credential_valid (gigachat_token_cache st) (clock st) ->
  get_gigachat_token env st =
  (token (gigachat_token_cache st), st,
   [stamped st (EvTokenResult (token (gigachat_token_cache st)))]).
Proof.
  intro V. unfold get_gigachat_token, bind at 1.
  rewrite (begin_valid env st V). reflexivity.
Qed.

Lemma token_stale_no_key env st :
  ~ credential_valid (gigachat_token_cache st) (clock st) ->
  Py.truthy (GIGACHAT_AUTH env) = false ->
  get_gigachat_token env st = (None, st, [stamped st (EvTokenResult None)]).
Proof.
  intros V K. unfold get_gigachat_token, bind at 1.
  rewrite (begin_stale env st V), K. reflexivity.
Qed.

Lemma token_stale_key env st :
  ~ credential_valid (gigachat_token_cache st) (clock st) ->
  Py.truthy (GIGACHAT_AUTH env) = true ->
  let r := get_gigachat_token_resume env (tick st) (issued st) in
  get_gigachat_token env st =
  (result r, final r,
   stamped st EvOAuth :: events r ++ [stamped (final r) (EvTokenResult (result r))]).
Proof.
  intros V K r. subst r. unfold get_gigachat_token, bind.
  rewrite (begin_stale env st V), K. simpl.
  destruct (get_gigachat_token_resume env (tick st) (issued st)) as [[a s1] e1].
  reflexivity.
Qed.

Lemma count_app p (a b : list Stamped) :
  count p (a ++ b) = (count p a + count p b)%nat.
Proof. unfold count, view. now rewrite map_app, filter_app, length_app. Qed.

Lemma count_cons p x (l : list Stamped) :
  count p (x :: l) = ((if p (what x) then 1 else 0) + count p l)%nat.
Proof. unfold count, view. simpl. destruct (p (what x)); reflexivity. Qed.

Lemma count_nil p : count p [] = 0%nat.
Proof. reflexivity. Qed.


Lemma credential_valid_dec c t : credential_valid c t \/ ~ credential_valid c t.
Proof.
  unfold credential_valid.
  destruct (token c) as [[|x tok]|].
  - right. intros (? & ? & H & N & _). inversion H; subst. now apply N.
  - destruct (expires c) as [e|].
    + destruct (Qeq_dec e 0) as [Z|Z].
      * right. intros (? & e' & _ & _ & H & N & _). inversion H; subst. now apply N.
      * destruct (Qlt_le_dec t (e - 60)) as [L|L].
        -- left. exists (x :: tok), e. repeat split; auto. discriminate.
        -- right. intros (? & e' & _ & _ & H & _ & L'). inversion H; subst.
           exact (Qlt_not_le _ _ L' L).
    + right. intros (? & ? & _ & _ & H & _). discriminate.
  - right. intros (? & ? & H & _). discriminate.
Qed.



(* ================================================================== *)
(** ** The events a function can emit *)

Section Emits.

Context {A B : Type}.
Variable q : Event -> bool.

Lemma emits_ret (a : A) : emits q (ret a).
Proof. intro st. constructor. Qed.

Lemma emits_bind (m : M A) (k : A -> M B) :
  emits q m -> (forall a, emits q (k a)) -> emits q (bind m k).
Proof.
  intros Hm Hk st. rewrite events_bind. apply Forall_app. split.
  - apply Hm.
  - apply Hk.
Qed.

Lemma emits_quiet (m : M A) :
  (forall st, events (m st) = []) -> emits q m.
Proof. intros H st. rewrite H. constructor. Qed.

End Emits.

Lemma emits_emit q e : q e = true -> emits q (emit e).
Proof. intros H st. simpl. repeat constructor. exact H. Qed.

Lemma emits_weaken {A} (q q' : Event -> bool) (m : M A) :
  (forall e, q e = true -> q' e = true) -> emits q m -> emits q' m.
Proof.
  intros W H st. eapply Forall_impl; [|apply H]. simpl. intros s. apply W.
Qed.

Lemma emits_for_each {A} q (items : list A) (body : A -> M unit) :
  (forall x, emits q (body x)) -> emits q (for_each items body).
Proof.
  intro H. induction items as [|x items IH]; simpl.
  - apply emits_ret.
  - apply emits_bind; auto.
Qed.

Lemma emits_for_range {R} q indices (body : nat -> M (Flow R)) (rest : M R) :
  (forall i, emits q (body i)) -> emits q rest ->
  emits q (for_range indices body rest).
Proof.
  intros Hb Hr. induction indices as [|i indices IH]; simpl.
  - exact Hr.
  - apply emits_bind; [apply Hb|]. intros [|r]; [exact IH|apply emits_ret].
Qed.


Ltac emits_step :=
  match goal with
  | |- emits _ (bind _ _) => apply emits_bind; [|intros]
  | |- emits _ (ret _) => apply emits_ret
  | |- emits _ (emit _) => apply emits_emit; reflexivity
  | |- emits _ (print _) => apply emits_emit; reflexivity
  | |- emits _ (for_each _ _) => apply emits_for_each; intros
  | |- emits _ (for_range _ _ _) => apply emits_for_range; intros
  | |- emits _ (match ?x with _ => _ end) => destruct x
  | |- emits _ _ => apply emits_quiet; intros; reflexivity
  end.

Ltac emits_auto := repeat emits_step.

Lemma emits_get_gigachat_token env : emits token_event (get_gigachat_token env).
Proof.
  unfold get_gigachat_token, get_gigachat_token_begin, get_gigachat_token_resume.
  emits_auto.
Qed.

Ltac incl :=
  let e := fresh "e" in
  intros e; destruct e;
  repeat match goal with
         | m : Model |- _ => destruct m
         | m : LogMsg |- _ => destruct m
         end;
  simpl; intros; try reflexivity; try discriminate; try assumption.

(* ================================================================== *)
(** ** The retried requests *)

Lemma post_completion_run env model bearer msgs st :
  post_completion env model bearer msgs st =
  (completion_reply env (tick st), answered env st,
   [stamped st (EvCompletion model bearer msgs)]).
Proof. reflexivity. Qed.

Lemma get_file_run env file_id bearer st :
  get_file env file_id bearer st =
  (download_reply env (tick st), answered env st,
   [stamped st (EvDownload file_id bearer)]).
Proof. reflexivity. Qed.

(** A call of [get_gigachat_token] ends with its return marker; before
    it there is at most the OAuth request and prints. *)
Lemma token_trace env st :
  let r := get_gigachat_token env st in
  exists pre,
    events r = pre ++ [stamped (final r) (EvTokenResult (result r))]
    /\ Forall (fun s => oauth_or_print (what s) = true) pre.
Proof.
  intro r. subst r.
  destruct (credential_valid_dec (gigachat_token_cache st) (clock st)) as [V|V].
  - rewrite (token_valid env st V). exists []. split; [reflexivity|constructor].
  - destruct (Py.truthy (GIGACHAT_AUTH env)) eqn:K.
    + rewrite (token_stale_key env st V K).
      exists (stamped st EvOAuth
              :: events (get_gigachat_token_resume env (tick st) (issued st))).
      split; [reflexivity|]. constructor; [reflexivity|].
      assert (E : emits oauth_or_print
                    (get_gigachat_token_resume env (tick st))).
      { unfold get_gigachat_token_resume. emits_auto. }
      apply E.
    + rewrite (token_stale_no_key env st V K). exists [].
      split; [reflexivity|constructor].
Qed.

Lemma request_attempt_run env msgs a st :
  let t := get_gigachat_token env st in
  let r := gigachat_request_attempt env msgs a st in
  match result t with
  | Some (c0 :: b0) =>
    exists prints,
      events r = events t
                 ++ stamped (final t) (EvCompletion GigaChat (c0 :: b0) msgs) :: prints
      /\ Forall (fun s => is_print (what s) = true) prints
      /\ final r = answered env (final t)
      /\ result r = match completion_content (completion_reply env (tick (final t))) with
                    | Some c => Return (Some c)
                    | None => Continue
                    end
  | _ => events r = events t /\ final r = final t /\ result r = Continue
  end.
Proof.
  intros t r. subst t r. unfold gigachat_request_attempt.
  destruct (result (get_gigachat_token env st)) as [[|c0 b0]|] eqn:R;
    run; rewrite R; simpl; rewrite ?app_nil_r; auto.
  run. rewrite ?post_completion_run. unfold result, final, events. simpl.
  destruct (completion_reply env (tick (snd (fst (get_gigachat_token env st)))))
    as [| |status [| |c]]; simpl;
    try destruct (status =? 200); simpl;
    eexists; (split; [reflexivity|]); repeat split; repeat constructor.
Qed.

Lemma eqb_refl (s : Py.str) : Py.eqb s s = true.
Proof. induction s as [|x s IH]; simpl; [reflexivity|]. now rewrite N.eqb_refl. Qed.

Lemma bearers_fetched_any p l :
  bearers_fetched None l = true -> bearers_fetched p l = true.
Proof.
  destruct l as [|e l]; simpl; [reflexivity|].
  destruct e; simpl; auto. discriminate.
Qed.

Lemma bearers_fetched_app p a b :
  bearers_fetched p a = true -> bearers_fetched None b = true ->
  bearers_fetched p (a ++ b) = true.
Proof.
  revert p. induction a as [|e a IH]; simpl; intros p Ha Hb.
  - now apply bearers_fetched_any.
  - apply andb_true_iff in Ha. destruct Ha as [H1 H2].
    rewrite H1. simpl. now apply IH.
Qed.

Lemma bearers_fetched_quiet p (l : list Stamped) :
  Forall (fun s => is_completion (what s) = false) l ->
  bearers_fetched p (map what l) = true.
Proof.
  revert p. induction l as [|s l IH]; simpl; intros p H; [reflexivity|].
  inversion H; subst. rewrite IH by assumption.
  destruct (what s); try reflexivity. discriminate.
Qed.

Lemma count_class p q (l : list Stamped) :
  Forall (fun s => q (what s) = true) l ->
  (forall e, q e = true -> p e = false) ->
  count p l = 0%nat.
Proof.
  intros H D. induction l as [|s l IH]; [reflexivity|].
  inversion H; subst. rewrite count_cons, (D _ H2). auto.
Qed.

Lemma Forall_class (q q' : Event -> bool) (l : list Stamped) :
  Forall (fun s => q (what s) = true) l ->
  (forall e, q e = true -> q' e = false) ->
  Forall (fun s => q' (what s) = false) l.
Proof. intros H D. eapply Forall_impl; [|exact H]. simpl. intros s. apply D. Qed.

Lemma request_attempt_facts env msgs a st :
  attempt_facts env tokens_fetched (answered_with env)
    (gigachat_request_attempt env msgs a st).
Proof.
  unfold attempt_facts, tokens_fetched, answered_with.
  pose proof (request_attempt_run env msgs a st) as A. simpl in A.
  destruct (token_trace env st) as (pre & Et & Hpre).
  assert (Cpre : count is_completion pre = 0%nat)
    by (apply (count_class _ oauth_or_print _ Hpre); incl).
  assert (Tpre : count is_token_result pre = 0%nat)
    by (apply (count_class _ oauth_or_print _ Hpre); incl).
  assert (Bpre : bearers_fetched None (map what pre) = true)
    by (apply bearers_fetched_quiet, (Forall_class oauth_or_print _ _ Hpre); incl).
  destruct (result (get_gigachat_token env st)) as [[|c0 b0]|] eqn:R.
  1, 3: destruct A as (Ev & _ & Res); rewrite Ev, Res, Et;
    rewrite !count_app, Cpre, Tpre, map_app;
    repeat split; auto; try discriminate;
    apply bearers_fetched_app; auto.
  destruct A as (prints & Ev & Hp & Fin & Res). rewrite Ev, Res, Et.
  assert (Cp : count is_completion prints = 0%nat)
    by (apply (count_class _ is_print _ Hp); incl).
  assert (Tp : count is_token_result prints = 0%nat)
    by (apply (count_class _ is_print _ Hp); incl).
  rewrite <- !app_assoc. simpl.
  rewrite !count_app, !count_cons, Cpre, Tpre, Cp, Tp. simpl.
  repeat split; auto.
  - rewrite map_app. apply bearers_fetched_app; auto. simpl.
    rewrite N.eqb_refl, eqb_refl. simpl.
    apply bearers_fetched_quiet, (Forall_class is_print _ _ Hp); incl.
  - intro F.
    specialize (F (stamped (final (get_gigachat_token env st))
                     (EvCompletion GigaChat (c0 :: b0) msgs))).
    unfold completion_fails in F. simpl in F.
    destruct (completion_content _); auto.
    assert (false = true); [|discriminate].
    apply F; auto. apply in_or_app. right. right. left. reflexivity.
  - intros c Hc.
    destruct (completion_content _) as [content|] eqn:CC; [|discriminate].
    inversion Hc; subst.
    exists (stamped (final (get_gigachat_token env st))
              (EvCompletion GigaChat (c0 :: b0) msgs)), content.
    repeat split; auto. apply in_or_app. right. right. left. reflexivity.
Qed.

Section Retry.

Variable env : Env.
Variable R : Type.
Variable body : nat -> M (Flow (option R)).
Variable good : list Stamped -> Prop.
Variable found : option R -> list Stamped -> Prop.

Hypothesis good_nil : good [].
Hypothesis good_app : forall a b, good a -> good b -> good (a ++ b).
Hypothesis found_app : forall c a b, found c a \/ found c b -> found c (a ++ b).
Hypothesis body_facts : forall i st, attempt_facts env good found (body i st).

Lemma all_fail_app a b : all_fail env (a ++ b) -> all_fail env a /\ all_fail env b.
Proof.
  intro H. split; intros s I; apply H; apply in_or_app; auto.
Qed.

Lemma for_range_facts indices st :
  let r := for_range indices body (ret None) st in
  (count is_completion (events r) <= List.length indices)%nat
  /\ (count is_token_result (events r) <= List.length indices)%nat
  /\ good (events r)
  /\ (all_fail env (events r) ->
      result r = None /\ count is_token_result (events r) = List.length indices)
  /\ (result r = None \/ found (result r) (events r)).
Proof.
  revert st. induction indices as [|i indices IH]; intro st; simpl.
  - split; [|split; [|split; [|split]]]; auto.
  - destruct (body_facts i st) as (C & T & G & F & S).
    run. destruct (result (body i st)) as [|c] eqn:Res.
    + destruct (IH (final (body i st))) as (C' & T' & G' & F' & S').
      simpl in *. rewrite !count_app.
      split; [|split; [|split; [|split]]]; auto; try lia.
      * intro AF. apply all_fail_app in AF. destruct AF as [_ AF].
        destruct (F' AF) as [N E]. split; [exact N|lia].
      * destruct S' as [S'|S']; [now left|right]. apply found_app. now right.
    + simpl. rewrite app_nil_r.
      split; [|split; [|split; [|split]]]; auto; try lia.
      intro AF. specialize (F AF). discriminate.
Qed.

End Retry.

Lemma image_attempt_run env prompt a st :
  let t := get_gigachat_token env st in
  let r := gigachat_generate_image_attempt env prompt a st in
  match result t with
  | Some (c0 :: b0) =>
    let req := stamped (final t)
                 (EvCompletion GigaChatMax (c0 :: b0) [(Py.lit "user", prompt)]) in
    match completion_content (completion_reply env (tick (final t))) with
    | Some content =>
      if Py.contains img_marker content then
        exists p1 p2,
          events r = events t ++ req :: p1
                     ++ stamped (answered env (final t))
                          (EvDownload (extract_file_id content) (c0 :: b0)) :: p2
          /\ Forall (fun s => is_print (what s) = true) p1
          /\ Forall (fun s => is_print (what s) = true) p2
          /\ result r =
             match download_payload (download_reply env (S (tick (final t)))) with
             | Some data => Return (Some data)
             | None => Continue
             end
      else
        exists p, events r = events t ++ req :: p
                  /\ Forall (fun s => is_print (what s) = true) p
                  /\ result r = Continue
    | None =>
      exists p, events r = events t ++ req :: p
                /\ Forall (fun s => is_print (what s) = true) p
                /\ result r = Continue
    end
  | _ => events r = events t /\ final r = final t /\ result r = Continue
  end.
Proof.
  intros t r. subst t r. unfold gigachat_generate_image_attempt.
  destruct (result (get_gigachat_token env st)) as [[|c0 b0]|] eqn:R;
    run; rewrite R; simpl; rewrite ?app_nil_r; auto.
  run. rewrite ?post_completion_run. simpl.
  destruct (completion_reply env (tick (final (get_gigachat_token env st))))
    as [| |status [| |c]]; simpl;
    try (destruct (status =? 200); simpl);
    try (eexists; (split; [reflexivity|]); split; [repeat constructor|reflexivity]).
  destruct (Py.contains img_marker c); run;
    [|eexists; (split; [reflexivity|]); split; [repeat constructor|reflexivity]].
  rewrite ?get_file_run. simpl.
  exists [stamped (answered env (final (get_gigachat_token env st)))
            (EvPrint (LogImageResponse (Py.slice c 0 200)));
          stamped (answered env (final (get_gigachat_token env st)))
            (EvPrint (LogDownloading (extract_file_id c)))].
  destruct (download_reply env (S (tick (final (get_gigachat_token env st)))))
    as [| |img_status [data|]]; simpl;
    try (destruct (img_status =? 200); simpl);
    eexists; (split; [reflexivity|]); repeat split; repeat constructor.
Qed.

Lemma tokens_fetched_app a b :
  tokens_fetched a -> tokens_fetched b -> tokens_fetched (a ++ b).
Proof. unfold tokens_fetched. rewrite map_app. apply bearers_fetched_app. Qed.

Lemma download_of_mono env a b fid bearer :
  (forall s, In s a -> In s b) ->
  download_of env a fid bearer -> download_of env b fid bearer.
Proof.
  intros I (s & content & msgs & H & rest). exists s, content, msgs. auto.
Qed.

Lemma downloads_justified_app env a b :
  downloads_justified env a -> downloads_justified env b ->
  downloads_justified env (a ++ b).
Proof.
  intros Ha Hb s fid bearer I W. apply in_app_or in I. destruct I as [I|I].
  - apply (download_of_mono env a); [intros; apply in_or_app; auto|eauto].
  - apply (download_of_mono env b); [intros; apply in_or_app; auto|eauto].
Qed.

Lemma downloaded_app env c a b :
  downloaded env c a \/ downloaded env c b -> downloaded env c (a ++ b).
Proof.
  intros [(s & fid & bearer & data & E & I & W & P & D)
         |(s & fid & bearer & data & E & I & W & P & D)];
    exists s, fid, bearer, data; repeat split; auto;
    try (apply in_or_app; auto);
    eapply download_of_mono; try exact D; intros; apply in_or_app; auto.
Qed.

Lemma answered_with_app env c a b :
  answered_with env c a \/ answered_with env c b -> answered_with env c (a ++ b).
Proof.
  intros [(s & content & E & I & rest)|(s & content & E & I & rest)];
    exists s, content; repeat split; auto; try tauto; apply in_or_app; auto.
Qed.

Lemma class_In (q : Event -> bool) (l : list Stamped) s :
  Forall (fun s => q (what s) = true) l -> In s l -> q (what s) = true.
Proof. intros H I. rewrite Forall_forall in H. auto. Qed.

Lemma image_attempt_facts env prompt a st :
  attempt_facts env (image_good env) (downloaded env)
    (gigachat_generate_image_attempt env prompt a st).
Proof.
  pose proof (image_attempt_run env prompt a st) as A. simpl in A.
  destruct (token_trace env st) as (pre & Et & Hpre).
  assert (Cpre : count is_completion pre = 0%nat)
    by (apply (count_class _ oauth_or_print _ Hpre); incl).
  assert (Tpre : count is_token_result pre = 0%nat)
    by (apply (count_class _ oauth_or_print _ Hpre); incl).
  assert (Bpre : bearers_fetched None (map what pre) = true)
    by (apply bearers_fetched_quiet, (Forall_class oauth_or_print _ _ Hpre); incl).
  unfold attempt_facts, image_good.
  assert (Quiet : forall r0 s fid bearer,
             In s (pre ++ [stamped (final (get_gigachat_token env st))
                             (EvTokenResult r0)]) ->
             what s = EvDownload fid bearer -> False).
  { intros r0 s fid bearer I W. apply in_app_or in I. destruct I as [I|[I|[]]].
    - apply (class_In oauth_or_print _ _ Hpre) in I. rewrite W in I. discriminate.
    - subst s. discriminate. }
  destruct (result (get_gigachat_token env st)) as [[|c0 b0]|] eqn:Rt.
  1, 3: destruct A as (Ev & _ & Res); rewrite Ev, Res, Et;
    rewrite !count_app, Cpre, Tpre;
    (split; [|split; [|split; [|split]]]); auto; try discriminate;
    (split; [apply tokens_fetched_app; auto; reflexivity|]);
    intros s fid bearer I W; exfalso; eapply Quiet; eauto.
  set (t := get_gigachat_token env st) in *.
  set (req := stamped (final t)
                (EvCompletion GigaChatMax (c0 :: b0) [(Py.lit "user", prompt)])) in *.
  assert (Breq : forall l, Forall (fun s => is_completion (what s) = false) l ->
                 tokens_fetched ((pre ++ [stamped (final t)
                                            (EvTokenResult (Some (c0 :: b0)))])
                                 ++ req :: l)).
  { intros l Hl. rewrite <- app_assoc. apply tokens_fetched_app; [exact Bpre|].
    unfold tokens_fetched. simpl. rewrite N.eqb_refl, eqb_refl. simpl.
    now apply bearers_fetched_quiet. }
  assert (Short : forall p,
            events (gigachat_generate_image_attempt env prompt a st) =
              events t ++ req :: p ->
            Forall (fun s => is_print (what s) = true) p ->
            result (gigachat_generate_image_attempt env prompt a st) = Continue ->
            attempt_facts env (image_good env) (downloaded env)
              (gigachat_generate_image_attempt env prompt a st)).
  { intros p Ev Hp Res. unfold attempt_facts, image_good. rewrite Ev, Res, Et.
    assert (Cp : count is_completion p = 0%nat)
      by (apply (count_class _ is_print _ Hp); incl).
    assert (Tp : count is_token_result p = 0%nat)
      by (apply (count_class _ is_print _ Hp); incl).
    rewrite !count_app, !count_cons, Cpre, Tpre, Cp, Tp. simpl.
    split; [lia|]. split; [reflexivity|]. split; [split|split].
    - apply Breq, (Forall_class is_print _ _ Hp); incl.
    - intros s fid bearer I W. exfalso. apply in_app_or in I. destruct I as [I|[I|I]].
      + eapply Quiet; eauto.
      + subst s. discriminate.
      + apply (class_In is_print _ _ Hp) in I. rewrite W in I. discriminate.
    - reflexivity.
    - discriminate. }
  destruct (completion_content (completion_reply env (tick (final t))))
    as [content|] eqn:CC; [destruct (Py.contains img_marker content) eqn:MK|].
  2, 3: destruct A as (p & Ev & Hp & Res); now apply (Short p).
  destruct A as (p1 & p2 & Ev & H1 & H2 & Res). clear Short.
  unfold attempt_facts, image_good. rewrite Ev, Res, Et.
  set (dl := stamped (answered env (final t))
               (EvDownload (extract_file_id content) (c0 :: b0))) in *.
  assert (C1 : count is_completion p1 = 0%nat)
    by (apply (count_class _ is_print _ H1); incl).
  assert (T1 : count is_token_result p1 = 0%nat)
    by (apply (count_class _ is_print _ H1); incl).
  assert (C2 : count is_completion p2 = 0%nat)
    by (apply (count_class _ is_print _ H2); incl).
  assert (T2 : count is_token_result p2 = 0%nat)
    by (apply (count_class _ is_print _ H2); incl).
  assert (Ireq : In req ((pre ++ [stamped (final t) (EvTokenResult (Some (c0 :: b0)))])
                         ++ req :: p1 ++ dl :: p2))
    by (apply in_or_app; right; left; reflexivity).
  assert (Dl : download_of env
                 ((pre ++ [stamped (final t) (EvTokenResult (Some (c0 :: b0)))])
                  ++ req :: p1 ++ dl :: p2)
                 (extract_file_id content) (c0 :: b0)).
  { exists req, content, [(Py.lit "user", prompt)]. repeat split; auto. }
  rewrite !count_app, !count_cons, !count_app, !count_cons, Cpre, Tpre, C1, T1, C2, T2.
  simpl.
  split; [lia|]. split; [reflexivity|]. split; [split|split].
  - apply Breq. apply Forall_app. split.
    + apply (Forall_class is_print _ _ H1); incl.
    + constructor; [reflexivity|]. apply (Forall_class is_print _ _ H2); incl.
  - intros s fid bearer I W. apply in_app_or in I. destruct I as [I|[I|I]].
    + exfalso. eapply Quiet; eauto.
    + subst s. discriminate.
    + apply in_app_or in I. destruct I as [I|[I|I]].
      * apply (class_In is_print _ _ H1) in I. rewrite W in I. discriminate.
      * subst s. simpl in W. inversion W; subst. exact Dl.
      * apply (class_In is_print _ _ H2) in I. rewrite W in I. discriminate.
  - intro F. specialize (F req Ireq eq_refl). unfold completion_fails in F.
    simpl in F. rewrite CC in F. discriminate.
  - intros c Hc.
    destruct (download_payload (download_reply env (S (tick (final t)))))
      as [data|] eqn:DP; [|discriminate].
    inversion Hc; subst c.
    exists dl, (extract_file_id content), (c0 :: b0), data.
    repeat split; auto.
    apply in_or_app. right. right. apply in_or_app. right. left. reflexivity.
Qed.

Lemma gigachat_request_facts env messages max_retries st :
  let r := gigachat_request env messages max_retries st in
  (count is_completion (events r) <= max_retries)%nat
  /\ (count is_token_result (events r) <= max_retries)%nat
  /\ tokens_fetched (events r)
  /\ (all_fail env (events r) ->
      result r = None /\ count is_token_result (events r) = max_retries)
  /\ (result r = None \/ answered_with env (result r) (events r)).
Proof.
  unfold gigachat_request.
  pose proof (for_range_facts env Py.str (gigachat_request_attempt env messages)
                tokens_fetched (answered_with env) eq_refl tokens_fetched_app
                (answered_with_app env)
                (request_attempt_facts env messages)
                (seq 0 max_retries) st) as F.
  rewrite length_seq in F. exact F.
Qed.

Lemma image_good_app env a b :
  image_good env a -> image_good env b -> image_good env (a ++ b).
Proof.
  intros [A1 A2] [B1 B2]. split.
  - now apply tokens_fetched_app.
  - now apply downloads_justified_app.
Qed.

Lemma image_good_nil env : image_good env [].
Proof. split; [reflexivity|]. intros s fid bearer []. Qed.

Lemma gigachat_generate_image_facts env prompt max_retries st :
  let r := gigachat_generate_image env prompt max_retries st in
  (count is_completion (events r) <= max_retries)%nat
  /\ (count is_token_result (events r) <= max_retries)%nat
  /\ image_good env (events r)
  /\ (all_fail env (events r) ->
      result r = None /\ count is_token_result (events r) = max_retries)
  /\ (result r = None \/ downloaded env (result r) (events r)).
Proof.
  unfold gigachat_generate_image.
  pose proof (for_range_facts env Py.bytes
                (gigachat_generate_image_attempt env prompt)
                (image_good env) (downloaded env) (image_good_nil env)
                (image_good_app env) (downloaded_app env)
                (image_attempt_facts env prompt)
                (seq 0 max_retries) st) as F.
  rewrite length_seq in F. exact F.
Qed.

(** C4. A text completion ([gigachat_request]) and an image completion
    ([gigachat_generate_image]) make at most [max_retries] attempts: at
    most [max_retries] calls of [get_gigachat_token] and at most
    [max_retries] completion requests.  Every completion request carries
    the token returned by the call of [get_gigachat_token] made just
    before it, in the same attempt.  When every completion request that
    was made has failed (a timeout, an exception, a status other than
    200, a body without the content), or none could be made because no
    token was available, all [max_retries] attempts were made and the
    result is [None].  The generators call both with the default of 2. *)
Theorem completion_retries (env : Env) (max_retries : nat) (st : State) :
  (forall messages,
     let r := gigachat_request env messages max_retries st in
     (count is_completion (events r) <= max_retries)%nat
     /\ (count is_token_result (events r) <= max_retries)%nat
     /\ tokens_fetched (events r)
     /\ (all_fail env (events r) ->
         result r = None /\ count is_token_result (events r) = max_retries)
     /\ (result r = None \/ answered_with env (result r) (events r)))
  /\ (forall prompt,
     let r := gigachat_generate_image env prompt max_retries st in
     (count is_completion (events r) <= max_retries)%nat
     /\ (count is_token_result (events r) <= max_retries)%nat
     /\ tokens_fetched (events r)
     /\ (all_fail env (events r) ->
         result r = None /\ count is_token_result (events r) = max_retries))
  /\ (forall name,
     generate_greeting env name st
     = gigachat_request env [(Py.lit "user", generate_greeting_prompt name)] 2 st
     /\ (count is_completion (events (generate_greeting env name st)) <= 2)%nat
     /\ (count is_completion (events (detect_gender env name st)) <= 2)%nat).
Proof.
  split; [|split].
  - intro messages. apply gigachat_request_facts.
  - intros prompt r.
    destruct (gigachat_generate_image_facts env prompt max_retries st)
      as (C & T & [G _] & F & _).
    repeat split; auto; apply F; auto.
  - intro name. split; [reflexivity|]. split.
    + apply gigachat_request_facts.
    + unfold detect_gender. run. rewrite count_app.
      pose proof (gigachat_request_facts env
                    [(Py.lit "user", detect_gender_prompt name)] 2 st) as (C & _).
      match goal with
      | |- (_ + count _ (events ?x) <= _)%nat =>
        assert (E : events x = []) by
          (destruct (result (gigachat_request env
                       [(Py.lit "user", detect_gender_prompt name)] 2 st))
             as [[|? ?]|]; simpl; try reflexivity;
           repeat match goal with
                  | |- context [if ?b then _ else _] => destruct b
                  end; reflexivity);
        rewrite E
      end.
      rewrite count_nil. lia.
Qed.

Lemma completion_retries_witness :
  all_fail (Scenario.refusing 500)
    (events (gigachat_request (Scenario.refusing 500) [] 2 (initial_state 1000)))
  /\ result (gigachat_request (Scenario.refusing 500) [] 2 (initial_state 1000)) = None
  /\ count is_token_result
       (events (gigachat_request (Scenario.refusing 500) [] 2 (initial_state 1000)))
     = 2%nat.
Proof.
  assert (F : all_fail (Scenario.refusing 500)
                (events (gigachat_request (Scenario.refusing 500) [] 2
                           (initial_state 1000))))
    by (intros s _ _; reflexivity).
  split; [exact F|].
  destruct (completion_retries (Scenario.refusing 500) 2 (initial_state 1000))
    as (T & _).
  destruct (T []) as (_ & _ & _ & H & _). apply H. exact F.
Defined.

(* ================================================================== *)
(** ** The file identifier *)

Lemma startswith_app p s : Py.startswith p (p ++ s) = true.
Proof. induction p as [|x p IH]; simpl; [reflexivity|]. now rewrite N.eqb_refl. Qed.

Lemma startswith_split p s :
  Py.startswith p s = true -> exists r, s = p ++ r.
Proof.
  revert s. induction p as [|x p IH]; intros s H; simpl in *.
  - now exists s.
  - destruct s as [|y s]; [discriminate|].
    apply andb_true_iff in H. destruct H as [E H]. apply N.eqb_eq in E. subst y.
    destruct (IH s H) as [r ->]. now exists r.
Qed.

Lemma find_at_found sub s i :
  Py.startswith sub s = true -> Py.find_at sub s i = Some i.
Proof. intro H. destruct s; simpl in *; now rewrite H. Qed.

Lemma find_at_next sub x s i :
  Py.startswith sub (x :: s) = false ->
  Py.find_at sub (x :: s) i = Py.find_at sub s (S i).
Proof. intro H. simpl Py.find_at at 1. now rewrite H. Qed.

Lemma find_at_first sub pre rest i :
  first_at sub pre rest ->
  Py.find_at sub (pre ++ sub ++ rest) i = Some (i + List.length pre)%nat.
Proof.
  revert i. induction pre as [|x pre IH]; intros i F.
  - simpl. rewrite find_at_found by apply startswith_app. f_equal. lia.
  - assert (N : Py.startswith sub ((x :: pre) ++ sub ++ rest) = false).
    { destruct (Py.startswith sub ((x :: pre) ++ sub ++ rest)) eqn:E; [|reflexivity].
      apply startswith_split in E. destruct E as [r E].
      specialize (F [] r E). simpl in F. lia. }
    simpl app in *. rewrite (find_at_next _ _ _ _ N), IH.
    + f_equal. simpl. lia.
    + intros a b E. specialize (F (x :: a) b). simpl in F.
      rewrite E in F. specialize (F eq_refl). lia.
Qed.


Lemma length_img_marker : List.length img_marker = 10%nat.
Proof. reflexivity. Qed.


(* ================================================================== *)
(** ** [gigachat_generate_image] and [generate_birthday_card] *)






(* ================================================================== *)
(** ** The traces of the generators *)

Ltac emits_prog :=
  repeat first
    [ match goal with
      | |- emits _ (get_gigachat_token _) =>
        eapply emits_weaken; [|apply emits_get_gigachat_token]; incl
      end
    | emits_step ].

Lemma emits_gigachat_request env messages max_retries :
  emits text_event (gigachat_request env messages max_retries).
Proof.
  unfold gigachat_request. apply emits_for_range; [intro i|apply emits_ret].
  unfold gigachat_request_attempt, post_completion. emits_prog.
Qed.

Lemma emits_gigachat_generate_image env prompt max_retries :
  emits image_event (gigachat_generate_image env prompt max_retries).
Proof.
  unfold gigachat_generate_image. apply emits_for_range; [intro i|apply emits_ret].
  unfold gigachat_generate_image_attempt, post_completion, get_file. emits_prog.
Qed.

Lemma emits_detect_gender env name : emits text_event (detect_gender env name).
Proof.
  unfold detect_gender. apply emits_bind; [apply emits_gigachat_request|].
  intros [[|c text]|]; try apply emits_ret.
  repeat match goal with
         | |- emits _ (if ?b then _ else _) => destruct b
         end; apply emits_ret.
Qed.

Lemma emits_generate_greeting env name : emits text_event (generate_greeting env name).
Proof. apply emits_gigachat_request. Qed.

(** A call of [generate_birthday_card]: the entry marker, the events of
    the image request, the return marker. *)
Lemma card_trace env name gender st :
  let r := generate_birthday_card env name gender st in
  exists body,
    events r = stamped st (EvCardCall name gender)
               :: body ++ [stamped (final r) (EvCardResult (result r))]
    /\ Forall (fun s => image_event (what s) = true) body.
Proof.
  intro r. subst r. unfold generate_birthday_card. run.
  exists (events (gigachat_generate_image env
                    (generate_birthday_card_prompt name gender) 2 st)).
  split; [reflexivity|]. apply emits_gigachat_generate_image.
Qed.

Arguments generate_birthday_card : simpl never.
Arguments detect_gender : simpl never.
Arguments generate_greeting : simpl never.
Arguments gigachat_request : simpl never.
Arguments gigachat_generate_image : simpl never.
Arguments get_gigachat_token : simpl never.

Lemma card_trace_events env name g st :
  let k := generate_birthday_card env name g st in
  exists b,
    map what (events k) = EvCardCall name g :: b ++ [EvCardResult (result k)]
    /\ Forall (fun e => image_event e = true) b.
Proof.
  intro k. destruct (card_trace env name g st) as (b & E & H). fold k in E.
  exists (map what b). split.
  - rewrite E. simpl. now rewrite map_app.
  - now apply Forall_map.
Qed.

Lemma pipeline_cards_trace env name g st :
  let r := generate_ai_greeting_cards env name g (seq 0 2) [] st in
  exists c1 c2 b1 b2,
    result r = [c1; c2]
    /\ map what (events r) =
       EvCardCall name g :: b1
       ++ EvCardResult c1 :: EvPrint (LogPause IMAGE_DELAY 2) :: EvSleep IMAGE_DELAY
       :: EvCardCall name g :: b2 ++ [EvCardResult c2]
    /\ Forall (fun e => image_event e = true) b1
    /\ Forall (fun e => image_event e = true) b2.
Proof.
  intro r. subst r.
  destruct (card_trace_events env name g st) as (b1 & E1 & H1).
  set (k1 := generate_birthday_card env name g st) in *.
  destruct (card_trace_events env name g (slept IMAGE_DELAY (final k1)))
    as (b2 & E2 & H2).
  set (k2 := generate_birthday_card env name g (slept IMAGE_DELAY (final k1))) in *.
  assert (R : generate_ai_greeting_cards env name g (seq 0 2) [] st =
              ([result k1; result k2], final k2,
               events k1
               ++ stamped (final k1) (EvPrint (LogPause IMAGE_DELAY 2))
               :: stamped (final k1) (EvSleep IMAGE_DELAY) :: events k2)).
  { simpl. unfold bind, pause_before. simpl. fold k1.
    destruct k1 as [[c1 s1] e1]. simpl.
    change (generate_birthday_card env name g _) with k2.
    destruct k2 as [[c2 s2] e2]. simpl. now rewrite ?app_nil_r. }
  rewrite R. exists (result k1), (result k2), b1, b2.
  split; [reflexivity|]. split; [|split; assumption].
  simpl. rewrite map_app. simpl. rewrite E1, E2. simpl.
  rewrite <- app_assoc. reflexivity.
Qed.

Lemma pipeline_trace env name st :
  let r := generate_ai_greeting env name st in
  exists c1 c2 pre b1 b2,
    cards (result r) = [c1; c2]
    /\ map what (events r) =
       pre ++ EvCardCall name (gender (result r)) :: b1
       ++ EvCardResult c1 :: EvPrint (LogPause IMAGE_DELAY 2) :: EvSleep IMAGE_DELAY
       :: EvCardCall name (gender (result r)) :: b2 ++ [EvCardResult c2]
    /\ Forall (fun e => text_event e = true) pre
    /\ Forall (fun e => image_event e = true) b1
    /\ Forall (fun e => image_event e = true) b2.
Proof.
  intro r. subst r. unfold generate_ai_greeting.
  rewrite result_bind, events_bind.
  set (k1 := detect_gender env name st).
  rewrite result_bind, events_bind.
  set (k2 := generate_greeting env name (final k1)).
  rewrite result_bind, events_bind.
  destruct (pipeline_cards_trace env name (result k1) (final k2))
    as (c1 & c2 & b1 & b2 & R & E & H1 & H2).
  set (k3 := generate_ai_greeting_cards env name (result k1) (seq 0 2) [] (final k2)) in *.
  rewrite run_ret. simpl.
  exists c1, c2, (map what (events k1 ++ events k2)), b1, b2.
  split; [exact R|]. split; [|split; [|split; assumption]].
  - rewrite app_nil_r, !map_app, E, <- app_assoc. reflexivity.
  - apply Forall_map, Forall_app. split.
    + apply emits_detect_gender.
    + apply emits_generate_greeting.
Qed.

Lemma send_photo_run env app chat data caption st :
  send_photo env app chat data caption st =
  (if transport_ok app (tick st) then Returned else Raised, answered env st,
   [stamped st (EvSendPhoto chat data caption (transport_ok app (tick st)))]).
Proof. reflexivity. Qed.

Lemma send_message_run env app chat text markdown st :
  send_message env app chat text markdown st =
  (if transport_ok app (tick st) then Returned else Raised, answered env st,
   [stamped st (EvSendMessage chat text markdown (transport_ok app (tick st)))]).
Proof. reflexivity. Qed.

Lemma logged_run call msg st :
  logged call msg st =
  (tt, final (call st),
   events (call st) ++
   match result (call st) with
   | Returned => []
   | Raised => [stamped (final (call st)) (EvPrint msg)]
   end).
Proof.
  unfold logged, bind. destruct (call st) as [[[|] s1] e1]; simpl.
  - reflexivity.
  - reflexivity.
Qed.

Arguments send_photo : simpl never.
Arguments send_message : simpl never.
Arguments logged : simpl never.

Lemma daily_card_trace env app chat name g i st :
  let r := daily_birthday_check_card env app chat name g i st in
  let s1 := if (0 <? i)%nat then slept IMAGE_DELAY st else st in
  let k := generate_birthday_card env name g s1 in
  map what (events r) =
    (if (0 <? i)%nat
     then [EvPrint (LogPause IMAGE_DELAY (i + 1)); EvSleep IMAGE_DELAY] else [])
    ++ map what (events k)
    ++ delivery chat name i (result k) (transport_ok app (tick (final k)))
  /\ final r = match result k with
               | Some (_ :: _) => answered env (final k)
               | _ => final k
               end.
Proof.
  intros r s1 k. subst r s1 k. unfold daily_birthday_check_card, pause_before.
  destruct (0 <? i)%nat; run;
    match goal with
    | |- context [result ?k] => destruct (result k) as [[|b0 data]|]
    end;
    rewrite ?logged_run, ?send_photo_run; simpl; rewrite ?map_app, ?app_nil_r; simpl;
    try (split; reflexivity);
    match goal with
    | |- context [transport_ok ?a ?n] => destruct (transport_ok a n)
    end; split; reflexivity.
Qed.

Arguments daily_birthday_check_card : simpl never.

Lemma daily_cards_trace env app chat name g st :
  let r := for_each (seq 0 2) (daily_birthday_check_card env app chat name g) st in
  exists c1 c2 ok1 ok2 b1 b2,
    map what (events r) =
      EvCardCall name g :: b1 ++ EvCardResult c1 :: delivery chat name 0 c1 ok1
      ++ EvPrint (LogPause IMAGE_DELAY 2) :: EvSleep IMAGE_DELAY
      :: EvCardCall name g :: b2 ++ EvCardResult c2 :: delivery chat name 1 c2 ok2
    /\ Forall (fun e => image_event e = true) b1
    /\ Forall (fun e => image_event e = true) b2.
Proof.
  intro r. subst r. simpl. run. rewrite !map_app.
  destruct (daily_card_trace env app chat name g 0 st) as [E1 _].
  set (s1 := final (daily_birthday_check_card env app chat name g 0 st)).
  destruct (daily_card_trace env app chat name g 1 s1) as [E2 _].
  rewrite E1, E2. simpl.
  destruct (card_trace_events env name g st) as (b1 & K1 & H1).
  destruct (card_trace_events env name g (slept IMAGE_DELAY s1)) as (b2 & K2 & H2).
  rewrite K1, K2.
  eexists _, _, _, _, b1, b2. split; [|split; assumption].
  simpl. rewrite <- ?app_assoc. simpl. rewrite <- ?app_assoc. simpl.
  rewrite ?app_nil_r. reflexivity.
Qed.

(* ================================================================== *)
(** ** The pacing of the two cards *)

Lemma filter_class (p q : Event -> bool) (l : list Event) :
  Forall (fun e => q e = true) l -> (forall e, q e = true -> p e = false) ->
  filter p l = [].
Proof.
  intros H D. induction l as [|e l IH]; [reflexivity|].
  inversion H; subst. simpl. rewrite (D _ H2). auto.
Qed.

(** C6. A run of the pipeline [generate_ai_greeting] sleeps once, for
    [IMAGE_DELAY] = 30 seconds: its trace is the text requests, the first
    call of [generate_birthday_card] with its image requests, the sleep,
    the second call with its image requests.  No sleep comes before the
    first call or within a call.  The list [cards] has two elements, the
    results of the two calls, and each can be there or not whatever the
    other is.  The loop of [daily_birthday_check] over the two cards has
    the same shape, with the delivery of each card after its call. *)
Theorem inter_image_delay_once (env : Env) (app : App) (name : Py.str) (st : State) :
  let r := generate_ai_greeting env name st in
  (exists c1 c2 pre b1 b2,
     cards (result r) = [c1; c2]
     /\ map what (events r) =
        pre ++ EvCardCall name (gender (result r)) :: b1
        ++ EvCardResult c1 :: EvPrint (LogPause IMAGE_DELAY 2) :: EvSleep IMAGE_DELAY
        :: EvCardCall name (gender (result r)) :: b2 ++ [EvCardResult c2]
     /\ Forall (fun e => text_event e = true) pre
     /\ Forall (fun e => image_event e = true) b1
     /\ Forall (fun e => image_event e = true) b2)
  /\ List.length (cards (result r)) = 2%nat
  /\ view is_sleep (events r) = [EvSleep 30]
  /\ (forall chat_id gender_,
        let d := for_each (seq 0 2)
                   (daily_birthday_check_card env app chat_id name gender_) st in
        (exists c1 c2 ok1 ok2 b1 b2,
           map what (events d) =
             EvCardCall name gender_ :: b1 ++ EvCardResult c1
             :: delivery chat_id name 0 c1 ok1
             ++ EvPrint (LogPause IMAGE_DELAY 2) :: EvSleep IMAGE_DELAY
             :: EvCardCall name gender_ :: b2 ++ EvCardResult c2
             :: delivery chat_id name 1 c2 ok2
           /\ Forall (fun e => image_event e = true) b1
           /\ Forall (fun e => image_event e = true) b2)
        /\ view is_sleep (events d) = [EvSleep 30])
  /\ (forall first second : bool,
        exists env0,
          map Py.truthy_bytes
            (cards (result (generate_ai_greeting env0 name (initial_state 1000))))
          = [first; second]).
Proof.
  intro r.
  destruct (pipeline_trace env name st) as (c1 & c2 & pre & b1 & b2 & C & E & Hp & H1 & H2).
  fold r in C, E.
  split; [exists c1, c2, pre, b1, b2; auto|].
  split; [now rewrite C|]. split; [|split].
  - unfold view. rewrite E.
    rewrite filter_app, (filter_class is_sleep text_event pre Hp) by incl.
    simpl. rewrite filter_app, (filter_class is_sleep image_event b1 H1) by incl.
    simpl. rewrite filter_app, (filter_class is_sleep image_event b2 H2) by incl.
    reflexivity.
  - intros chat_id gender_ d.
    destruct (daily_cards_trace env app chat_id name gender_ st)
      as (k1 & k2 & ok1 & ok2 & a1 & a2 & D & A1 & A2).
    fold d in D. split; [exists k1, k2, ok1, ok2, a1, a2; auto|].
    unfold view. rewrite D. simpl.
    rewrite filter_app, (filter_class is_sleep image_event a1 A1) by incl.
    simpl. rewrite filter_app.
    assert (Dv : forall i c ok, filter is_sleep (delivery chat_id name i c ok) = []).
    { intros i [[|x c]|] [|]; reflexivity. }
    rewrite Dv. simpl.
    rewrite filter_app, (filter_class is_sleep image_event a2 A2) by incl.
    simpl. now rewrite Dv.
  - intros first second. exists (Scenario.serving first second).
    destruct first, second; vm_compute; reflexivity.
Qed.

(* ================================================================== *)
(** ** One subject of [daily_birthday_check] *)

Lemma logged_send_message_trace env app chat text markdown msg st :
  let r := logged (send_message env app chat text markdown) msg st in
  map what (events r) =
    message_attempt chat text markdown (transport_ok app (tick st)) msg
  /\ final r = answered env st.
Proof.
  intro r. subst r. rewrite logged_run, send_message_run. simpl.
  destruct (transport_ok app (tick st)); split; reflexivity.
Qed.

Lemma subject_trace env app chat birthday st :
  let k1 := detect_gender env (name birthday) st in
  let k2 := generate_greeting env (name birthday) (final k1) in
  let r := daily_birthday_check_subject env app chat birthday st in
  let ok := transport_ok app (tick (final k2)) in
  map what (events r) =
    map what (events k1) ++ map what (events k2) ++
    match result k2 with
    | Some ((_ :: _) as text) =>
      message_attempt chat (greeting_text (name birthday) text) true ok
        (LogSendTextError chat)
      ++ map what (events (for_each (seq 0 2)
                             (daily_birthday_check_card env app chat
                                (name birthday) (result k1))
                             (answered env (final k2))))
    | _ =>
      message_attempt chat (fallback_text (name birthday)) false ok
        (LogSendError chat)
    end.
Proof.
  intros k1 k2 r ok. subst r. unfold daily_birthday_check_subject.
  cbv zeta.
  rewrite events_bind. fold k1. rewrite events_bind. fold k2.
  rewrite !map_app. f_equal. f_equal.
  destruct (result k2) as [[|c text]|].
  - destruct (logged_send_message_trace env app chat
                (fallback_text (name birthday)) false (LogSendError chat) (final k2))
      as [E _]. exact E.
  - rewrite events_bind, map_app.
    destruct (logged_send_message_trace env app chat
                (greeting_text (name birthday) (c :: text)) true
                (LogSendTextError chat) (final k2)) as [E F].
    rewrite E, F. reflexivity.
  - destruct (logged_send_message_trace env app chat
                (fallback_text (name birthday)) false (LogSendError chat) (final k2))
      as [E _]. exact E.
Qed.

Lemma view_app p (a b : list Stamped) : view p (a ++ b) = view p a ++ view p b.
Proof. unfold view. now rewrite map_app, filter_app. Qed.

Lemma view_map p (l : list Stamped) : view p l = filter p (map what l).
Proof. reflexivity. Qed.

Lemma count_view p (l : list Stamped) : count p l = List.length (filter p (map what l)).
Proof. reflexivity. Qed.

Lemma text_events_quiet env name st p :
  (forall e, text_event e = true -> p e = false) ->
  filter p (map what (events (detect_gender env name st))) = []
  /\ forall st', filter p (map what (events (generate_greeting env name st'))) = [].
Proof.
  intro D. split; [|intro st'].
  - apply (filter_class p text_event); [|exact D].
    apply Forall_map, emits_detect_gender.
  - apply (filter_class p text_event); [|exact D].
    apply Forall_map, emits_generate_greeting.
Qed.

(** C9. For a subject whose greeting text is [None] (or empty), the
    dispatcher makes one call of [send_message], with the canned text and
    no markup, and that is all: no call of [send_photo], no call of
    [generate_birthday_card], no image request, no download, no sleep. *)
Theorem absent_greeting_canned_only (env : Env) (app : App) (chat_id : Z)
    (birthday : Birthday) (st : State) :
  let k1 := detect_gender env (name birthday) st in
  let k2 := generate_greeting env (name birthday) (final k1) in
  let r := daily_birthday_check_subject env app chat_id birthday st in
  let ok := transport_ok app (tick (final k2)) in
  Py.truthy (result k2) = false ->
  map what (events r) =
    map what (events k1) ++ map what (events k2)
    ++ message_attempt chat_id (fallback_text (name birthday)) false ok
         (LogSendError chat_id)
  /\ view is_send_message (events r)
     = [EvSendMessage chat_id (fallback_text (name birthday)) false ok]
  /\ count is_send_photo (events r) = 0%nat
  /\ count is_card_call (events r) = 0%nat
  /\ count is_image_request (events r) = 0%nat
  /\ count is_download (events r) = 0%nat
  /\ count is_sleep (events r) = 0%nat.
Proof.
  intros k1 k2 r ok Falsy.
  assert (E : map what (events r) =
              map what (events k1) ++ map what (events k2)
              ++ message_attempt chat_id (fallback_text (name birthday)) false ok
                   (LogSendError chat_id)).
  { subst r. rewrite subject_trace. fold k1 k2 ok.
    destruct (result k2) as [[|c text]|]; try reflexivity. discriminate. }
  split; [exact E|].
  assert (Q : forall p, (forall e, text_event e = true -> p e = false) ->
              filter p (map what (events r)) =
              filter p (message_attempt chat_id (fallback_text (name birthday))
                          false ok (LogSendError chat_id))).
  { intros p D. rewrite E, !filter_app.
    destruct (text_events_quiet env (name birthday) st p D) as [Q1 Q2].
    fold k1 in Q1. specialize (Q2 (final k1)). fold k2 in Q2.
    now rewrite Q1, Q2. }
  split; [|repeat split]; rewrite ?count_view, ?view_map, Q by incl;
    unfold message_attempt; destruct ok; reflexivity.
Qed.

Lemma absent_greeting_canned_only_witness :
  Py.truthy
    (result (generate_greeting (Scenario.refusing 500) (name Scenario.anna)
               (final (detect_gender (Scenario.refusing 500) (name Scenario.anna)
                         (initial_state 1000))))) = false
  /\ view is_send_message
       (events (daily_birthday_check_subject (Scenario.refusing 500)
                  Scenario.reachable 101 Scenario.anna (initial_state 1000)))
     = [EvSendMessage 101 (fallback_text (name Scenario.anna)) false true]
  /\ count is_card_call
       (events (daily_birthday_check_subject (Scenario.refusing 500)
                  Scenario.reachable 101 Scenario.anna (initial_state 1000)))
     = 0%nat.
Proof.
  assert (H : Py.truthy
    (result (generate_greeting (Scenario.refusing 500) (name Scenario.anna)
               (final (detect_gender (Scenario.refusing 500) (name Scenario.anna)
                         (initial_state 1000))))) = false) by (vm_compute; reflexivity).
  split; [exact H|].
  destruct (absent_greeting_canned_only (Scenario.refusing 500) Scenario.reachable
              101 Scenario.anna (initial_state 1000) H)
    as (_ & V & _ & C & _).
  split; [exact V|exact C].
Defined.

(* ================================================================== *)
(** ** A text that cannot be sent *)

Lemma delivery_photos chat name i c ok :
  filter is_send_photo (delivery chat name i c ok)
  = if Py.truthy_bytes c then [EvSendPhoto chat
        match c with Some data => data | None => [] end (card_caption i name) ok]
    else [].
Proof. destruct c as [[|x c]|], ok; reflexivity. Qed.

(** C10. For a subject whose greeting text is there, when the call of
    [send_message] for the text raises, the exception is caught there
    (the handler prints) and the dispatcher goes on: it calls
    [generate_birthday_card] twice, with the sleep in between, and after
    each call it calls [send_photo] for the card when the card is there
    (not [None], not empty). *)
Theorem text_send_failure_keeps_cards (env : Env) (app : App) (chat_id : Z)
    (birthday : Birthday) (st : State) :
  let nm := name birthday in
  let k1 := detect_gender env nm st in
  let k2 := generate_greeting env nm (final k1) in
  let r := daily_birthday_check_subject env app chat_id birthday st in
  forall text,
    result k2 = Some text -> text <> [] ->
    transport_ok app (tick (final k2)) = false ->
    exists c1 c2 ok1 ok2 b1 b2,
      map what (events r) =
        map what (events k1) ++ map what (events k2)
        ++ EvSendMessage chat_id (greeting_text nm text) true false
        :: EvPrint (LogSendTextError chat_id)
        :: EvCardCall nm (result k1) :: b1 ++ EvCardResult c1
        :: delivery chat_id nm 0 c1 ok1
        ++ EvPrint (LogPause IMAGE_DELAY 2) :: EvSleep IMAGE_DELAY
        :: EvCardCall nm (result k1) :: b2 ++ EvCardResult c2
        :: delivery chat_id nm 1 c2 ok2
      /\ Forall (fun e => image_event e = true) b1
      /\ Forall (fun e => image_event e = true) b2
      /\ count is_card_call (events r) = 2%nat
      /\ count is_send_photo (events r)
         = List.length (filter Py.truthy_bytes [c1; c2]).
Proof.
  intros nm k1 k2 r text R N Down.
  destruct (daily_cards_trace env app chat_id nm (result k1) (answered env (final k2)))
    as (c1 & c2 & ok1 & ok2 & b1 & b2 & D & H1 & H2).
  assert (E : map what (events r) =
        map what (events k1) ++ map what (events k2)
        ++ EvSendMessage chat_id (greeting_text nm text) true false
        :: EvPrint (LogSendTextError chat_id)
        :: EvCardCall nm (result k1) :: b1 ++ EvCardResult c1
        :: delivery chat_id nm 0 c1 ok1
        ++ EvPrint (LogPause IMAGE_DELAY 2) :: EvSleep IMAGE_DELAY
        :: EvCardCall nm (result k1) :: b2 ++ EvCardResult c2
        :: delivery chat_id nm 1 c2 ok2).
  { subst r. rewrite subject_trace. fold nm k1 k2. rewrite R, Down.
    destruct text as [|c text]; [contradiction|].
    unfold message_attempt. rewrite D. reflexivity. }
  exists c1, c2, ok1, ok2, b1, b2.
  split; [exact E|]. split; [exact H1|]. split; [exact H2|].
  assert (Q : forall p, (forall e, text_event e = true -> p e = false) ->
              filter p (map what (events k1)) = []
              /\ filter p (map what (events k2)) = []).
  { intros p Dp. destruct (text_events_quiet env nm st p Dp) as [Q1 Q2].
    split; [exact Q1|apply Q2]. }
  assert (Dc : forall i c ok, filter is_card_call (delivery chat_id nm i c ok) = []).
  { intros i [[|x c]|] [|]; reflexivity. }
  split; rewrite count_view, E, !filter_app.
  - destruct (Q is_card_call) as [Q1 Q2]; [incl|]. rewrite Q1, Q2. simpl.
    rewrite !filter_app, (filter_class is_card_call image_event b1 H1) by incl.
    simpl. rewrite !filter_app, Dc. simpl.
    rewrite !filter_app, (filter_class is_card_call image_event b2 H2) by incl.
    simpl. now rewrite Dc.
  - destruct (Q is_send_photo) as [Q1 Q2]; [incl|]. rewrite Q1, Q2. simpl.
    rewrite !filter_app, (filter_class is_send_photo image_event b1 H1) by incl.
    simpl. rewrite !filter_app, delivery_photos. simpl.
    rewrite !filter_app, (filter_class is_send_photo image_event b2 H2) by incl.
    simpl. rewrite delivery_photos.
    destruct (Py.truthy_bytes c1), (Py.truthy_bytes c2); reflexivity.
Qed.

Lemma text_send_failure_keeps_cards_witness :
  transport_ok (Scenario.failing_at 3)
    (tick (final (generate_greeting Scenario.provider (name Scenario.anna)
                    (final (detect_gender Scenario.provider (name Scenario.anna)
                              (initial_state 1000)))))) = false
  /\ count is_card_call
       (events (daily_birthday_check_subject Scenario.provider
                  (Scenario.failing_at 3) 101 Scenario.anna (initial_state 1000)))
     = 2%nat.
Proof.
  assert (Down : transport_ok (Scenario.failing_at 3)
    (tick (final (generate_greeting Scenario.provider (name Scenario.anna)
                    (final (detect_gender Scenario.provider (name Scenario.anna)
                              (initial_state 1000)))))) = false)
    by (vm_compute; reflexivity).
  split; [exact Down|].
  destruct (text_send_failure_keeps_cards Scenario.provider (Scenario.failing_at 3)
              101 Scenario.anna (initial_state 1000)
              (Scenario.tagged (Py.lit "file-1")))
    as (c1 & c2 & ok1 & ok2 & b1 & b2 & _ & _ & _ & C & _).
  - vm_compute. reflexivity.
  - vm_compute. discriminate.
  - exact Down.
  - exact C.
Defined.

(* ================================================================== *)
(** ** The dispatch loops and the failures of Telegram *)


Section Agree.

Context {A B : Type}.



End Agree.









Section Catches.

Context {A B : Type}.
Variable app : App.



End Catches.




Lemma emits_generate_birthday_card env name g :
  emits card_event (generate_birthday_card env name g).
Proof.
  unfold generate_birthday_card. emits_step.
  - apply emits_emit. reflexivity.
  - emits_step.
    + eapply emits_weaken; [|apply emits_gigachat_generate_image]. incl.
    + emits_auto.
Qed.





Lemma flat_map_class {X} (f : Event -> list X) (q : Event -> bool) (l : list Event) :
  Forall (fun e => q e = true) l -> (forall e, q e = true -> f e = []) ->
  flat_map f l = [].
Proof.
  intros H D. induction l as [|e l IH]; [reflexivity|].
  inversion H; subst. simpl. rewrite (D _ H2). auto.
Qed.

Lemma chats_messaged_app a b :
  chats_messaged (a ++ b) = chats_messaged a ++ chats_messaged b.
Proof. unfold chats_messaged. now rewrite map_app, flat_map_app. Qed.

Lemma chats_messaged_class q (l : list Stamped) :
  Forall (fun s => q (what s) = true) l ->
  (forall e, q e = true -> is_send_message e = false) ->
  chats_messaged l = [].
Proof.
  intros H D. unfold chats_messaged.
  apply (flat_map_class chat_messaged q); [now apply Forall_map|].
  intros e Q. specialize (D e Q). destruct e; try reflexivity. discriminate.
Qed.

Lemma chats_card env app chat name g i st :
  chats_messaged (events (daily_birthday_check_card env app chat name g i st)) = [].
Proof.
  unfold chats_messaged.
  destruct (daily_card_trace env app chat name g i st) as [E _]. rewrite E.
  rewrite !flat_map_app.
  assert (K : forall s, flat_map chat_messaged
                (map what (events (generate_birthday_card env name g s))) = []).
  { intro s. apply (chats_messaged_class card_event);
      [apply emits_generate_birthday_card|incl]. }
  rewrite K.
  assert (D : forall c ok, flat_map chat_messaged (delivery chat name i c ok) = []).
  { intros [[|x c]|] [|]; reflexivity. }
  rewrite D. destruct (0 <? i)%nat; reflexivity.
Qed.

Lemma chats_for_each_quiet {A} (items : list A) (body : A -> M unit) st :
  (forall x s, chats_messaged (events (body x s)) = []) ->
  chats_messaged (events (for_each items body st)) = [].
Proof.
  intro H. revert st. induction items as [|x items IH]; intro st; simpl.
  - reflexivity.
  - rewrite events_bind, chats_messaged_app, H, IH. reflexivity.
Qed.

(** One subject: one call of [send_message], to the chat of the
    recipient. *)
Lemma chats_subject env app chat birthday st :
  chats_messaged (events (daily_birthday_check_subject env app chat birthday st))
  = [chat].
Proof.
  unfold daily_birthday_check_subject. cbv zeta.
  rewrite events_bind, chats_messaged_app.
  rewrite (chats_messaged_class text_event) by (apply emits_detect_gender || incl).
  rewrite events_bind, chats_messaged_app.
  rewrite (chats_messaged_class text_event) by (apply emits_generate_greeting || incl).
  destruct (result (generate_greeting env (name birthday) _)) as [[|c text]|].
  - rewrite logged_run, send_message_run. simpl.
    match goal with |- context [transport_ok ?a ?n] => destruct (transport_ok a n) end;
      reflexivity.
  - rewrite events_bind, chats_messaged_app.
    rewrite chats_for_each_quiet by (intros; apply chats_card).
    rewrite logged_run, send_message_run. simpl.
    match goal with |- context [transport_ok ?a ?n] => destruct (transport_ok a n) end;
      reflexivity.
  - rewrite logged_run, send_message_run. simpl.
    match goal with |- context [transport_ok ?a ?n] => destruct (transport_ok a n) end;
      reflexivity.
Qed.

Lemma chats_subjects env app chat (due : list Birthday) st :
  chats_messaged
    (events (for_each due (daily_birthday_check_subject env app chat) st))
  = repeat chat (List.length due).
Proof.
  revert st. induction due as [|b due IH]; intro st; simpl.
  - reflexivity.
  - rewrite events_bind, chats_messaged_app, chats_subject, IH. reflexivity.
Qed.

(** One recipient of the daily check: one call of [send_message] for
    each subject due today. *)
Lemma chats_recipient env app chat code st :
  chats_messaged (events (daily_birthday_check_recipient env app (chat, code) st))
  = repeat chat
      (List.length
         (result (get_birthdays_today env (stored_birthdays env (tick st) code) st))).
Proof.
  unfold daily_birthday_check_recipient.
  rewrite events_bind, chats_messaged_app. simpl.
  rewrite events_bind, chats_messaged_app. simpl.
  apply chats_subjects.
Qed.

(** The monthly reminder: one call of [send_message] for each session,
    in order. *)
Lemma chats_monthly env app st :
  chats_messaged (events (monthly_reminder env app st)) = map fst (sessions env).
Proof.
  unfold monthly_reminder. rewrite events_bind, chats_messaged_app. simpl.
  generalize (today_month (calendar env (clock st))). intro current_month.
  generalize st. induction (sessions env) as [|[chat code] l IH]; intro s; simpl.
  - reflexivity.
  - rewrite events_bind, chats_messaged_app, IH. f_equal.
    unfold monthly_reminder_recipient.
    rewrite events_bind, chats_messaged_app. simpl.
    rewrite events_bind, chats_messaged_app. simpl.
    rewrite logged_run, send_message_run. simpl.
    match goal with |- context [transport_ok ?a ?n] => destruct (transport_ok a n) end;
      reflexivity.
Qed.


(** The scenario of the specification: three recipients due today, and
    the text of the second one cannot be sent.  The first and the third
    receive the text and the two cards, the second the two cards. *)
Example three_recipients_one_failure :
  deliveries (events (daily_birthday_check Scenario.three_recipients
                        (Scenario.failing_at 12) (initial_state 1000)))
  = [(101, true); (101, true); (101, true);
     (102, false); (102, true); (102, true);
     (103, true); (103, true); (103, true)]
  /\ count is_send_failure_print
       (events (daily_birthday_check Scenario.three_recipients
                  (Scenario.failing_at 12) (initial_state 1000))) = 1%nat.
Proof. vm_compute. split; reflexivity. Qed.

(* ================================================================== *)
(** ** Callers of [get_gigachat_token] that overlap *)

Lemma set_nth_app {A} (pre : list A) x y post :
  set_nth (List.length pre) y (pre ++ x :: post) = pre ++ y :: post.
Proof. induction pre as [|p pre IH]; simpl; [reflexivity|]. now rewrite IH. Qed.

Lemma set_nth_started i c callers :
  started c -> Forall started callers -> Forall started (set_nth i c callers).
Proof.
  intros Hc H. revert i. induction H as [|x l Hx Hl IH]; intro i.
  - destruct i; constructor.
  - destruct i; simpl; constructor; auto.
Qed.

(** Callers that have all passed the cache test issue no request. *)
Lemma gather_started env callers schedule st :
  Forall started callers ->
  count is_oauth (events (gather env callers schedule st)) = 0%nat.
Proof.
  revert callers st. induction schedule as [|i schedule IH]; intros callers st H.
  - reflexivity.
  - simpl. destruct (nth_error callers i) as [c|] eqn:N; [|now apply IH].
    assert (Hc : started c).
    { rewrite Forall_forall in H. apply H. eapply nth_error_In; eauto. }
    rewrite events_bind, count_app.
    destruct c as [|n|r]; [contradiction| |]; simpl.
    + rewrite events_bind, count_app, resume_no_oauth. simpl.
      rewrite IH; [reflexivity|]. apply set_nth_started; [run; exact I|exact H].
    + rewrite IH; [reflexivity|]. apply set_nth_started; [exact I|exact H].
Qed.

Lemma gather_overlapping env n : forall pre rest st,
  ~ credential_valid (gigachat_token_cache st) (clock st) ->
  Py.truthy (GIGACHAT_AUTH env) = true ->
  Forall started pre ->
  count is_oauth
    (events (gather env (pre ++ repeat NotStarted n)
                    (seq (List.length pre) n ++ rest) st)) = n.
Proof.
  induction n as [|n IH]; intros pre rest st V K H.
  - simpl. rewrite app_nil_r. now apply gather_started.
  - simpl. rewrite nth_error_app2, Nat.sub_diag by lia. simpl.
    rewrite events_bind, count_app. rewrite events_bind, count_app.
    rewrite !result_bind, !final_bind, (begin_stale env st V), K. simpl.
    rewrite set_nth_app.
    change (pre ++ Waiting (tick st) :: repeat NotStarted n)
      with (pre ++ [Waiting (tick st)] ++ repeat NotStarted n).
    rewrite (app_assoc pre).
    replace (S (List.length pre)) with (List.length (pre ++ [Waiting (tick st)]))
      by (rewrite length_app; simpl; lia).
    rewrite IH; auto.
    apply Forall_app. split; [exact H|]. repeat constructor.
Qed.

(** Callers in turn, once the credential is valid: all from the cache. *)
Lemma in_turn_cached env n st tok :
  credential_valid (gigachat_token_cache st) (clock st) ->
  token (gigachat_token_cache st) = Some tok ->
  result (in_turn env n st) = repeat (Some tok) n
  /\ count is_oauth (events (in_turn env n st)) = 0%nat.
Proof.
  intros V T. induction n as [|n [IR IC]]; simpl.
  - split; reflexivity.
  - rewrite result_bind, events_bind, count_app, (token_valid env st V). simpl.
    rewrite result_bind, events_bind, count_app, IR, IC, T. split; reflexivity.
Qed.

Lemma expiry_nonzero (ms : Z) : ms <> 0 -> ~ (inject_Z ms / 1000 == 0)%Q.
Proof.
  intros N E. apply N. unfold Qeq, Qdiv, Qmult, Qinv, inject_Z in E. simpl in E. lia.
Qed.

Lemma in_turn_refresh env n st tok ms :
  ~ credential_valid (gigachat_token_cache st) (clock st) ->
  Py.truthy (GIGACHAT_AUTH env) = true ->
  oauth_reply env (tick st) =
    OAuthResponse 200 (Some {| access_token := Some tok; expires_at := Some ms |}) ->
  tok <> [] -> ms <> 0 ->
  (clock st + latency env (tick st) < inject_Z ms / 1000 - 60)%Q ->
  result (in_turn env (S n) st) = repeat (Some tok) (S n)
  /\ count is_oauth (events (in_turn env (S n) st)) = 1%nat.
Proof.
  intros V K R N Z L. simpl.
  rewrite result_bind, events_bind, count_app.
  rewrite result_bind, events_bind, count_app.
  rewrite (token_stale_key env st V K).
  assert (Resume : get_gigachat_token_resume env (tick st) (issued st) =
            (Some tok,
             {| gigachat_token_cache :=
                  {| token := Some tok; expires := Some (inject_Z ms / 1000)%Q |};
                clock := (clock st + latency env (tick st))%Q;
                tick := S (tick st) |}, [])).
  { unfold get_gigachat_token_resume, bind. simpl. rewrite R. reflexivity. }
  rewrite Resume. simpl.
  match goal with
  | |- context [in_turn env n ?s] =>
    destruct (in_turn_cached env n s tok) as [IR IC]
  end.
  - exists tok, (inject_Z ms / 1000)%Q. simpl.
    repeat split; auto. now apply expiry_nonzero.
  - reflexivity.
  - rewrite IR, IC. split; reflexivity.
Qed.

(** C8, as the code has it.  [get_gigachat_token] takes no lock.  When no
    valid credential is cached, the key is configured and [n] callers
    have all passed the cache test before the first answer arrives, each
    of them issues its own OAuth request: [n] requests, whatever the
    order in which they go on.  One request is issued for [S n] callers
    when they call in turn, the refresh is answered 200 with a token and
    an expiry more than 60 seconds away: the first caller refreshes, the
    others are served from the cache. *)
Theorem refresh_is_not_single_flight (env : Env) (n : nat) :
  (forall rest st,
     ~ credential_valid (gigachat_token_cache st) (clock st) ->
     Py.truthy (GIGACHAT_AUTH env) = true ->
     count is_oauth
       (events (gather env (repeat NotStarted n) (seq 0 n ++ rest) st)) = n)
  /\ (forall st tok ms,
        ~ credential_valid (gigachat_token_cache st) (clock st) ->
        Py.truthy (GIGACHAT_AUTH env) = true ->
        oauth_reply env (tick st) =
          OAuthResponse 200
            (Some {| access_token := Some tok; expires_at := Some ms |}) ->
        tok <> [] -> ms <> 0 ->
        (clock st + latency env (tick st) < inject_Z ms / 1000 - 60)%Q ->
        result (in_turn env (S n) st) = repeat (Some tok) (S n)
        /\ count is_oauth (events (in_turn env (S n) st)) = 1%nat).
Proof.
  split.
  - intros rest st V K.
    apply (gather_overlapping env n [] rest st V K). constructor.
  - intros st tok ms. apply in_turn_refresh.
Qed.

Lemma refresh_is_not_single_flight_witness :
  ~ credential_valid (gigachat_token_cache (initial_state 1000))
      (clock (initial_state 1000))
  /\ count is_oauth
       (events (gather Scenario.provider (repeat NotStarted 3)
                  (seq 0 3 ++ [2; 0; 1]%nat) (initial_state 1000))) = 3%nat.
Proof.
  assert (V : ~ credential_valid (gigachat_token_cache (initial_state 1000))
                (clock (initial_state 1000)))
    by (intros (tok & e & H & _); discriminate H).
  split; [exact V|].
  destruct (refresh_is_not_single_flight Scenario.provider 3) as [Overlap _].
  apply Overlap; [exact V|reflexivity].
Defined.

(** C8, as it is stated, fails: two callers with an empty cache, the
    second one starting while the first one waits for its answer, issue
    two OAuth requests, and both get a token. *)
Lemma two_callers_two_refreshes :
  count is_oauth
    (events (gather Scenario.provider [NotStarted; NotStarted] [0; 1; 0; 1]%nat
               (initial_state 1000))) = 2%nat
  /\ count is_oauth
       (events (gather Scenario.provider [NotStarted; NotStarted] [0; 1; 0; 1]%nat
                  (initial_state 1000))) <> 1%nat
  /\ result (gather Scenario.provider [NotStarted; NotStarted] [0; 1; 0; 1]%nat
               (initial_state 1000))
     = [Done (Some (Py.lit "T2")); Done (Some (Py.lit "T2"))].
Proof. vm_compute. repeat split; auto; discriminate. Qed.

(* ================================================================== *)
(** ** Time *)

Lemma within_app lo hi a b : within lo hi a -> within lo hi b -> within lo hi (a ++ b).
Proof. intros. apply Forall_app. split; assumption. Qed.

Lemma within_widen lo hi lo' hi' l :
  (lo' <= lo)%Q -> (hi <= hi')%Q -> within lo hi l -> within lo' hi' l.
Proof.
  intros L H W. eapply Forall_impl; [|exact W]. simpl.
  intros s [A B]. split; eapply Qle_trans; eauto.
Qed.

Section Timed.

Context {A B : Type}.

Lemma timed_ret (a : A) : timed (ret a).
Proof. intro st. split; [apply Qle_refl|constructor]. Qed.

Lemma timed_bind (m : M A) (k : A -> M B) :
  timed m -> (forall a, timed (k a)) -> timed (bind m k).
Proof.
  intros Hm Hk st. rewrite final_bind, events_bind.
  destruct (Hm st) as [L1 W1].
  destruct (Hk (result (m st)) (final (m st))) as [L2 W2].
  split; [eapply Qle_trans; eauto|].
  apply within_app.
  - eapply within_widen; [apply Qle_refl|exact L2|exact W1].
  - eapply within_widen; [exact L1|apply Qle_refl|exact W2].
Qed.

(** A step that leaves the clock where it is and emits nothing. *)
Lemma timed_still (m : M A) :
  (forall st, clock (final (m st)) = clock st /\ events (m st) = []) -> timed m.
Proof.
  intros H st. destruct (H st) as [C E]. rewrite C, E.
  split; [apply Qle_refl|constructor].
Qed.

End Timed.

Lemma timed_emit e : timed (emit e).
Proof.
  intro st. simpl. split; [apply Qle_refl|].
  repeat constructor; apply Qle_refl.
Qed.

Lemma timed_elapse d : (0 <= d)%Q -> timed (elapse d).
Proof.
  intros D st. simpl. split; [|constructor]. lra.
Qed.

Lemma timed_for_each {A} (items : list A) (body : A -> M unit) :
  (forall x, timed (body x)) -> timed (for_each items body).
Proof.
  intro H. induction items as [|x items IH]; simpl.
  - apply timed_ret.
  - apply timed_bind; auto.
Qed.

Lemma timed_for_range {R} indices (body : nat -> M (Flow R)) (rest : M R) :
  (forall i, timed (body i)) -> timed rest -> timed (for_range indices body rest).
Proof.
  intros Hb Hr. induction indices as [|i indices IH]; simpl.
  - exact Hr.
  - apply timed_bind; [apply Hb|]. intros [|r]; [exact IH|apply timed_ret].
Qed.

Ltac timed_step :=
  match goal with
  | |- timed (bind _ _) => apply timed_bind; [|intros]
  | |- timed (ret _) => apply timed_ret
  | |- timed (emit _) => apply timed_emit
  | |- timed (print _) => apply timed_emit
  | |- timed (elapse _) => apply timed_elapse; auto
  | |- timed (for_each _ _) => apply timed_for_each; intros
  | |- timed (for_range _ _ _) => apply timed_for_range; intros
  | |- timed (match ?x with _ => _ end) => destruct x
  | |- timed _ => apply timed_still; intros; split; reflexivity
  end.

Section Latency.

Variable env : Env.
Hypothesis latency_nonneg : forall n, (0 <= latency env n)%Q.

Lemma timed_get_gigachat_token : timed (get_gigachat_token env).
Proof.
  unfold get_gigachat_token, get_gigachat_token_begin, get_gigachat_token_resume.
  repeat timed_step.
Qed.

Ltac timed_prog :=
  repeat first
    [ match goal with
      | |- timed (get_gigachat_token _) => apply timed_get_gigachat_token
      end
    | timed_step ].

Lemma timed_generate_birthday_card name g : timed (generate_birthday_card env name g).
Proof.
  unfold generate_birthday_card, gigachat_generate_image,
    gigachat_generate_image_attempt, post_completion, get_file.
  timed_prog.
Qed.

Lemma timed_logged_send_photo app chat data caption msg :
  timed (logged (send_photo env app chat data caption) msg).
Proof. unfold logged, send_photo. timed_prog. Qed.

(** The body of the card loop after its pause. *)
Lemma daily_card_after_pause app chat name g i st :
  let s1 := if (0 <? i)%nat then slept IMAGE_DELAY st else st in
  exists e,
    events (daily_birthday_check_card env app chat name g i st) =
      (if (0 <? i)%nat
       then [stamped st (EvPrint (LogPause IMAGE_DELAY (i + 1)));
             stamped st (EvSleep IMAGE_DELAY)]
       else []) ++ e
    /\ within (clock s1)
         (clock (final (daily_birthday_check_card env app chat name g i st))) e
    /\ view is_card_call e = [EvCardCall name g].
Proof.
  intro s1.
  set (rest := fun _ : unit =>
         bind (generate_birthday_card env name g)
           (fun card_data =>
              match card_data with
              | Some ((_ :: _) as data) =>
                logged (send_photo env app chat data (card_caption i name))
                  (LogSendCardError chat)
              | _ => ret tt
              end)).
  assert (T : timed (rest tt)).
  { unfold rest. apply timed_bind; [apply timed_generate_birthday_card|].
    intros [[|x c]|]; try apply timed_ret. apply timed_logged_send_photo. }
  assert (V : forall s, view is_card_call (events (rest tt s)) = [EvCardCall name g]).
  { intro s. unfold rest. rewrite events_bind, view_app.
    destruct (card_trace_events env name g s) as (b & E & H).
    rewrite view_map, E. simpl. rewrite filter_app.
    rewrite (filter_class is_card_call image_event b H) by incl. simpl.
    destruct (result (generate_birthday_card env name g s)) as [[|x c]|];
      try reflexivity.
    rewrite logged_run, send_photo_run. simpl.
    destruct (transport_ok app _); reflexivity. }
  change (daily_birthday_check_card env app chat name g i st)
    with (bind (pause_before i) rest st).
  rewrite events_bind, final_bind. unfold pause_before, s1.
  destruct (0 <? i)%nat.
  - exists (events (rest tt (slept IMAGE_DELAY st))). split; [reflexivity|].
    split; [apply (T (slept IMAGE_DELAY st))|apply V].
  - exists (events (rest tt st)). split; [reflexivity|].
    split; [apply (T st)|apply V].
Qed.

End Latency.

(** C7, as the code has it.  The only pacing is the sleep between the
    two cards of one subject.  When no answer takes a negative time, the
    trace of the card loop of one subject is: the events of the first
    card (its call of [generate_birthday_card] with its image requests,
    and its delivery), the print and the sleep, the events of the second
    card; and every event of the second card comes at least 30 seconds
    after every event of the first.  Nothing spaces the image requests of
    different subjects or recipients. *)
Theorem same_subject_cards_paced (env : Env) (app : App) (chat_id : Z)
    (name gender_ : Py.str) (st : State) :
  (forall n, (0 <= latency env n)%Q) ->
  let d := for_each (seq 0 2)
             (daily_birthday_check_card env app chat_id name gender_) st in
  exists e1 p sl e2,
    events d = e1 ++ p :: sl :: e2
    /\ what sl = EvSleep IMAGE_DELAY
    /\ view is_card_call e1 = [EvCardCall name gender_]
    /\ view is_card_call e2 = [EvCardCall name gender_]
    /\ (forall s1 s2, In s1 e1 -> In s2 e2 -> (at_time s1 + 30 <= at_time s2)%Q).
Proof.
  intros L d. subst d. simpl. rewrite events_bind.
  destruct (daily_card_after_pause env L app chat_id name gender_ 0 st)
    as (e1 & E1 & W1 & V1).
  set (s1 := final (daily_birthday_check_card env app chat_id name gender_ 0 st)) in *.
  rewrite events_bind.
  destruct (daily_card_after_pause env L app chat_id name gender_ 1 s1)
    as (e2 & E2 & W2 & V2).
  rewrite E1, E2. simpl in *.
  exists e1, (stamped s1 (EvPrint (LogPause IMAGE_DELAY 2))),
         (stamped s1 (EvSleep IMAGE_DELAY)), e2.
  split; [now rewrite app_nil_r|]. split; [reflexivity|].
  split; [exact V1|]. split; [exact V2|].
  intros x y Ix Iy.
  unfold within in W1, W2. rewrite Forall_forall in W1, W2.
  destruct (W1 x Ix) as [_ Hx]. destruct (W2 y Iy) as [Hy _].
  change (inject_Z IMAGE_DELAY) with 30%Q in Hy. lra.
Qed.

Lemma same_subject_cards_paced_witness :
  (forall n, (0 <= latency Scenario.provider n)%Q)
  /\ exists e1 p sl e2,
       events (for_each (seq 0 2)
                 (daily_birthday_check_card Scenario.provider Scenario.reachable 101
                    (Py.lit "Анна") (Py.lit "f"))
                 (initial_state 1000))
       = e1 ++ p :: sl :: e2
       /\ what sl = EvSleep IMAGE_DELAY
       /\ (forall s1 s2, In s1 e1 -> In s2 e2 -> (at_time s1 + 30 <= at_time s2)%Q).
Proof.
  assert (L : forall n, (0 <= latency Scenario.provider n)%Q)
    by (intro n; apply Qle_refl).
  split; [exact L|].
  destruct (same_subject_cards_paced Scenario.provider Scenario.reachable 101
              (Py.lit "Анна") (Py.lit "f") (initial_state 1000) L)
    as (e1 & p & sl & e2 & E & S & _ & _ & T).
  exists e1, p, sl, e2. split; [exact E|]. split; [exact S|exact T].
Defined.

(** C7, as it is stated, fails: with two subjects due for one recipient
    and a provider that answers at once, the second image request of the
    first subject and the first image request of the second subject are
    made at the same moment. *)
Lemma successive_subjects_not_paced :
  image_request_times
    (events (daily_birthday_check Scenario.two_subjects Scenario.reachable
               (initial_state 1000)))
  = [1000; 1030; 1030; 1060]%Q
  /\ spaced 30
       (image_request_times
          (events (daily_birthday_check Scenario.two_subjects Scenario.reachable
                     (initial_state 1000))))
     = false.
Proof. vm_compute. split; reflexivity. Qed.

(* ================================================================== *)
(** ** More on the token cache *)

Lemma stale_initial t :
  ~ credential_valid (gigachat_token_cache (initial_state t)) (clock (initial_state t)).
Proof. intros (tok & e & H & _). discriminate H. Qed.



(** An answer 200 with [access_token] and without [expires_at]: the line
    that stores the token has run when the lookup of [expires_at] raises,
    so the cache holds the new token with the old expiry, and the call
    returns [None]. *)
Theorem refresh_without_expiry_stores_token (env : Env) (st : State) (tok : Py.str) :
  ~ credential_valid (gigachat_token_cache st) (clock st) ->
  Py.truthy (GIGACHAT_AUTH env) = true ->
  oauth_reply env (tick st) =
    OAuthResponse 200 (Some {| access_token := Some tok; expires_at := None |}) ->
  result (get_gigachat_token env st) = None
  /\ gigachat_token_cache (final (get_gigachat_token env st))
     = {| token := Some tok; expires := expires (gigachat_token_cache st) |}.
Proof.
  intros V K R. rewrite (token_stale_key env st V K).
  unfold get_gigachat_token_resume. run. rewrite R. simpl. split; reflexivity.
Qed.

Lemma refresh_without_expiry_stores_token_witness :
  oauth_reply
    (Case.oauth_answers
       (OAuthResponse 200
          (Some {| access_token := Some (Py.lit "T9"); expires_at := None |})))
    (tick (Scenario.cached_until 1030))
  = OAuthResponse 200
      (Some {| access_token := Some (Py.lit "T9"); expires_at := None |})
  /\ gigachat_token_cache
       (final (get_gigachat_token
                 (Case.oauth_answers
                    (OAuthResponse 200
                       (Some {| access_token := Some (Py.lit "T9");
                                expires_at := None |})))
                 (Scenario.cached_until 1030)))
     = {| token := Some (Py.lit "T9"); expires := Some 1030%Q |}.
Proof.
  split; [reflexivity|].
  destruct (refresh_without_expiry_stores_token
              (Case.oauth_answers
                 (OAuthResponse 200
                    (Some {| access_token := Some (Py.lit "T9");
                             expires_at := None |})))
              (Scenario.cached_until 1030) (Py.lit "T9")) as (_ & C).
  - intros (tok & e & _ & _ & E & _ & L). inversion E; subst e.
    vm_compute in L. discriminate L.
  - reflexivity.
  - reflexivity.
  - exact C.
Defined.

(** Without the authorization key nothing is requested and nothing
    changes, whatever the cache holds that is not valid. *)
Theorem no_key_no_request (env : Env) (st : State) :
  Py.truthy (GIGACHAT_AUTH env) = false ->
  final (get_gigachat_token env st) = st
  /\ count is_oauth (events (get_gigachat_token env st)) = 0%nat
  /\ (~ credential_valid (gigachat_token_cache st) (clock st) ->
      result (get_gigachat_token env st) = None).
Proof.
  intro K.
  destruct (credential_valid_dec (gigachat_token_cache st) (clock st)) as [V|V].
  - rewrite (token_valid env st V). repeat split; auto. contradiction.
  - rewrite (token_stale_no_key env st V K). repeat split; auto.
Qed.

Lemma no_key_no_request_witness :
  Py.truthy (GIGACHAT_AUTH Case.keyless) = false
  /\ result (get_gigachat_token Case.keyless (Scenario.cached_until 1030)) = None.
Proof.
  split; [reflexivity|].
  destruct (no_key_no_request Case.keyless (Scenario.cached_until 1030) eq_refl)
    as (_ & _ & N).
  apply N. intros (tok & e & _ & _ & E & _ & L). inversion E; subst e.
  vm_compute in L. discriminate L.
Defined.

(* ================================================================== *)
(** ** A tag that is not closed *)

Lemma find_at_absent (x : N) (s : Py.str) i :
  ~ In x s -> Py.find_at [x] s i = None.
Proof.
  revert i. induction s as [|y s IH]; intros i H; simpl.
  - reflexivity.
  - destruct (N.eqb_spec x y) as [E|E].
    + exfalso. apply H. left. now symmetry.
    + simpl. apply IH. intro I. apply H. now right.
Qed.

Lemma removelast_firstn_pred {X} (l : list X) :
  removelast l = firstn (List.length l - 1) l.
Proof.
  induction l as [|x l IH]; [reflexivity|].
  destruct l as [|y l]; [reflexivity|].
  change (removelast (x :: y :: l)) with (x :: removelast (y :: l)).
  rewrite IH. simpl. now rewrite Nat.sub_0_r.
Qed.

(** When no double quote follows the marker, [find] gives [-1] and the
    slice [content[start:-1]] is what follows the marker without its
    last character. *)
Theorem extract_file_id_unclosed (pre rest : Py.str) :
  first_at img_marker pre rest ->
  ~ In 34%N rest ->
  extract_file_id (pre ++ img_marker ++ rest) = removelast rest.
Proof.
  intros F1 NQ. unfold extract_file_id.
  set (content := pre ++ img_marker ++ rest).
  assert (Len : List.length content = (List.length pre + 10 + List.length rest)%nat).
  { unfold content. rewrite !length_app, length_img_marker. lia. }
  assert (Fm : Py.find img_marker content 0 = Z.of_nat (List.length pre)).
  { unfold Py.find. rewrite Len.
    destruct (Z.ltb_spec (Z.of_nat (List.length pre + 10 + List.length rest)) 0); [lia|].
    unfold Py.clamp. simpl Z.ltb. cbv iota.
    replace (Z.to_nat (Z.max 0 (Z.min _ 0))) with 0%nat by lia.
    simpl skipn. unfold content. now rewrite find_at_first. }
  rewrite Fm.
  set (start := (List.length pre + 10)%nat).
  replace (Z.of_nat (List.length pre) + 10) with (Z.of_nat start) by (unfold start; lia).
  assert (Sk : skipn start content = rest).
  { unfold content, start. rewrite app_assoc, skipn_app.
    replace (List.length pre + 10 - List.length (pre ++ img_marker))%nat with 0%nat
      by (rewrite length_app, length_img_marker; lia).
    rewrite skipn_all2 by (rewrite length_app, length_img_marker; lia).
    reflexivity. }
  assert (Fq : Py.find Py.quote content (Z.of_nat start) = -1).
  { unfold Py.find. rewrite Len.
    destruct (Z.ltb_spec (Z.of_nat (List.length pre + 10 + List.length rest))
                (Z.of_nat start)); [reflexivity|].
    unfold Py.clamp.
    destruct (Z.ltb_spec (Z.of_nat start) 0); [lia|].
    replace (Z.to_nat (Z.max 0 (Z.min _ (Z.of_nat start)))) with start
      by (unfold start in *; lia).
    rewrite Sk. unfold Py.quote. now rewrite find_at_absent. }
  rewrite Fq. unfold Py.slice, Py.clamp. rewrite Len.
  destruct (Z.ltb_spec (Z.of_nat start) 0); [lia|].
  change (-1 <? 0) with true. cbv iota.
  match goal with
  | |- firstn ?n (skipn ?m _) = _ =>
    replace n with (List.length rest - 1)%nat by (unfold start in *; lia);
    replace m with start by (unfold start in *; lia)
  end.
  rewrite Sk. symmetry. apply removelast_firstn_pred.
Qed.

Lemma extract_file_id_unclosed_witness :
  first_at img_marker (Py.lit "ok ") (Py.lit "abc")
  /\ ~ In 34%N (Py.lit "abc")
  /\ extract_file_id (Py.lit "ok " ++ img_marker ++ Py.lit "abc") = Py.lit "ab".
Proof.
  assert (F : first_at img_marker (Py.lit "ok ") (Py.lit "abc")).
  { intros a b E. destruct a as [|a0 [|a1 [|a2 a]]]; simpl; try lia;
      vm_compute in E; discriminate E. }
  assert (N : ~ In 34%N (Py.lit "abc")).
  { vm_compute. intros [H|[H|[H|[]]]]; discriminate H. }
  split; [exact F|]. split; [exact N|].
  exact (extract_file_id_unclosed (Py.lit "ok ") (Py.lit "abc") F N).
Defined.

(* ================================================================== *)
(** ** More on the daily check *)




Lemma for_each_idle {A} (items : list A) (body : A -> M unit) st :
  (forall x, In x items -> body x st = (tt, st, [])) ->
  for_each items body st = (tt, st, []).
Proof.
  induction items as [|x items IH]; intro H; simpl.
  - reflexivity.
  - unfold bind. rewrite (H x) by now left.
    rewrite IH by (intros y I; apply H; now right). reflexivity.
Qed.

Lemma filter_none {X} (f : X -> bool) (l : list X) :
  (forall x, In x l -> f x = false) -> filter f l = [].
Proof.
  induction l as [|x l IH]; intro H; simpl; [reflexivity|].
  rewrite (H x) by now left. apply IH. intros y I. apply H. now right.
Qed.

(** On a day when no stored birthday is due, the daily check does
    nothing: no request, no sleep, no message, and the state is as it
    was. *)
Theorem quiet_day (env : Env) (app : App) (st : State) :
  (forall n code b, In b (stored_birthdays env n code) -> due_at env (clock st) b = false) ->
  daily_birthday_check env app st = (tt, st, []).
Proof.
  intro H. unfold daily_birthday_check. apply for_each_idle.
  intros [chat code] _. unfold daily_birthday_check_recipient, load_birthdays,
    get_birthdays_today, bind, now, ret. simpl.
  rewrite filter_none; [reflexivity|]. intros b I. apply (H _ _ _ I).
Qed.

Lemma quiet_day_witness :
  (forall n code b,
     In b (stored_birthdays Case.tomorrow n code) ->
     due_at Case.tomorrow (clock (initial_state 1000)) b = false)
  /\ events (daily_birthday_check Case.tomorrow Scenario.reachable (initial_state 1000))
     = [].
Proof.
  assert (H : forall n code b,
     In b (stored_birthdays Case.tomorrow n code) ->
     due_at Case.tomorrow (clock (initial_state 1000)) b = false)
    by (intros n code b [E|[]]; subst b; reflexivity).
  split; [exact H|].
  rewrite (quiet_day Case.tomorrow Scenario.reachable (initial_state 1000) H).
  reflexivity.
Defined.

(* ================================================================== *)
(** ** More on the retried requests *)

(** The loop returns at the first attempt that succeeds: when the token
    is there and the first completion request is answered 200 with a
    content, [gigachat_request] returns this content (be it the empty
    string) after one call of [get_gigachat_token] and one request,
    whatever [max_retries] above zero; and [gigachat_generate_image]
    returns the bytes after one completion request and one download when
    the content has the marker and the download is answered 200. *)
Theorem first_success_ends_retries (env : Env) (n : nat) (st : State)
    (bearer content : Py.str) :
  let t := get_gigachat_token env st in
  result t = Some bearer -> bearer <> [] ->
  completion_content (completion_reply env (tick (final t))) = Some content ->
  (forall messages,
     let r := gigachat_request env messages (S n) st in
     result r = Some content
     /\ count is_completion (events r) = 1%nat
     /\ count is_token_result (events r) = 1%nat)
  /\ (forall prompt data,
        Py.contains img_marker content = true ->
        download_payload (download_reply env (S (tick (final t)))) = Some data ->
        let r := gigachat_generate_image env prompt (S n) st in
        result r = Some data
        /\ count is_completion (events r) = 1%nat
        /\ count is_download (events r) = 1%nat).
Proof.
  intros t R N C. destruct bearer as [|c0 b0]; [contradiction|].
  destruct (token_trace env st) as (pre & Et & Hpre). fold t in Et.
  assert (Cpre : forall p, (forall e, oauth_or_print e = true -> p e = false) ->
                 count p pre = 0%nat)
    by (intros p D; apply (count_class p oauth_or_print pre Hpre D)).
  split.
  - intros messages r. subst r. unfold gigachat_request. simpl.
    pose proof (request_attempt_run env messages 0 st) as A. simpl in A.
    fold t in A. rewrite R in A. destruct A as (prints & Ev & Hp & _ & Res).
    rewrite C in Res. run. rewrite Res. simpl. rewrite app_nil_r, Ev, Et, R.
    split; [reflexivity|].
    rewrite !count_app, !count_cons.
    rewrite (Cpre is_completion), (Cpre is_token_result) by incl.
    rewrite (count_class is_completion is_print prints Hp) by incl.
    rewrite (count_class is_token_result is_print prints Hp) by incl.
    split; reflexivity.
  - intros prompt data MK DP r. subst r. unfold gigachat_generate_image. simpl.
    pose proof (image_attempt_run env prompt 0 st) as A. simpl in A.
    fold t in A. rewrite R, C, MK in A.
    destruct A as (p1 & p2 & Ev & H1 & H2 & Res).
    rewrite DP in Res. run. rewrite Res. simpl. rewrite app_nil_r, Ev, Et, R.
    split; [reflexivity|].
    rewrite !count_app, !count_cons, !count_app, !count_cons.
    rewrite (Cpre is_completion), (Cpre is_download) by incl.
    rewrite (count_class is_completion is_print p1 H1) by incl.
    rewrite (count_class is_download is_print p1 H1) by incl.
    rewrite (count_class is_completion is_print p2 H2) by incl.
    rewrite (count_class is_download is_print p2 H2) by incl.
    split; reflexivity.
Qed.

Lemma first_success_ends_retries_witness :
  result (get_gigachat_token Scenario.provider (initial_state 1000))
  = Some (Py.lit "T2")
  /\ count is_completion
       (events (gigachat_request Scenario.provider [] 2 (initial_state 1000)))
     = 1%nat.
Proof.
  assert (R : result (get_gigachat_token Scenario.provider (initial_state 1000))
              = Some (Py.lit "T2")) by (vm_compute; reflexivity).
  split; [exact R|].
  destruct (first_success_ends_retries Scenario.provider 1 (initial_state 1000)
              (Py.lit "T2") (Scenario.tagged (Py.lit "file-1")) R) as (T & _).
  - vm_compute. discriminate.
  - vm_compute. reflexivity.
  - destruct (T []) as (_ & Cn & _). exact Cn.
Defined.

(* ================================================================== *)
(** ** The pacing of the pipeline in time *)





(* ================================================================== *)
(** ** What is cached *)

Section Keeps.

Context {A B : Type}.
Variable P : State -> Prop.



End Keeps.











(* ================================================================== *)
(** ** The order of a month's list *)

Lemma insert_by_day_In b x l : In x (insert_by_day b l) <-> x = b \/ In x l.
Proof.
  induction l as [|y l IH]; simpl.
  - intuition.
  - destruct (day b <=? day y); simpl; [intuition|]. rewrite IH. intuition.
Qed.

Lemma insert_by_day_perm b l : Permutation (insert_by_day b l) (b :: l).
Proof.
  induction l as [|y l IH]; simpl.
  - apply Permutation_refl.
  - destruct (day b <=? day y); [apply Permutation_refl|].
    eapply perm_trans; [apply perm_skip, IH|apply perm_swap].
Qed.

Lemma insert_by_day_sorted b l :
  StronglySorted (fun a b => day a <= day b) l ->
  StronglySorted (fun a b => day a <= day b) (insert_by_day b l).
Proof.
  induction 1 as [|y l S IH F]; simpl.
  - constructor; constructor.
  - destruct (day b <=? day y) eqn:E.
    + apply Z.leb_le in E. constructor; [constructor; assumption|].
      constructor; [exact E|].
      eapply Forall_impl; [|exact F]. simpl. intros. lia.
    + apply Z.leb_gt in E. constructor; [exact IH|].
      apply Forall_forall. intros x Hx. apply insert_by_day_In in Hx.
      destruct Hx as [->|Hx]; [lia|].
      rewrite Forall_forall in F. apply F, Hx.
Qed.

Lemma filter_insert_by_day d b l :
  filter (fun x => day x =? d) (insert_by_day b l)
  = filter (fun x => day x =? d) (b :: l).
Proof.
  induction l as [|y l IH]; [reflexivity|].
  cbn [insert_by_day]. destruct (day b <=? day y) eqn:E; [reflexivity|].
  apply Z.leb_gt in E. cbn [filter] in *. rewrite IH.
  destruct (day y =? d) eqn:Y, (day b =? d) eqn:B; try reflexivity.
  apply Z.eqb_eq in Y, B. lia.
Qed.

(** [month_bdays.sort(key=lambda x: x["day"])] in
    [monthly_reminder] and [show_month]: the list that is sent holds the
    birthdays of the month, each as often as it is stored, by day in
    ascending order, those of one day in the order of the file. *)
Theorem month_list_in_day_order (l : list Birthday) :
  Permutation (sort_by_day l) l
  /\ StronglySorted (fun a b => day a <= day b) (sort_by_day l)
  /\ (forall d, filter (fun b => day b =? d) (sort_by_day l)
                = filter (fun b => day b =? d) l).
Proof.
  induction l as [|b l (P & S & F)].
  - split; [apply Permutation_refl|]. split; [constructor|reflexivity].
  - change (sort_by_day (b :: l)) with (insert_by_day b (sort_by_day l)).
    split; [|split].
    + eapply perm_trans; [apply insert_by_day_perm|apply perm_skip, P].
    + apply insert_by_day_sorted, S.
    + intro d. rewrite filter_insert_by_day. cbn [filter]. rewrite F. reflexivity.
Qed.

(* ================================================================== *)
(** ** The files and the sessions *)

Lemma eqb_eq (a b : Py.str) : Py.eqb a b = true <-> a = b.
Proof.
  revert b. induction a as [|x a IH]; intros [|y b]; simpl;
    try (split; [reflexivity || discriminate|reflexivity || discriminate]).
  rewrite andb_true_iff, N.eqb_eq, IH. split.
  - intros [-> ->]. reflexivity.
  - intro H. injection H. auto.
Qed.

Lemma eqb_neq (a b : Py.str) : a <> b -> Py.eqb a b = false.
Proof.
  intro H. destruct (Py.eqb a b) eqn:E; [|reflexivity].
  apply eqb_eq in E. contradiction.
Qed.

Lemma get_user_file_inj a b :
  Commands.get_user_file a = Commands.get_user_file b -> a = b.
Proof.
  unfold Commands.get_user_file. intro H.
  apply app_inv_head in H. apply app_inv_tail in H. exact H.
Qed.

Lemma load_save_same code l d :
  Commands.load_birthdays code (Commands.save_birthdays code l d) = l.
Proof.
  unfold Commands.load_birthdays, Commands.save_birthdays. cbn [Commands.files].
  rewrite eqb_refl. reflexivity.
Qed.

Lemma load_save_other code code' l d :
  code' <> code ->
  Commands.load_birthdays code' (Commands.save_birthdays code l d)
  = Commands.load_birthdays code' d.
Proof.
  intro H. unfold Commands.load_birthdays, Commands.save_birthdays.
  cbn [Commands.files]. rewrite eqb_neq; [reflexivity|].
  intro E. apply get_user_file_inj in E. contradiction.
Qed.

(** [save_birthdays] and [load_birthdays]: what is saved for a code
    is what is loaded for it; the lists of the other codes and the
    sessions are as before; a code without a file has the empty list. *)
Theorem saved_list_is_loaded (code code' : Py.str) (l : list Birthday)
    (d : Commands.Disk) :
  Commands.load_birthdays code (Commands.save_birthdays code l d) = l
  /\ (code' <> code ->
      Commands.load_birthdays code' (Commands.save_birthdays code l d)
      = Commands.load_birthdays code' d)
  /\ Commands.load_sessions (Commands.save_birthdays code l d)
     = Commands.load_sessions d
  /\ (Commands.files d (Commands.get_user_file code) = None ->
      Commands.load_birthdays code d = []).
Proof.
  split; [apply load_save_same|]. split; [apply load_save_other|].
  split; [reflexivity|].
  intro H. unfold Commands.load_birthdays. rewrite H. reflexivity.
Qed.

Lemma saved_list_is_loaded_witness :
  Commands.load_birthdays (Py.lit "7")
    (Commands.save_birthdays (Py.lit "2") [Scenario.anna] Commands.empty_disk) = []
  /\ Commands.load_birthdays (Py.lit "2")
       (Commands.save_birthdays (Py.lit "2") [Scenario.anna] Commands.empty_disk)
     = [Scenario.anna].
Proof.
  destruct (saved_list_is_loaded (Py.lit "2") (Py.lit "7") [Scenario.anna]
              Commands.empty_disk) as (A & B & _ & C).
  split; [|exact A].
  rewrite B; [|intro H; vm_compute in H; discriminate].
  apply (proj2 (proj2 (proj2 (saved_list_is_loaded (Py.lit "7") (Py.lit "7") []
                                Commands.empty_disk)))).
  reflexivity.
Defined.

Lemma get_set_same k v d : Commands.get k (Commands.set k v d) = Some v.
Proof.
  induction d as [|[k' v'] d IH]; simpl.
  - rewrite Z.eqb_refl. reflexivity.
  - destruct (k' =? k) eqn:E; simpl; [rewrite Z.eqb_refl; reflexivity|].
    rewrite E. exact IH.
Qed.

Lemma get_set_other k k' v d :
  k' <> k -> Commands.get k' (Commands.set k v d) = Commands.get k' d.
Proof.
  intro H. induction d as [|[k0 v0] d IH]; simpl.
  - destruct (k =? k') eqn:E; [apply Z.eqb_eq in E; congruence|reflexivity].
  - destruct (k0 =? k) eqn:E; simpl.
    + apply Z.eqb_eq in E. subst k0.
      destruct (k =? k') eqn:E'; [apply Z.eqb_eq in E'; congruence|reflexivity].
    + rewrite IH. reflexivity.
Qed.

Lemma In_set k v d x :
  In x (Commands.set k v d) -> x = (k, v) \/ In x d.
Proof.
  induction d as [|[k0 v0] d IH]; simpl.
  - intuition.
  - destruct (k0 =? k); simpl; intuition.
Qed.

Lemma keys_set k v d :
  exists later, map fst (Commands.set k v d) = map fst d ++ later.
Proof.
  induction d as [|[k0 v0] d (later & IH)]; simpl.
  - exists [k]. reflexivity.
  - destruct (k0 =? k) eqn:E; simpl.
    + apply Z.eqb_eq in E. subst. exists []. rewrite app_nil_r. reflexivity.
    + exists later. rewrite IH. reflexivity.
Qed.

Lemma lookup_In {V} code (d : list (Py.str * V)) :
  Commands.lookup code d <> None <-> In code (map fst d).
Proof.
  induction d as [|[k v] d IH]; simpl.
  - intuition.
  - destruct (Py.eqb k code) eqn:E.
    + apply eqb_eq in E. split; [auto|discriminate].
    + rewrite IH. split; [auto|]. intros [H|H]; [|exact H].
      apply eqb_eq in H. congruence.
Qed.

(** [check_code]: the stripped text of the message is accepted
    when it is a code of [USERS]: the chat then has this code as its
    session, the other chats keep theirs, the file of the sessions holds
    the dictionary, so that a restart finds it, no list is touched and the
    conversation ends.  Any other text changes nothing and the
    conversation goes on waiting for a code. *)
Theorem check_code_signs_in (py : Py.StrMethods) (message_text : Py.str)
    (chat_id : Z) (bot : Commands.Bot) :
  let code := Py.strip py message_text in
  let bot' := fst (fst (Commands.check_code py message_text chat_id bot)) in
  let next := snd (Commands.check_code py message_text chat_id bot) in
  (In code (map fst Commands.USERS) ->
     Commands.get_code_by_chat_id chat_id bot' = Some code
     /\ (forall other, other <> chat_id ->
           Commands.get_code_by_chat_id other bot'
           = Commands.get_code_by_chat_id other bot)
     /\ Commands.started_on (Commands.disk bot') = bot'
     /\ Commands.files (Commands.disk bot') = Commands.files (Commands.disk bot)
     /\ next = Commands.END)
  /\ (~ In code (map fst Commands.USERS) ->
        bot' = bot /\ next = Commands.WAITING_CODE).
Proof.
  cbv zeta. unfold Commands.check_code.
  destruct (Commands.lookup (Py.strip py message_text) Commands.USERS) eqn:L.
  - split.
    + intros _. cbn [fst snd]. unfold Commands.get_code_by_chat_id.
      cbn [Commands.sessions Commands.disk].
      split; [apply get_set_same|].
      split; [intros; apply get_set_other; assumption|].
      repeat split.
    + intro H. exfalso. apply H. apply lookup_In. rewrite L. discriminate.
  - split.
    + intro H. apply lookup_In in H. contradiction.
    + intros _. split; reflexivity.
Qed.

Lemma check_code_signs_in_witness :
  Commands.get_code_by_chat_id 101
    (fst (fst (Commands.check_code Scenario.as_is (Py.lit "7") 101
                 (Commands.started_on Commands.empty_disk))))
  = Some (Py.lit "7")
  /\ fst (fst (Commands.check_code Scenario.as_is (Py.lit "8") 101
                 (Commands.started_on Commands.empty_disk)))
     = Commands.started_on Commands.empty_disk.
Proof.
  split.
  - apply (check_code_signs_in Scenario.as_is (Py.lit "7") 101
             (Commands.started_on Commands.empty_disk)).
    vm_compute. auto 10.
  - apply (check_code_signs_in Scenario.as_is (Py.lit "8") 101
             (Commands.started_on Commands.empty_disk)).
    vm_compute. intuition discriminate.
Defined.

(* ================================================================== *)
(** ** What the handlers keep *)

Lemma fst_show_month now_ now' chat_id bot :
  fst (Commands.show_month now_ now' chat_id bot) = bot.
Proof.
  unfold Commands.show_month.
  destruct (Commands.get_code_by_chat_id chat_id bot) as [[|? ?]|]; reflexivity.
Qed.

Lemma fst_show_list chat_id bot : fst (Commands.show_list chat_id bot) = bot.
Proof.
  unfold Commands.show_list.
  destruct (Commands.get_code_by_chat_id chat_id bot) as [[|? ?]|];
    try reflexivity.
  destruct (Commands.load_birthdays _ _); [reflexivity|].
  destruct (Commands.show_list_text _); reflexivity.
Qed.

Lemma parse_date_bounds int_ s d m :
  Commands.parse_date int_ s = Some (d, m) -> Commands.in_bounds d m = true.
Proof.
  unfold Commands.parse_date.
  destruct (Commands.split 46 s) as [|a [|b [|? ?]]]; try discriminate.
  destruct (int_ a); try discriminate. destruct (int_ b); try discriminate.
  destruct (Commands.in_bounds z z0) eqn:E; [|discriminate].
  intro H. injection H as <- <-. exact E.
Qed.

Lemma pop_In {X} i (l : list X) x rest :
  Commands.pop i l = Some (x, rest) -> forall y, In y rest -> In y l.
Proof.
  revert i x rest. induction l as [|z l IH]; intros [|i] x rest; simpl;
    try discriminate.
  - intro H. injection H as <- <-. auto.
  - destruct (Commands.pop i l) as [[r rs]|] eqn:E; [|discriminate].
    intro H. injection H as <- <-. intros y [->|Hy]; [auto|].
    right. eapply IH; eassumption.
Qed.

Lemma load_In code d b :
  In b (Commands.load_birthdays code d) ->
  exists l, Commands.files d (Commands.get_user_file code) = Some l /\ In b l.
Proof.
  unfold Commands.load_birthdays.
  destruct (Commands.files d (Commands.get_user_file code)) as [l|]; [|intros []].
  intro H. exists l. auto.
Qed.

(** The calls that write. *)
Lemma handle_reads py int_ call chat_id bot :
  match call with
  | Commands.CheckCode _ | Commands.AddBirthday _ | Commands.DelBirthday _ => True
  | _ => fst (Commands.handle py int_ call chat_id bot) = bot
  end.
Proof.
  destruct call; try exact I; try reflexivity.
  - apply fst_show_month.
  - apply fst_show_list.
Qed.

Lemma add_birthday_cases int_ args chat_id bot :
  fst (Commands.add_birthday int_ args chat_id bot) = bot
  \/ exists code d m,
       Commands.get_code_by_chat_id chat_id bot = Some code /\ code <> []
       /\ (2 <= List.length args)%nat
       /\ Commands.parse_date int_ (last args []) = Some (d, m)
       /\ Commands.add_birthday int_ args chat_id bot
          = ({| Commands.sessions := Commands.sessions bot;
                Commands.disk :=
                  Commands.save_birthdays code
                    (Commands.load_birthdays code (Commands.disk bot)
                     ++ [{| day := d; month := m;
                            name := Py.join (Py.lit " ") (removelast args) |}])
                    (Commands.disk bot) |},
             [Commands.plain
                (Commands.added_text (Py.join (Py.lit " ") (removelast args)) d m)]).
Proof.
  unfold Commands.add_birthday.
  destruct (Commands.get_code_by_chat_id chat_id bot) as [[|c code]|];
    [left; reflexivity| |left; reflexivity].
  destruct (List.length args <? 2)%nat eqn:L; [left; reflexivity|].
  apply Nat.ltb_ge in L.
  destruct (Commands.parse_date int_ (last args [])) as [[d m]|] eqn:P;
    [|left; reflexivity].
  right. exists (c :: code), d, m.
  split; [reflexivity|]. split; [discriminate|]. split; [exact L|].
  split; reflexivity.
Qed.

Lemma del_birthday_cases py args chat_id bot :
  fst (Commands.del_birthday py args chat_id bot) = bot
  \/ exists code found removed rest,
       Commands.get_code_by_chat_id chat_id bot = Some code /\ code <> []
       /\ Commands.pop found (Commands.load_birthdays code (Commands.disk bot))
          = Some (removed, rest)
       /\ Commands.del_birthday py args chat_id bot
          = ({| Commands.sessions := Commands.sessions bot;
                Commands.disk :=
                  Commands.save_birthdays code rest (Commands.disk bot) |},
             [Commands.plain (Commands.removed_text removed)]).
Proof.
  unfold Commands.del_birthday.
  destruct (Commands.get_code_by_chat_id chat_id bot) as [[|c code]|];
    [left; reflexivity| |left; reflexivity].
  destruct args as [|a args]; [left; reflexivity|].
  destruct (Commands.first_index _ _) as [found|]; [|left; reflexivity].
  destruct (Commands.pop found _) as [[removed rest]|] eqn:P; [|left; reflexivity].
  right. exists (c :: code), found, removed, rest.
  split; [reflexivity|]. split; [discriminate|]. split; [exact P|reflexivity].
Qed.

Lemma well_formed_save code l bot :
  Commands.well_formed bot ->
  (forall b, In b l ->
     In b (Commands.load_birthdays code (Commands.disk bot))
     \/ Commands.in_bounds (day b) (month b) = true) ->
  Commands.well_formed {| Commands.sessions := Commands.sessions bot;
                 Commands.disk := Commands.save_birthdays code l (Commands.disk bot) |}.
Proof.
  intros (S & K & D) H. split; [exact S|]. split; [exact K|].
  intros path l' F b Hb. cbn [Commands.disk Commands.save_birthdays Commands.files] in F.
  destruct (Py.eqb path (Commands.get_user_file code)).
  - injection F as <-. destruct (H b Hb) as [Hl|Hl]; [|exact Hl].
    apply load_In in Hl. destruct Hl as (l0 & F0 & I0). eapply D; eassumption.
  - eapply D; eassumption.
Qed.

Lemma handle_well_formed py int_ call chat_id bot :
  Commands.well_formed bot ->
  Commands.well_formed (fst (Commands.handle py int_ call chat_id bot)).
Proof.
  intro W. pose proof (handle_reads py int_ call chat_id bot) as R.
  destruct call; try (rewrite R; exact W); clear R; cbn [Commands.handle].
  - unfold Commands.check_code.
    destruct (Commands.lookup (Py.strip py message_text) Commands.USERS) eqn:L;
      [|exact W].
    destruct W as (S & K & D). cbn [fst]. split; [reflexivity|]. split.
    + intros c code H. cbn [Commands.sessions] in H. apply In_set in H.
      destruct H as [H|H]; [|eapply K; exact H].
      injection H as -> ->. rewrite L. discriminate.
    + exact D.
  - destruct (add_birthday_cases int_ args chat_id bot)
      as [->|(code & d & m & _ & _ & _ & P & ->)]; [exact W|].
    cbn [fst]. apply well_formed_save; [exact W|].
    intros b Hb. apply in_app_or in Hb. destruct Hb as [Hb|[<-|[]]]; [auto|].
    right. exact (parse_date_bounds _ _ _ _ P).
  - destruct (del_birthday_cases py args chat_id bot)
      as [->|(code & found & removed & rest & _ & _ & P & ->)]; [exact W|].
    cbn [fst]. apply well_formed_save; [exact W|].
    intros b Hb. left. eapply pop_In; eassumption.
Qed.

Lemma handle_all_well_formed py int_ updates bot :
  Commands.well_formed bot ->
  Commands.well_formed (Commands.handle_all py int_ updates bot).
Proof.
  revert bot. induction updates as [|[call chat_id] updates IH]; intros bot W.
  - exact W.
  - apply IH, handle_well_formed, W.
Qed.

(** The handlers, run on any updates in any order from a start on
    files whose session codes are codes of [USERS] and whose dates are in
    bounds: every session still has a code of [USERS], every stored date
    has its day in [1 .. 31] and its month in [1 .. 12], and the files
    hold the sessions, so that a restart gives the same state. *)
Theorem stored_state_stays_well_formed (py : Py.StrMethods)
    (int_ : Py.str -> option Z) (d : Commands.Disk)
    (updates : list (Commands.Call * Z)) :
  Commands.known_codes (Commands.started_on d) ->
  Commands.dates_in_bounds (Commands.started_on d) ->
  let bot := Commands.handle_all py int_ updates (Commands.started_on d) in
  Commands.known_codes bot
  /\ Commands.dates_in_bounds bot
  /\ Commands.started_on (Commands.disk bot) = bot.
Proof.
  intros K D bot.
  assert (W : Commands.well_formed bot).
  { apply handle_all_well_formed. split; [reflexivity|]. split; assumption. }
  destruct W as (S & K' & D'). split; [exact K'|]. split; [exact D'|].
  unfold Commands.saved in S. destruct bot as [s dk]. unfold Commands.started_on.
  cbn [Commands.disk Commands.sessions] in *. rewrite S. reflexivity.
Qed.

Lemma stored_state_stays_well_formed_witness :
  let bot :=
    Commands.handle_all Scenario.as_is Commands.int_of_digits
      [(Commands.CheckCode (Py.lit "7"), 101);
       (Commands.AddBirthday [Py.lit "Anna"; Py.lit "3.11"], 101)]
      (Commands.started_on Commands.empty_disk) in
  Commands.load_birthdays (Py.lit "7") (Commands.disk bot)
  = [{| day := 3; month := 11; name := Py.lit "Anna" |}]
  /\ Commands.dates_in_bounds bot.
Proof.
  split; [vm_compute; reflexivity|].
  apply (stored_state_stays_well_formed Scenario.as_is Commands.int_of_digits
           Commands.empty_disk).
  - intros c code H. destruct H.
  - intros path l H. discriminate H.
Defined.

Lemma handle_sessions py int_ call chat_id bot :
  Commands.sessions (fst (Commands.handle py int_ call chat_id bot))
  = Commands.sessions bot
  \/ exists code,
       Commands.sessions (fst (Commands.handle py int_ call chat_id bot))
       = Commands.set chat_id code (Commands.sessions bot).
Proof.
  pose proof (handle_reads py int_ call chat_id bot) as R.
  destruct call; try (rewrite R; left; reflexivity); clear R; cbn [Commands.handle].
  - unfold Commands.check_code.
    destruct (Commands.lookup _ _); [|left; reflexivity].
    right. eexists. reflexivity.
  - destruct (add_birthday_cases int_ args chat_id bot)
      as [->|(code & d & m & _ & _ & _ & _ & ->)]; left; reflexivity.
  - destruct (del_birthday_cases py args chat_id bot)
      as [->|(code & found & removed & rest & _ & _ & _ & ->)]; left; reflexivity.
Qed.

Lemma handle_lists py int_ call chat_id bot code :
  Commands.get_code_by_chat_id chat_id bot <> Some code ->
  Commands.load_birthdays code (Commands.disk (fst (Commands.handle py int_ call chat_id bot)))
  = Commands.load_birthdays code (Commands.disk bot).
Proof.
  intro H. pose proof (handle_reads py int_ call chat_id bot) as R.
  destruct call; try (rewrite R; reflexivity); clear R; cbn [Commands.handle].
  - unfold Commands.check_code. destruct (Commands.lookup _ _); reflexivity.
  - destruct (add_birthday_cases int_ args chat_id bot)
      as [->|(c & d & m & G & _ & _ & _ & ->)]; [reflexivity|].
    cbn [fst Commands.disk]. apply load_save_other. congruence.
  - destruct (del_birthday_cases py args chat_id bot)
      as [->|(c & found & removed & rest & G & _ & _ & ->)]; [reflexivity|].
    cbn [fst Commands.disk]. apply load_save_other. congruence.
Qed.

(** An update from one chat changes the session of no other chat,
    and changes the list of no code but the one the chat is signed in
    with: a chat that is not signed in changes no list at all. *)
Theorem update_touches_own_only (py : Py.StrMethods) (int_ : Py.str -> option Z)
    (call : Commands.Call) (chat_id : Z) (bot : Commands.Bot) :
  let bot' := fst (Commands.handle py int_ call chat_id bot) in
  (forall other, other <> chat_id ->
     Commands.get_code_by_chat_id other bot'
     = Commands.get_code_by_chat_id other bot)
  /\ (forall code, Commands.get_code_by_chat_id chat_id bot <> Some code ->
        Commands.load_birthdays code (Commands.disk bot')
        = Commands.load_birthdays code (Commands.disk bot))
  /\ (Commands.get_code_by_chat_id chat_id bot = None ->
        forall path, Commands.files (Commands.disk bot') path
                     = Commands.files (Commands.disk bot) path).
Proof.
  cbv zeta. split; [|split].
  - intros other H. unfold Commands.get_code_by_chat_id.
    destruct (handle_sessions py int_ call chat_id bot) as [->|(code & ->)];
      [reflexivity|].
    apply get_set_other, H.
  - intros code H. apply handle_lists, H.
  - intros H path. pose proof (handle_reads py int_ call chat_id bot) as R.
    destruct call; try (rewrite R; reflexivity); clear R; cbn [Commands.handle].
    + unfold Commands.check_code. destruct (Commands.lookup _ _); reflexivity.
    + destruct (add_birthday_cases int_ args chat_id bot)
        as [->|(c & d & m & G & _)]; [reflexivity|congruence].
    + destruct (del_birthday_cases py args chat_id bot)
        as [->|(c & found & removed & rest & G & _)]; [reflexivity|congruence].
Qed.

Lemma update_touches_own_only_witness :
  let bot :=
    Commands.handle_all Scenario.as_is Commands.int_of_digits
      [(Commands.CheckCode (Py.lit "7"), 101);
       (Commands.CheckCode (Py.lit "2"), 102);
       (Commands.AddBirthday [Py.lit "Anna"; Py.lit "3.11"], 101)]
      (Commands.started_on Commands.empty_disk) in
  let bot' :=
    fst (Commands.handle Scenario.as_is Commands.int_of_digits
           (Commands.DelBirthday [Py.lit "Anna"]) 102 bot) in
  Commands.load_birthdays (Py.lit "7") (Commands.disk bot')
  = [{| day := 3; month := 11; name := Py.lit "Anna" |}]
  /\ Commands.get_code_by_chat_id 101 bot' = Some (Py.lit "7").
Proof.
  cbv zeta. split.
  - rewrite (proj1 (proj2 (update_touches_own_only Scenario.as_is
                             Commands.int_of_digits
                             (Commands.DelBirthday [Py.lit "Anna"]) 102 _))).
    + vm_compute. reflexivity.
    + vm_compute. discriminate.
  - rewrite (proj1 (update_touches_own_only Scenario.as_is
                      Commands.int_of_digits
                      (Commands.DelBirthday [Py.lit "Anna"]) 102 _)).
    + vm_compute. reflexivity.
    + lia.
Defined.

(** No handler closes a session or moves one: after any updates
    the chats of the dictionary [sessions] are those it had, in the same
    order, followed by the chats that signed in since.  This is the order
    in which the scheduled loops visit the recipients. *)
Theorem sessions_only_grow (py : Py.StrMethods) (int_ : Py.str -> option Z)
    (updates : list (Commands.Call * Z)) (bot : Commands.Bot) :
  exists later,
    map fst (Commands.sessions (Commands.handle_all py int_ updates bot))
    = map fst (Commands.sessions bot) ++ later.
Proof.
  revert bot. induction updates as [|[call chat_id] updates IH]; intro bot.
  - exists []. rewrite app_nil_r. reflexivity.
  - cbn [Commands.handle_all].
    destruct (IH (fst (Commands.handle py int_ call chat_id bot))) as (later & E).
    rewrite E.
    destruct (handle_sessions py int_ call chat_id bot) as [->|(code & ->)].
    + exists later. reflexivity.
    + destruct (keys_set chat_id code (Commands.sessions bot)) as (l1 & ->).
      exists (l1 ++ later). rewrite app_assoc. reflexivity.
Qed.

(* ================================================================== *)
(** ** [add_birthday] and [del_birthday] *)

Lemma split_nonempty sep s : Commands.split sep s <> [].
Proof.
  destruct s as [|c s]; simpl; [discriminate|].
  destruct (c =? sep)%N; [discriminate|].
  destruct (Commands.split sep s); discriminate.
Qed.

Lemma split_one_inv sep s b :
  Commands.split sep s = [b] -> s = b /\ ~ In sep b.
Proof.
  revert b. induction s as [|c s IH]; intros b; simpl.
  - intro H. injection H as <-. auto.
  - destruct (c =? sep)%N eqn:E.
    + intro H. injection H as _ H. destruct (split_nonempty _ _ H).
    + destruct (Commands.split sep s) as [|part parts] eqn:S.
      * destruct (split_nonempty _ _ S).
      * intro H. injection H as <- ->. destruct (IH part eq_refl) as (-> & N).
        split; [reflexivity|]. intros [H|H]; [|auto].
        subst c. rewrite N.eqb_refl in E. discriminate.
Qed.

Lemma split_two_inv sep s a b :
  Commands.split sep s = [a; b] ->
  s = a ++ sep :: b /\ ~ In sep a /\ ~ In sep b.
Proof.
  revert a. induction s as [|c s IH]; intros a; simpl.
  - discriminate.
  - destruct (c =? sep)%N eqn:E.
    + intro H. injection H as <- H. apply split_one_inv in H.
      destruct H as (-> & N). apply N.eqb_eq in E. subst c. auto.
    + destruct (Commands.split sep s) as [|part parts] eqn:S.
      * destruct (split_nonempty _ _ S).
      * intro H. injection H as <- ->. destruct (IH part eq_refl) as (-> & Na & Nb).
        split; [reflexivity|]. split; [|exact Nb]. intros [H|H]; [|auto].
        subst c. rewrite N.eqb_refl in E. discriminate.
Qed.

Lemma split_one sep b : ~ In sep b -> Commands.split sep b = [b].
Proof.
  induction b as [|c b IH]; simpl; [reflexivity|]. intro N.
  destruct (c =? sep)%N eqn:E.
  - apply N.eqb_eq in E. exfalso. auto.
  - rewrite IH by auto. reflexivity.
Qed.

Lemma split_two sep a b :
  ~ In sep a -> ~ In sep b -> Commands.split sep (a ++ sep :: b) = [a; b].
Proof.
  intros Na Nb. induction a as [|c a IH]; simpl.
  - rewrite N.eqb_refl, split_one by exact Nb. reflexivity.
  - destruct (c =? sep)%N eqn:E.
    + apply N.eqb_eq in E. exfalso. apply Na. left. exact E.
    + rewrite IH; [reflexivity|]. intro H. apply Na. right. exact H.
Qed.

Lemma in_bounds_iff d m :
  Commands.in_bounds d m = true <-> 1 <= d <= 31 /\ 1 <= m <= 12.
Proof.
  unfold Commands.in_bounds. rewrite !andb_true_iff, !Z.leb_le. lia.
Qed.

(** The dates that pass lines 457-463. *)
Lemma parse_date_iff int_ s d m :
  Commands.parse_date int_ s = Some (d, m)
  <-> exists a b,
        s = a ++ 46%N :: b /\ ~ In 46%N a /\ ~ In 46%N b
        /\ int_ a = Some d /\ int_ b = Some m
        /\ 1 <= d <= 31 /\ 1 <= m <= 12.
Proof.
  split.
  - intro H. pose proof (parse_date_bounds _ _ _ _ H) as B. apply in_bounds_iff in B.
    unfold Commands.parse_date in H.
    destruct (Commands.split 46 s) as [|a [|b [|? ?]]] eqn:S; try discriminate.
    apply split_two_inv in S. destruct S as (-> & Na & Nb).
    destruct (int_ a) as [x|] eqn:A; try discriminate.
    destruct (int_ b) as [y|] eqn:Bq; try discriminate.
    destruct (Commands.in_bounds x y); [|discriminate].
    injection H as <- <-. exists a, b. tauto.
  - intros (a & b & -> & Na & Nb & A & B & Hd & Hm).
    unfold Commands.parse_date. rewrite split_two, A, B by assumption.
    rewrite (proj2 (in_bounds_iff d m)) by tauto. reflexivity.
Qed.

Lemma args_split (args : list Py.str) :
  (2 <= List.length args)%nat ->
  args = removelast args ++ [last args []] /\ removelast args <> [].
Proof.
  intro L. split.
  - apply app_removelast_last. intro H. subst. simpl in L. lia.
  - destruct args as [|a [|b args]]; simpl in *; try lia. discriminate.
Qed.

(** [add_birthday]: an entry is stored exactly when the chat is
    signed in, there is a name before the last argument, and the last
    argument is two texts without a dot, joined by a dot, that [int]
    reads as a day in [1 .. 31] and a month in [1 .. 12]; no more is asked
    of the date.  The entry, with the words of the name joined by single
    spaces, goes to the end of the list of the chat's code, and the reply
    names it.  In every other case nothing is written. *)
Theorem add_birthday_stores_valid_dates (int_ : Py.str -> option Z)
    (args : list Py.str) (chat_id : Z) (bot : Commands.Bot) :
  let bot' := fst (Commands.add_birthday int_ args chat_id bot) in
  let replies := snd (Commands.add_birthday int_ args chat_id bot) in
  (forall code names a b d m,
     Commands.get_code_by_chat_id chat_id bot = Some code -> code <> [] ->
     args = names ++ [a ++ 46%N :: b] -> names <> [] ->
     ~ In 46%N a -> ~ In 46%N b ->
     int_ a = Some d -> int_ b = Some m ->
     1 <= d <= 31 -> 1 <= m <= 12 ->
     Commands.load_birthdays code (Commands.disk bot')
     = Commands.load_birthdays code (Commands.disk bot)
       ++ [{| day := d; month := m; name := Py.join (Py.lit " ") names |}]
     /\ replies
        = [Commands.plain (Commands.added_text (Py.join (Py.lit " ") names) d m)])
  /\ (bot' <> bot ->
      exists code names a b d m,
        Commands.get_code_by_chat_id chat_id bot = Some code /\ code <> []
        /\ args = names ++ [a ++ 46%N :: b] /\ names <> []
        /\ ~ In 46%N a /\ ~ In 46%N b
        /\ int_ a = Some d /\ int_ b = Some m
        /\ 1 <= d <= 31 /\ 1 <= m <= 12).
Proof.
  cbv zeta. split.
  - intros code names a b d m G C -> N Na Nb A B Hd Hm.
    assert (P : Commands.parse_date int_ (a ++ 46%N :: b) = Some (d, m)).
    { apply parse_date_iff. exists a, b. tauto. }
    unfold Commands.add_birthday. rewrite G.
    destruct code as [|c code]; [congruence|].
    rewrite length_app, last_last, removelast_last, P. cbn [List.length].
    destruct (List.length names + 1 <? 2)%nat eqn:L.
    + apply Nat.ltb_lt in L. destruct names; [congruence|]. simpl in L. lia.
    + cbn [fst snd Commands.disk]. rewrite load_save_same. split; reflexivity.
  - intro H.
    destruct (add_birthday_cases int_ args chat_id bot)
      as [E|(code & d & m & G & C & L & P & _)]; [contradiction|].
    destruct (args_split args L) as (E & N).
    apply parse_date_iff in P. destruct P as (a & b & S & Na & Nb & A & B & Hd & Hm).
    exists code, (removelast args), a, b, d, m.
    rewrite <- S. tauto.
Qed.

Lemma add_birthday_stores_valid_dates_witness :
  let bot :=
    fst (fst (Commands.check_code Scenario.as_is (Py.lit "7") 101
                (Commands.started_on Commands.empty_disk))) in
  Commands.load_birthdays (Py.lit "7")
    (Commands.disk
       (fst (Commands.add_birthday Commands.int_of_digits
               [Py.lit "Anna"; Py.lit "Maria"; Py.lit "31.02"] 101 bot)))
  = [{| day := 31; month := 2; name := Py.lit "Anna Maria" |}].
Proof.
  cbv zeta.
  refine (proj1 (proj1 (add_birthday_stores_valid_dates Commands.int_of_digits
                   [Py.lit "Anna"; Py.lit "Maria"; Py.lit "31.02"] 101 _)
                   (Py.lit "7") [Py.lit "Anna"; Py.lit "Maria"]
                   (Py.lit "31") (Py.lit "02") 31 2 _ _ _ _ _ _ _ _ _ _));
    try (vm_compute; reflexivity); try (vm_compute; discriminate); try lia;
    vm_compute; intuition discriminate.
Defined.

Lemma first_index_none {X} (p : X -> bool) l :
  Forall (fun x => p x = false) l -> Commands.first_index p l = None.
Proof.
  induction 1 as [|x l H _ IH]; simpl; [reflexivity|]. rewrite H, IH. reflexivity.
Qed.

Lemma first_index_split {X} (p : X -> bool) pre b post :
  Forall (fun x => p x = false) pre -> p b = true ->
  Commands.first_index p (pre ++ b :: post) = Some (List.length pre).
Proof.
  intros F B. induction F as [|x l H _ IH]; simpl.
  - rewrite B. reflexivity.
  - rewrite H, IH. reflexivity.
Qed.

Lemma pop_split {X} (pre : list X) b post :
  Commands.pop (List.length pre) (pre ++ b :: post) = Some (b, pre ++ post).
Proof.
  induction pre as [|x pre IH]; simpl; [reflexivity|]. rewrite IH. reflexivity.
Qed.

Lemma first_match_dec {X} (p : X -> bool) (l : list X) :
  Forall (fun x => p x = false) l
  \/ exists pre b post,
       l = pre ++ b :: post /\ Forall (fun x => p x = false) pre /\ p b = true.
Proof.
  induction l as [|x l [IH|(pre & b & post & -> & F & B)]].
  - left. constructor.
  - destruct (p x) eqn:E.
    + right. exists [], x, l. auto.
    + left. constructor; assumption.
  - destruct (p x) eqn:E.
    + right. exists [], x, (pre ++ b :: post). auto.
    + right. exists (x :: pre), b, post. auto.
Qed.

(** [del_birthday] from a chat that is signed in, with arguments:
    the entry that goes is the first of the list whose name in lower case
    holds the words of the arguments, joined by spaces and in lower case,
    as a part; the rest of the list keeps its order and the reply names
    the entry.  When no name holds them, nothing is written and the reply
    says so.  The handler always replies once. *)
Theorem del_birthday_removes_first_match (py : Py.StrMethods)
    (args : list Py.str) (chat_id : Z) (bot : Commands.Bot) (code : Py.str) :
  Commands.get_code_by_chat_id chat_id bot = Some code -> code <> [] ->
  args <> [] ->
  let name' := Py.lower py (Py.join (Py.lit " ") args) in
  let birthdays := Commands.load_birthdays code (Commands.disk bot) in
  let bot' := fst (Commands.del_birthday py args chat_id bot) in
  let replies := snd (Commands.del_birthday py args chat_id bot) in
  (Forall (fun b => Commands.matches py name' b = false) birthdays ->
     bot' = bot /\ replies = [Commands.plain (Commands.not_found_text name')])
  /\ (forall pre b post,
        birthdays = pre ++ b :: post ->
        Forall (fun x => Commands.matches py name' x = false) pre ->
        Commands.matches py name' b = true ->
        Commands.load_birthdays code (Commands.disk bot') = pre ++ post
        /\ replies = [Commands.plain (Commands.removed_text b)])
  /\ List.length replies = 1%nat.
Proof.
  intros G C A. cbv zeta.
  assert (D : Commands.del_birthday py args chat_id bot
    = let name' := Py.lower py (Py.join (Py.lit " ") args) in
      let birthdays := Commands.load_birthdays code (Commands.disk bot) in
      match Commands.first_index (Commands.matches py name') birthdays with
      | Some found =>
        match Commands.pop found birthdays with
        | Some (removed, birthdays') =>
          ({| Commands.sessions := Commands.sessions bot;
              Commands.disk :=
                Commands.save_birthdays code birthdays' (Commands.disk bot) |},
           [Commands.plain (Commands.removed_text removed)])
        | None => (bot, [])
        end
      | None => (bot, [Commands.plain (Commands.not_found_text name')])
      end).
  { unfold Commands.del_birthday. rewrite G.
    destruct code; [congruence|]. destruct args; [congruence|]. reflexivity. }
  rewrite D. cbv zeta. clear D.
  set (q := Py.lower py (Py.join (Py.lit " ") args)).
  set (l := Commands.load_birthdays code (Commands.disk bot)).
  split; [|split].
  - intro F. rewrite first_index_none by exact F. split; reflexivity.
  - intros pre b post E F B. rewrite E, first_index_split, pop_split by assumption.
    cbn [fst snd Commands.disk]. rewrite load_save_same. split; reflexivity.
  - destruct (first_match_dec (Commands.matches py q) l)
      as [F|(pre & b & post & E & F & B)].
    + rewrite first_index_none by exact F. reflexivity.
    + rewrite E, first_index_split, pop_split by assumption. reflexivity.
Qed.

Lemma del_birthday_removes_first_match_witness :
  let bot :=
    Commands.handle_all Scenario.as_is Commands.int_of_digits
      [(Commands.CheckCode (Py.lit "7"), 101);
       (Commands.AddBirthday [Py.lit "Marianna"; Py.lit "3.11"], 101);
       (Commands.AddBirthday [Py.lit "Anna"; Py.lit "4.11"], 101)]
      (Commands.started_on Commands.empty_disk) in
  Commands.load_birthdays (Py.lit "7")
    (Commands.disk (fst (Commands.del_birthday Scenario.as_is [Py.lit "anna"] 101 bot)))
  = [{| day := 4; month := 11; name := Py.lit "Anna" |}].
Proof.
  cbv zeta.
  refine (proj1 (proj1 (proj2 (del_birthday_removes_first_match Scenario.as_is
            [Py.lit "anna"] 101 _ (Py.lit "7") _ _ _))
            [] {| day := 3; month := 11; name := Py.lit "Marianna" |}
            [{| day := 4; month := 11; name := Py.lit "Anna" |}] _ _ _));
    try (vm_compute; reflexivity); try (vm_compute; discriminate).
  constructor.
Defined.

Lemma contains_refl s : Py.contains s s = true.
Proof.
  unfold Py.contains. destruct s as [|c s]; [reflexivity|].
  cbn [Py.find_at]. rewrite <- (app_nil_r (c :: s)) at 2.
  rewrite startswith_app. reflexivity.
Qed.

(** [/del] with the words of a name, right after [/add] with this
    name: when no older entry of the list matches these words, the list
    is again what it was before [/add]; when one does, the first such
    entry goes and the new entry stays, at the end. *)
Theorem del_after_add (py : Py.StrMethods) (int_ : Py.str -> option Z)
    (names : list Py.str) (date : Py.str) (chat_id : Z) (bot : Commands.Bot)
    (code : Py.str) (d m : Z) :
  Commands.get_code_by_chat_id chat_id bot = Some code -> code <> [] ->
  names <> [] ->
  Commands.parse_date int_ date = Some (d, m) ->
  let entry := {| day := d; month := m; name := Py.join (Py.lit " ") names |} in
  let name' := Py.lower py (Py.join (Py.lit " ") names) in
  let birthdays := Commands.load_birthdays code (Commands.disk bot) in
  let bot1 := fst (Commands.add_birthday int_ (names ++ [date]) chat_id bot) in
  let bot2 := fst (Commands.del_birthday py names chat_id bot1) in
  (Forall (fun b => Commands.matches py name' b = false) birthdays ->
     Commands.load_birthdays code (Commands.disk bot2) = birthdays)
  /\ (forall pre b post,
        birthdays = pre ++ b :: post ->
        Forall (fun x => Commands.matches py name' x = false) pre ->
        Commands.matches py name' b = true ->
        Commands.load_birthdays code (Commands.disk bot2)
        = pre ++ post ++ [entry]).
Proof.
  intros G C N P. cbv zeta.
  set (entry := {| day := d; month := m; name := Py.join (Py.lit " ") names |}).
  set (q := Py.lower py (Py.join (Py.lit " ") names)).
  assert (A : Commands.add_birthday int_ (names ++ [date]) chat_id bot
    = ({| Commands.sessions := Commands.sessions bot;
          Commands.disk :=
            Commands.save_birthdays code
              (Commands.load_birthdays code (Commands.disk bot) ++ [entry])
              (Commands.disk bot) |},
       [Commands.plain (Commands.added_text (Py.join (Py.lit " ") names) d m)])).
  { unfold Commands.add_birthday. rewrite G. destruct code; [congruence|].
    rewrite length_app, last_last, removelast_last, P. cbn [List.length].
    destruct (List.length names + 1 <? 2)%nat eqn:L; [|reflexivity].
    apply Nat.ltb_lt in L. destruct names; [congruence|]. simpl in L. lia. }
  rewrite A. cbn [fst]. clear A.
  set (bot1 := {| Commands.sessions := Commands.sessions bot;
                  Commands.disk := Commands.save_birthdays code _ _ |}).
  assert (G1 : Commands.get_code_by_chat_id chat_id bot1 = Some code) by exact G.
  assert (L1 : Commands.load_birthdays code (Commands.disk bot1)
               = Commands.load_birthdays code (Commands.disk bot) ++ [entry])
    by apply load_save_same.
  assert (M : Commands.matches py q entry = true) by apply contains_refl.
  destruct (del_birthday_removes_first_match py names chat_id bot1 code G1 C N)
    as (_ & H & _).
  fold q in H. rewrite L1 in H.
  split.
  - intro F.
    destruct (H (Commands.load_birthdays code (Commands.disk bot)) entry []
                eq_refl F M) as (E & _).
    rewrite E, app_nil_r. reflexivity.
  - intros pre b post E F B. rewrite E in H.
    assert (S : (pre ++ b :: post) ++ [entry] = pre ++ b :: post ++ [entry])
      by (rewrite <- app_assoc; reflexivity).
    destruct (H pre b (post ++ [entry]) S F B) as (E' & _). exact E'.
Qed.

Lemma del_after_add_witness :
  let bot :=
    Commands.handle_all Scenario.as_is Commands.int_of_digits
      [(Commands.CheckCode (Py.lit "7"), 101);
       (Commands.AddBirthday [Py.lit "Marianna"; Py.lit "3.11"], 101)]
      (Commands.started_on Commands.empty_disk) in
  let bot1 :=
    fst (Commands.add_birthday Commands.int_of_digits
           ([Py.lit "anna"] ++ [Py.lit "4.11"]) 101 bot) in
  Commands.load_birthdays (Py.lit "7")
    (Commands.disk (fst (Commands.del_birthday Scenario.as_is [Py.lit "anna"] 101 bot1)))
  = [] ++ [] ++ [{| day := 4; month := 11; name := Py.lit "anna" |}].
Proof.
  cbv zeta.
  refine (proj2 (del_after_add Scenario.as_is Commands.int_of_digits
            [Py.lit "anna"] (Py.lit "4.11") 101 _ (Py.lit "7") 4 11 _ _ _ _)
            [] {| day := 3; month := 11; name := Py.lit "Marianna" |} [] _ _ _);
    try (vm_compute; reflexivity); try (vm_compute; discriminate).
  constructor.
Defined.

(* ================================================================== *)
(** ** [show_list] *)

Lemma sort_by_day_In x l : In x (sort_by_day l) <-> In x l.
Proof.
  induction l as [|b l IH]; [reflexivity|].
  change (sort_by_day (b :: l)) with (insert_by_day b (sort_by_day l)).
  rewrite insert_by_day_In, IH. simpl. intuition.
Qed.

Lemma insert_by_month_day_In b x l :
  In x (Commands.insert_by_month_day b l) <-> x = b \/ In x l.
Proof.
  induction l as [|y l IH]; simpl.
  - intuition.
  - destruct (Commands.month_day_le b y); simpl; [intuition|]. rewrite IH. intuition.
Qed.

Lemma sorted_by_month_day_In x l : In x (Commands.sorted_by_month_day l) <-> In x l.
Proof.
  induction l as [|b l IH]; [reflexivity|].
  change (Commands.sorted_by_month_day (b :: l))
    with (Commands.insert_by_month_day b (Commands.sorted_by_month_day l)).
  rewrite insert_by_month_day_In, IH. simpl. intuition.
Qed.

Lemma of_month_In l m x :
  In x (Commands.of_month l m) -> month x = m.
Proof.
  unfold Commands.of_month. rewrite sort_by_day_In, filter_In.
  intros (_ & H). apply Z.eqb_eq, H.
Qed.

Lemma of_month_cons b l m :
  Commands.of_month (b :: l) m
  = if month b =? m then insert_by_day b (Commands.of_month l m)
    else Commands.of_month l m.
Proof.
  unfold Commands.of_month. cbn [filter]. destruct (month b =? m); reflexivity.
Qed.

Lemma insert_by_month_day_skip b xs rest :
  Forall (fun x => month x < month b) xs ->
  Commands.insert_by_month_day b (xs ++ rest)
  = xs ++ Commands.insert_by_month_day b rest.
Proof.
  induction 1 as [|x xs H _ IH]; [reflexivity|].
  cbn [app Commands.insert_by_month_day]. unfold Commands.month_day_le at 1.
  destruct (month b <? month x) eqn:E1; [apply Z.ltb_lt in E1; lia|].
  destruct (month b =? month x) eqn:E2; [apply Z.eqb_eq in E2; lia|].
  cbn [orb andb]. rewrite IH. reflexivity.
Qed.

Lemma insert_by_month_day_block b ys zs :
  Forall (fun y => month y = month b) ys ->
  Forall (fun z => month b < month z) zs ->
  Commands.insert_by_month_day b (ys ++ zs) = insert_by_day b ys ++ zs.
Proof.
  intros Hy Hz. induction Hy as [|y ys H _ IH].
  - destruct Hz as [|z zs H _]; [reflexivity|].
    cbn [app Commands.insert_by_month_day insert_by_day].
    unfold Commands.month_day_le. apply Z.ltb_lt in H. rewrite H. reflexivity.
  - cbn [app Commands.insert_by_month_day insert_by_day].
    unfold Commands.month_day_le at 1. rewrite H, Z.ltb_irrefl, Z.eqb_refl.
    cbn [orb andb]. destruct (day b <=? day y); [reflexivity|].
    rewrite IH. reflexivity.
Qed.

Lemma flat_map_of_month_In l ms x :
  In x (flat_map (Commands.of_month l) ms) -> In (month x) ms.
Proof.
  rewrite in_flat_map. intros (m & Hm & Hx). apply of_month_In in Hx.
  subst. exact Hm.
Qed.

Lemma flat_map_of_month_other b l ms :
  ~ In (month b) ms ->
  flat_map (Commands.of_month (b :: l)) ms = flat_map (Commands.of_month l) ms.
Proof.
  induction ms as [|m ms IH]; [reflexivity|]. intro H. cbn [flat_map].
  rewrite of_month_cons, IH by (intro; apply H; right; assumption).
  destruct (month b =? m) eqn:E; [|reflexivity].
  apply Z.eqb_eq in E. exfalso. apply H. left. auto.
Qed.

Lemma blocks_insert b l ms :
  StronglySorted Z.lt ms -> In (month b) ms ->
  Commands.insert_by_month_day b (flat_map (Commands.of_month l) ms)
  = flat_map (Commands.of_month (b :: l)) ms.
Proof.
  induction 1 as [|m ms S IH F]; intro I; [destruct I|].
  cbn [flat_map]. rewrite of_month_cons. rewrite Forall_forall in F.
  destruct (month b =? m) eqn:E.
  - apply Z.eqb_eq in E. subst m.
    rewrite flat_map_of_month_other
      by (intro H; apply F in H; lia).
    apply insert_by_month_day_block; apply Forall_forall; intros x Hx.
    + apply of_month_In in Hx. exact Hx.
    + apply flat_map_of_month_In in Hx. apply F, Hx.
  - apply Z.eqb_neq in E. destruct I as [I|I]; [congruence|].
    rewrite insert_by_month_day_skip, IH; [reflexivity|exact I|].
    apply Forall_forall. intros x Hx. apply of_month_In in Hx.
    subst. apply F, I.
Qed.

Lemma sorted_blocks l ms :
  StronglySorted Z.lt ms -> Forall (fun b => In (month b) ms) l ->
  Commands.sorted_by_month_day l = flat_map (Commands.of_month l) ms.
Proof.
  intros S. induction 1 as [|b l H _ IH].
  - clear S. induction ms as [|m ms IH]; [reflexivity|]. exact IH.
  - change (Commands.sorted_by_month_day (b :: l))
      with (Commands.insert_by_month_day b (Commands.sorted_by_month_day l)).
    rewrite IH. apply blocks_insert; assumption.
Qed.

Lemma months_sorted : StronglySorted Z.lt Commands.months.
Proof.
  unfold Commands.months.
  repeat (constructor; [|repeat (constructor; [lia|]); constructor]).
  constructor.
Qed.

Lemma index_month m :
  1 <= m <= 12 ->
  Commands.index Commands.month_names_list m
  = Some (nth (Z.to_nat m) Commands.month_names_list []).
Proof.
  intro H. unfold Commands.index.
  change (List.length Commands.month_names_list) with 13%nat.
  destruct (0 <=? m) eqn:E1; [|apply Z.leb_gt in E1; lia].
  destruct (m <? Z.of_nat 13) eqn:E2; [|apply Z.ltb_ge in E2; lia].
  cbn [andb]. apply nth_error_nth'.
  change (List.length Commands.month_names_list) with 13%nat. lia.
Qed.

Lemma index_outside m :
  m < -13 \/ 12 < m -> Commands.index Commands.month_names_list m = None.
Proof.
  intro H. unfold Commands.index.
  change (List.length Commands.month_names_list) with 13%nat.
  destruct (0 <=? m) eqn:E1, (m <? Z.of_nat 13) eqn:E2, (- Z.of_nat 13 <=? m) eqn:E3,
    (m <? 0) eqn:E4; cbn [andb]; try reflexivity;
    try apply Z.leb_le in E1; try apply Z.ltb_lt in E2; try apply Z.leb_le in E3;
    try apply Z.ltb_lt in E4; try apply Z.leb_gt in E1; try apply Z.ltb_ge in E2;
    try apply Z.leb_gt in E3; try apply Z.ltb_ge in E4; lia.
Qed.

Lemma show_list_lines_same m xs rest :
  Forall (fun x => month x = m) xs ->
  Commands.show_list_lines m (xs ++ rest)
  = option_map (fun lines => map Commands.list_line xs ++ lines)
      (Commands.show_list_lines m rest).
Proof.
  induction 1 as [|x xs H _ IH].
  - cbn [app]. destruct (Commands.show_list_lines m rest); reflexivity.
  - cbn [app Commands.show_list_lines]. rewrite H, Z.eqb_refl, IH.
    destruct (Commands.show_list_lines m rest); reflexivity.
Qed.

Lemma show_list_lines_blocks l ms :
  forall current_month, NoDup ms -> ~ In current_month ms ->
  Forall (fun m => 1 <= m <= 12) ms ->
  Commands.show_list_lines current_month (flat_map (Commands.of_month l) ms)
  = Some (flat_map (Commands.month_block l) ms).
Proof.
  induction ms as [|m ms IH]; intros cur D N B; [reflexivity|].
  inversion D as [|? ? Dm D']; subst. inversion B as [|? ? Bm B']; subst.
  cbn [flat_map]. unfold Commands.month_block at 1.
  pose proof (of_month_In l m) as A.
  destruct (Commands.of_month l m) as [|x xs].
  - apply IH; [assumption| |assumption]. intro H. apply N. right. exact H.
  - assert (Ex : month x = m) by (apply A; left; reflexivity).
    cbn [app Commands.show_list_lines]. rewrite Ex.
    destruct (m =? cur) eqn:E.
    { apply Z.eqb_eq in E. exfalso. apply N. left. exact E. }
    rewrite index_month by exact Bm.
    rewrite show_list_lines_same
      by (apply Forall_forall; intros y Hy; apply A; right; exact Hy).
    rewrite (IH m D' Dm B'). reflexivity.
Qed.

Lemma show_list_lines_raise l :
  forall current_month,
  Commands.index Commands.month_names_list current_month <> None ->
  (exists b, In b l /\ Commands.index Commands.month_names_list (month b) = None) ->
  Commands.show_list_lines current_month l = None.
Proof.
  induction l as [|x l IH]; intros cur C (b & I & H); [destruct I|].
  cbn [Commands.show_list_lines].
  destruct (month x =? cur) eqn:E.
  - apply Z.eqb_eq in E. rewrite IH; [reflexivity|exact C|].
    exists b. split; [|exact H]. destruct I as [->|I]; [congruence|exact I].
  - destruct (Commands.index Commands.month_names_list (month x)) eqn:X;
      [|reflexivity].
    rewrite IH; [reflexivity|congruence|].
    exists b. split; [|exact H]. destruct I as [->|I]; [congruence|exact I].
Qed.

(** [show_list] from a chat that is signed in and has a list: when
    every stored month is in [1 .. 12], the reply goes through the months
    from January to December and gives, for each month that has entries,
    the name of the month once and then these entries by day, those of
    one day in the order of the file; every entry is listed.  When a
    stored month is below [-13] or above [12], the handler raises and
    nothing is sent. *)
Theorem show_list_by_month (chat_id : Z) (bot : Commands.Bot) (code : Py.str) :
  Commands.get_code_by_chat_id chat_id bot = Some code -> code <> [] ->
  let birthdays := Commands.load_birthdays code (Commands.disk bot) in
  birthdays <> [] ->
  (Forall (fun b => 1 <= month b <= 12) birthdays ->
     snd (Commands.show_list chat_id bot)
     = [Commands.plain
          (Py.join Py.newline
             ((Py.lit "📋 Список дней рождения:" ++ Py.newline)
              :: flat_map (Commands.month_block birthdays) Commands.months))])
  /\ ((exists b, In b birthdays /\ (month b < -13 \/ 12 < month b)) ->
        snd (Commands.show_list chat_id bot) = []).
Proof.
  intros G C. cbv zeta. intro N. unfold Commands.show_list. rewrite G.
  destruct code as [|c code]; [congruence|].
  remember (Commands.load_birthdays (c :: code) (Commands.disk bot)) as l0 eqn:L.
  destruct l0 as [|x xs]; [congruence|]. clear L N.
  set (l := x :: xs).
  unfold Commands.show_list_text. split.
  - intro F.
    rewrite (sorted_blocks l Commands.months months_sorted).
    + rewrite show_list_lines_blocks; [reflexivity| | |].
      * unfold Commands.months. repeat (constructor; [simpl; lia|]). constructor.
      * unfold Commands.months. simpl. lia.
      * unfold Commands.months. repeat (constructor; [lia|]). constructor.
    + eapply Forall_impl; [|exact F]. intros b H. cbv beta in H.
      unfold Commands.months. cbn [In]. lia.
  - intros (b & I & H).
    rewrite show_list_lines_raise; [reflexivity|vm_compute; discriminate|].
    exists b. split; [apply sorted_by_month_day_In, I|apply index_outside, H].
Qed.

Lemma show_list_by_month_witness :
  let bot :=
    Commands.handle_all Scenario.as_is Commands.int_of_digits
      [(Commands.CheckCode (Py.lit "7"), 101);
       (Commands.AddBirthday [Py.lit "Anna"; Py.lit "3.11"], 101);
       (Commands.AddBirthday [Py.lit "Oleg"; Py.lit "9.2"], 101)]
      (Commands.started_on Commands.empty_disk) in
  snd (Commands.show_list 101 bot)
  = [Commands.plain
       (Py.join Py.newline
          [Py.lit "📋 Список дней рождения:" ++ Py.newline;
           Py.newline ++ Py.lit "Февраль:"; Py.lit "   9 — Oleg";
           Py.newline ++ Py.lit "Ноябрь:"; Py.lit "   3 — Anna"])].
Proof.
  cbv zeta.
  set (bot := Commands.handle_all _ _ _ _).
  assert (G : Commands.get_code_by_chat_id 101 bot = Some (Py.lit "7"))
    by (vm_compute; reflexivity).
  assert (C : Py.lit "7" <> []) by (vm_compute; discriminate).
  pose proof (show_list_by_month 101 bot (Py.lit "7") G C) as T. cbv zeta in T.
  destruct T as (T & _); [vm_compute; discriminate|].
  rewrite T.
  - vm_compute. reflexivity.
  - vm_compute. repeat (constructor; [split; discriminate|]). constructor.
Defined.

(* ================================================================== *)
(** ** The scheduled loops after the handlers *)

Lemma chats_recipients env app today (items : list (Z * Py.str)) :
  (forall t, calendar env t = today) ->
  (forall n code, stored_birthdays env n code = stored_birthdays env 0%nat code) ->
  forall st,
  chats_messaged
    (events (for_each items (daily_birthday_check_recipient env app) st))
  = flat_map
      (fun session =>
         repeat (fst session)
           (List.length
              (filter (due_on today) (stored_birthdays env 0%nat (snd session)))))
      items.
Proof.
  intros C S. induction items as [|[chat code] items IH]; intro st; [reflexivity|].
  cbn [for_each]. rewrite events_bind, chats_messaged_app, chats_recipient, IH.
  cbn [flat_map fst snd]. f_equal. f_equal. f_equal.
  rewrite S. unfold get_birthdays_today, bind, now, ret. simpl. rewrite C.
  reflexivity.
Qed.

Lemma get_In chat_id code d :
  Commands.get chat_id d = Some code -> In (chat_id, code) d.
Proof.
  induction d as [|[k v] d IH]; simpl; [discriminate|].
  destruct (k =? chat_id) eqn:E.
  - apply Z.eqb_eq in E. intro H. injection H as ->. subst. auto.
  - auto.
Qed.

Lemma add_birthday_accepted int_ names date chat_id bot code d m :
  Commands.get_code_by_chat_id chat_id bot = Some code -> code <> [] ->
  names <> [] ->
  Commands.parse_date int_ date = Some (d, m) ->
  Commands.add_birthday int_ (names ++ [date]) chat_id bot
  = ({| Commands.sessions := Commands.sessions bot;
        Commands.disk :=
          Commands.save_birthdays code
            (Commands.load_birthdays code (Commands.disk bot)
             ++ [{| day := d; month := m; name := Py.join (Py.lit " ") names |}])
            (Commands.disk bot) |},
     [Commands.plain (Commands.added_text (Py.join (Py.lit " ") names) d m)]).
Proof.
  intros G C N P. unfold Commands.add_birthday. rewrite G.
  destruct code; [congruence|].
  rewrite length_app, last_last, removelast_last, P. cbn [List.length].
  destruct (List.length names + 1 <? 2)%nat eqn:L; [|reflexivity].
  apply Nat.ltb_lt in L. destruct names; [congruence|]. simpl in L. lia.
Qed.

(** The scheduled loops on the state that the handlers have left,
    on a day that does not end during the run: the daily check sends its
    text messages to the chats of the sessions in the order of the
    dictionary, to each chat one message for each entry of the list of
    its code that is due today, whatever the provider and Telegram
    answer; the monthly reminder sends one message to each chat. *)
Theorem scheduled_loops_follow_sessions (base : Env) (app : App)
    (bot : Commands.Bot) (today : Today) (st : State) :
  (forall t, calendar base t = today) ->
  chats_messaged (events (daily_birthday_check (scheduled_on base bot) app st))
  = flat_map
      (fun session =>
         repeat (fst session)
           (List.length
              (filter (due_on today)
                 (Commands.load_birthdays (snd session) (Commands.disk bot)))))
      (Commands.sessions bot)
  /\ chats_messaged (events (monthly_reminder (scheduled_on base bot) app st))
     = map fst (Commands.sessions bot).
Proof.
  intro C. split.
  - unfold daily_birthday_check.
    rewrite (chats_recipients (scheduled_on base bot) app today); auto.
  - apply chats_monthly.
Qed.

Lemma scheduled_loops_follow_sessions_witness :
  let bot :=
    Commands.handle_all Scenario.as_is Commands.int_of_digits
      [(Commands.CheckCode (Py.lit "7"), 101);
       (Commands.CheckCode (Py.lit "2"), 102);
       (Commands.AddBirthday [Py.lit "Anna"; Py.lit "3.11"], 102);
       (Commands.AddBirthday [Py.lit "Oleg"; Py.lit "3.11"], 102);
       (Commands.AddBirthday [Py.lit "Olga"; Py.lit "4.11"], 101)]
      (Commands.started_on Commands.empty_disk) in
  chats_messaged
    (events (daily_birthday_check (scheduled_on Scenario.provider bot)
               Scenario.reachable (initial_state 1000)))
  = [102; 102].
Proof.
  cbv zeta.
  rewrite (proj1 (scheduled_loops_follow_sessions Scenario.provider
                    Scenario.reachable _
                    {| today_day := 3; today_month := November |}
                    (initial_state 1000) (fun _ => eq_refl))).
  vm_compute. reflexivity.
Defined.

(** An entry added by [add_birthday] with the date of today is
    greeted by the next daily check of that day: the chat that added it
    gets a text message from the check, whatever the provider and
    Telegram answer. *)
Theorem added_today_is_greeted (base : Env) (app : App) (today : Today)
    (int_ : Py.str -> option Z) (names : list Py.str) (date : Py.str)
    (chat_id : Z) (code : Py.str) (bot : Commands.Bot) (st : State) :
  (forall t, calendar base t = today) ->
  Commands.get_code_by_chat_id chat_id bot = Some code -> code <> [] ->
  names <> [] ->
  Commands.parse_date int_ date
  = Some (today_day today, month_number (today_month today)) ->
  let bot' := fst (Commands.add_birthday int_ (names ++ [date]) chat_id bot) in
  In chat_id
    (chats_messaged
       (events (daily_birthday_check (scheduled_on base bot') app st))).
Proof.
  intros C G Cn N P. cbv zeta.
  rewrite (add_birthday_accepted _ _ _ _ _ _ _ _ G Cn N P). cbn [fst].
  unfold daily_birthday_check.
  rewrite (chats_recipients _ app today) by auto.
  apply in_flat_map. exists (chat_id, code). split.
  - apply get_In, G.
  - cbn [fst snd scheduled_on stored_birthdays Commands.disk].
    rewrite load_save_same, filter_app. cbn [filter].
    unfold due_on at 2. cbn [day month]. rewrite !Z.eqb_refl. cbn [andb].
    rewrite length_app. cbn [List.length].
    rewrite Nat.add_comm. left. reflexivity.
Qed.

Lemma added_today_is_greeted_witness :
  let bot :=
    fst (fst (Commands.check_code Scenario.as_is (Py.lit "7") 101
                (Commands.started_on Commands.empty_disk))) in
  let bot' :=
    fst (Commands.add_birthday Commands.int_of_digits
           ([Py.lit "Anna"] ++ [Py.lit "3.11"]) 101 bot) in
  In 101
    (chats_messaged
       (events (daily_birthday_check (scheduled_on Scenario.provider bot')
                  (Scenario.failing_at 0) (initial_state 1000)))).
Proof.
  cbv zeta.
  apply (added_today_is_greeted Scenario.provider (Scenario.failing_at 0)
           {| today_day := 3; today_month := November |}
           Commands.int_of_digits [Py.lit "Anna"] (Py.lit "3.11") 101
           (Py.lit "7")).
  - intro t. reflexivity.
  - vm_compute. reflexivity.
  - vm_compute. discriminate.
  - discriminate.
  - vm_compute. reflexivity.
Defined.

(* ================================================================== *)
(** ** [test_ai] *)

Lemma reply_text_run env app chat text markdown st :
  TestAI.reply_text env app chat text markdown st
  = (if transport_ok app (tick st) then Ok else Failed (tick st),
     answered env st,
     [stamped st (EvSendMessage chat text markdown (transport_ok app (tick st)))]).
Proof.
  unfold TestAI.reply_text, bind, current_tick, ret. rewrite send_message_run.
  destruct (transport_ok app (tick st)); reflexivity.
Qed.

Lemma reply_photo_run env app chat photo caption st :
  TestAI.reply_photo env app chat photo caption st
  = (if transport_ok app (tick st) then Ok else Failed (tick st),
     answered env st,
     [stamped st (EvSendPhoto chat photo caption (transport_ok app (tick st)))]).
Proof.
  unfold TestAI.reply_photo, bind, current_tick, ret. rewrite send_photo_run.
  destruct (transport_ok app (tick st)); reflexivity.
Qed.

Lemma events_and_then (m k : M Try) st :
  events (TestAI.and_then m k st)
  = events (m st)
    ++ match result (m st) with
       | Ok => events (k (final (m st)))
       | Failed _ => []
       end.
Proof.
  unfold TestAI.and_then, bind. destruct (m st) as [[[|n] s1] e1]; simpl.
  - destruct (k s1) as [[r s2] e2]. reflexivity.
  - reflexivity.
Qed.

Lemma result_and_then (m k : M Try) st :
  result (TestAI.and_then m k st)
  = match result (m st) with
    | Ok => result (k (final (m st)))
    | Failed n => Failed n
    end.
Proof.
  unfold TestAI.and_then, bind. destruct (m st) as [[[|n] s1] e1]; simpl.
  - destruct (k s1) as [[r s2] e2]. reflexivity.
  - reflexivity.
Qed.

Lemma emits_and_then q (m k : M Try) :
  emits q m -> emits q k -> emits q (TestAI.and_then m k).
Proof.
  intros Hm Hk. unfold TestAI.and_then. apply emits_bind; [exact Hm|].
  intros [|n]; [exact Hk|apply emits_ret].
Qed.

Lemma emits_reply_text q env app chat text markdown :
  (forall ok, q (EvSendMessage chat text markdown ok) = true) ->
  emits q (TestAI.reply_text env app chat text markdown).
Proof.
  intros H st. rewrite reply_text_run. constructor; [apply H|constructor].
Qed.

Lemma emits_reply_photo q env app chat photo caption :
  (forall ok, q (EvSendPhoto chat photo caption ok) = true) ->
  emits q (TestAI.reply_photo env app chat photo caption).
Proof.
  intros H st. rewrite reply_photo_run. constructor; [apply H|constructor].
Qed.

(** The steps of [test_ai], for a class that holds the replies without
    Markdown, the photos, the sleeps and the events of the generators. *)
Ltac test_step :=
  match goal with
  | |- emits _ (TestAI.and_then _ _) => apply emits_and_then
  | |- emits _ (TestAI.reply_text _ _ _ _ _) =>
    apply emits_reply_text; intros []; reflexivity
  | |- emits _ (TestAI.reply_photo _ _ _ _ _) =>
    apply emits_reply_photo; intros []; reflexivity
  | |- emits _ (generate_birthday_card _ _ _) =>
    eapply emits_weaken; [|apply emits_generate_birthday_card]; incl
  | |- emits _ (detect_gender _ _) =>
    eapply emits_weaken; [|apply emits_detect_gender]; incl
  | |- emits _ (generate_greeting _ _) =>
    eapply emits_weaken; [|apply emits_generate_greeting]; incl
  | |- emits _ (sleep _) => unfold sleep
  | |- emits _ (if ?b then _ else _) => destruct b
  | |- emits _ _ => emits_step
  end.

Lemma emits_test_ai_card env app error_text chat name g i n :
  emits no_failed_markdown (TestAI.test_ai_card env app error_text chat name g i n).
Proof.
  unfold TestAI.test_ai_card, TestAI.test_ai_card_try. repeat test_step.
Qed.

Lemma emits_test_ai_cards env app error_text chat name g indices :
  forall n,
  emits no_failed_markdown
    (TestAI.test_ai_cards env app error_text chat name g indices n).
Proof.
  induction indices as [|i indices IH]; intro n; cbn [TestAI.test_ai_cards].
  - apply emits_ret.
  - apply emits_bind; [apply emits_test_ai_card|].
    intros [[|k] c]; cbn [fst snd]; [apply IH|apply emits_ret].
Qed.

Lemma emits_test_ai_cards_step env app error_text chat name g :
  emits no_failed_markdown (TestAI.test_ai_cards_step env app error_text chat name g).
Proof.
  unfold TestAI.test_ai_cards_step. apply emits_and_then; [test_step|].
  apply emits_bind; [apply emits_test_ai_cards|].
  intros [[|k] c]; cbn [fst snd]; repeat test_step.
Qed.

Lemma guards_calm {A} (m : M A) : emits calm m -> markdown_guards_cards m.
Proof.
  intros H st _. apply (count_class _ calm); [apply H|].
  intros e E. unfold calm in E. apply andb_true_iff in E. destruct E as (_ & E).
  apply negb_true_iff in E. exact E.
Qed.

Lemma guards_quiet {A} (m : M A) :
  emits no_failed_markdown m -> markdown_guards_cards m.
Proof.
  intros H st L. exfalso.
  rewrite (count_class _ no_failed_markdown) in L; [lia|apply H|].
  intros e E. apply negb_true_iff in E. exact E.
Qed.

Lemma calm_counts {A} (m : M A) st :
  emits calm m ->
  count is_failed_markdown (events (m st)) = 0%nat
  /\ count is_card_call (events (m st)) = 0%nat.
Proof.
  intro H. split; apply (count_class _ calm); try apply H; intros e E;
    unfold calm in E; apply andb_true_iff in E; destruct E as (E1 & E2);
    apply negb_true_iff; assumption.
Qed.

Lemma guards_after_calm {A B} (m : M A) (k : A -> M B) :
  emits calm m -> (forall a, markdown_guards_cards (k a)) ->
  markdown_guards_cards (bind m k).
Proof.
  intros Hm Hk st. rewrite events_bind, !count_app.
  destruct (calm_counts m st Hm) as (-> & ->). simpl. apply Hk.
Qed.

Lemma guards_before_calm {A B} (m : M A) (k : A -> M B) :
  markdown_guards_cards m -> (forall a, emits calm (k a)) ->
  markdown_guards_cards (bind m k).
Proof.
  intros Hm Hk st. rewrite events_bind, !count_app.
  destruct (calm_counts (k (result (m st))) (final (m st)) (Hk _)) as (-> & ->).
  rewrite !Nat.add_0_r. apply Hm.
Qed.

Lemma guards_and_then (m k : M Try) :
  emits calm m -> markdown_guards_cards k ->
  markdown_guards_cards (TestAI.and_then m k).
Proof.
  intros Hm Hk. unfold TestAI.and_then. apply guards_after_calm; [exact Hm|].
  intros [|n]; [exact Hk|]. apply guards_calm, emits_ret.
Qed.

Lemma guards_greeting env app error_text chat name g greeting_ :
  markdown_guards_cards
    (TestAI.and_then (TestAI.test_ai_greeting_reply env app chat name greeting_)
       (TestAI.test_ai_cards_step env app error_text chat name g)).
Proof.
  destruct greeting_ as [[|c text]|]; cbn [TestAI.test_ai_greeting_reply];
    try (apply guards_quiet, emits_and_then;
         [test_step|apply emits_test_ai_cards_step]).
  intros st. rewrite events_and_then, reply_text_run.
  destruct (transport_ok app (tick st)); cbn [result events final fst snd].
  - intro L. exfalso. rewrite count_app, count_cons, count_nil in L.
    cbn [what stamped is_failed_markdown] in L.
    rewrite (count_class _ no_failed_markdown) in L;
      [lia|apply emits_test_ai_cards_step|].
    intros e E. apply negb_true_iff in E. exact E.
  - intros _. reflexivity.
Qed.

(** [test_ai]: when its reply with the greeting (the one sent with
    Markdown) is not delivered, the test stops there and no card is asked
    for, whereas [daily_birthday_check] goes on to the cards after a text
    that could not be sent. *)
Theorem test_ai_failed_greeting_skips_cards (env : Env) (app : App)
    (error_text : nat -> Py.str) (choice : nat) (chat_id : Z) (st : State) :
  let r := TestAI.test_ai env app error_text choice chat_id st in
  (0 < count is_failed_markdown (events r))%nat ->
  count is_card_call (events r) = 0%nat.
Proof.
  cbv zeta. revert st.
  change (markdown_guards_cards (TestAI.test_ai env app error_text choice chat_id)).
  unfold TestAI.test_ai.
  destruct (Commands.get chat_id (sessions env)) as [code|];
    [|apply guards_calm; test_step].
  destruct (Py.eqb code (Py.lit "7")); [|apply guards_calm; test_step].
  apply guards_after_calm; [test_step|intro birthdays].
  destruct birthdays as [|first rest]; [apply guards_calm; test_step|].
  cbv zeta. apply guards_and_then; [test_step|].
  apply guards_before_calm; [|intros [|n]; test_step].
  unfold TestAI.test_ai_try.
  apply guards_and_then; [test_step|].
  apply guards_after_calm; [test_step|intro g].
  apply guards_and_then; [test_step|].
  apply guards_and_then; [test_step|].
  apply guards_after_calm; [test_step|intro greeting_].
  apply guards_greeting.
Qed.

Lemma test_ai_failed_greeting_skips_cards_witness :
  let r :=
    TestAI.test_ai Scenario.three_recipients (Scenario.failing_at 7)
      (fun _ => Py.lit "Timed out") 0 102 (initial_state 1000) in
  count is_failed_markdown (events r) = 1%nat
  /\ count is_card_call (events r) = 0%nat.
Proof.
  cbv zeta. split; [vm_compute; reflexivity|].
  apply (test_ai_failed_greeting_skips_cards Scenario.three_recipients
           (Scenario.failing_at 7) (fun _ => Py.lit "Timed out") 0 102
           (initial_state 1000)).
  vm_compute. lia.
Defined.

(** [test_ai] sends a request to the provider only for a chat whose
    session has the code ["7"], when the list of this code is not empty,
    and after its first two replies have been delivered; in every other
    case it only replies. *)
Theorem test_ai_asks_provider_for_admin_only (env : Env) (app : App)
    (error_text : nat -> Py.str) (choice : nat) (chat_id : Z) (st : State) :
  let r := TestAI.test_ai env app error_text choice chat_id st in
  (0 < count is_provider_request (events r))%nat ->
  Commands.get chat_id (sessions env) = Some (Py.lit "7")
  /\ stored_birthdays env (tick st) (Py.lit "7") <> []
  /\ transport_ok app (tick st) = true
  /\ transport_ok app (S (tick st)) = true.
Proof.
  cbv zeta. unfold TestAI.test_ai.
  assert (Q : forall text md s,
             count is_provider_request
               (events (TestAI.reply_text env app chat_id text md s)) = 0%nat).
  { intros. apply (count_class _ is_telegram);
      [apply emits_reply_text; reflexivity|incl]. }
  destruct (Commands.get chat_id (sessions env)) as [code|] eqn:G;
    [|rewrite Q; lia].
  destruct (Py.eqb code (Py.lit "7")) eqn:E; [|rewrite Q; lia].
  apply eqb_eq in E. subst code. rewrite events_bind.
  change (load_birthdays env (Py.lit "7") st)
    with (stored_birthdays env (tick st) (Py.lit "7"), st, @nil Stamped).
  cbn [result final events fst snd List.app].
  destruct (stored_birthdays env (tick st) (Py.lit "7")) as [|first rest] eqn:B;
    [rewrite Q; lia|].
  cbv zeta. rewrite events_and_then, count_app, Q, reply_text_run.
  destruct (transport_ok app (tick st)) eqn:T0; cbn [result final events fst snd];
    [|rewrite count_nil; lia].
  rewrite events_bind, count_app. unfold TestAI.test_ai_try.
  rewrite result_and_then, events_and_then, count_app, Q, reply_text_run.
  change (tick (answered env st)) with (S (tick st)).
  destruct (transport_ok app (S (tick st))) eqn:T1; cbn [result final events fst snd];
    [|rewrite count_nil, Q; lia].
  intros _. repeat split; try reflexivity. discriminate.
Qed.

Lemma test_ai_asks_provider_for_admin_only_witness :
  Commands.get 102 (sessions Scenario.three_recipients) = Some (Py.lit "7")
  /\ transport_ok Scenario.reachable 1 = true.
Proof.
  destruct (test_ai_asks_provider_for_admin_only Scenario.three_recipients
              Scenario.reachable (fun _ => Py.lit "Timed out") 0 102
              (initial_state 1000)) as (G & _ & _ & T).
  - vm_compute. lia.
  - split; [exact G|exact T].
Defined.

Section Reachable.

Context {A B : Type}.
Variable p : Event -> bool.




End Reachable.







Section ReachableTest.

Variable env : Env.
Variable app : App.
Variable error_text : nat -> Py.str.
Variable chat : Z.
Variable name g : Py.str.
Hypothesis reachable : forall n, transport_ok app n = true.









End ReachableTest.


